(** * isalab17-custom: sale order line price reconciliation and the
      OpenUpgrade pre-migration repair script

    Shallow embedding of
    - [custom_addons/sale_custom_calculation/models/sale_order_line.py]
      (module [SaleOrderLine]), and
    - [custom_migration_scripts/base/17.0.1.3/pre-migration.py]
      (module [PreMigration]),
    followed by the properties of the specification that concern them. *)

From Stdlib Require Import Floats QArith Qcanon ZArith Ascii String.
From stdpp Require Import base option list strings gmap relations.

Close Scope Q_scope.
Close Scope Qc_scope.
Set Warnings "-inexact-float".

(** ** Python values shared by both files *)

Module Py.

(** The exceptions the two files can raise or meet. *)
Inductive exn :=
| UserError (msg : string)            (* odoo.exceptions.UserError *)
| ZeroDivisionError                   (* float division by zero *)
| KeyError (key : string)             (* d[key] on a missing key *)
| UndefinedTable (table : string)     (* psycopg2: relation does not exist *)
| RecursionError.                     (* the recursion budget is used up *)

Inductive result (A : Type) :=
| Ok (a : A)
| Raise (e : exn).
Arguments Ok {A} a.
Arguments Raise {A} e.

#[global] Instance result_ret : MRet result := fun _ a => Ok a.
#[global] Instance result_bind : MBind result := fun _ _ f r =>
  match r with
  | Ok a => f a
  | Raise e => Raise e
  end.

(** Python floats behind an interface: the operations the sale order line
    uses.  The code runs on the [binary64] instance; the [Qc] instance is
    the exact arithmetic the specification reasons with. *)
Class PyFloat (F : Type) := {
  fzero : F;
  fmul : F -> F -> F;
  fquot : F -> F -> F;       (* x / y for y != 0 *)
  feqb : F -> F -> bool;     (* x == y *)
  fleb : F -> F -> bool;     (* x <= y *)
  fltb : F -> F -> bool;     (* x < y *)
}.

#[global] Instance binary64 : PyFloat float := {|
  fzero := 0%float;
  fmul := PrimFloat.mul;
  fquot := PrimFloat.div;
  feqb := PrimFloat.eqb;
  fleb := PrimFloat.leb;
  fltb := PrimFloat.ltb;
|}.

#[global] Instance exact : PyFloat Qc := {|
  fzero := Q2Qc 0;
  fmul := Qcmult;
  fquot := Qcdiv;
  feqb := Qc_eq_bool;
  fleb := fun x y => Qle_bool (this x) (this y);
  fltb := fun x y => negb (Qle_bool (this y) (this x));
|}.

Section Float.
Context {F : Type} `{PyFloat F}.

(** [bool(x)] of a float: every value but zero. *)
Definition truthy (x : F) : bool := negb (feqb x fzero).

(** [bool(d.get(k))]: a missing key gives [None], which is falsy. *)
Definition truthy_get (o : option F) : bool :=
  match o with
  | Some x => truthy x
  | None => false
  end.

(** [x / y]. *)
Definition truediv (x y : F) : result F :=
  if feqb y fzero then Raise ZeroDivisionError else Ok (fquot x y).

(** [d[k]]. *)
Definition getitem (d : gmap string F) (k : string) : result F :=
  match d !! k with
  | Some x => Ok x
  | None => Raise (KeyError k)
  end.

(** [k in d]. *)
Definition contains (d : gmap string F) (k : string) : bool :=
  bool_decide (is_Some (d !! k)).
End Float.

(** What the comparisons with zero owe each other: a number above or
    below zero is not zero, and only the one below is [<= 0]. *)
Class PyFloatOrder (F : Type) `{PyFloat F} : Prop := {
  positive_nonzero (x : F) : fltb fzero x = true -> feqb x fzero = false;
  positive_not_le (x : F) : fltb fzero x = true -> fleb x fzero = false;
  negative_nonzero (x : F) : fltb x fzero = true -> feqb x fzero = false;
  negative_le (x : F) : fltb x fzero = true -> fleb x fzero = true;
}.

End Py.

Export Py.

(** ** sale_order_line.py *)

Module SaleOrderLine.

(** The three fields of [sale.order.line] the module works on, with
    floats as values.  A value assigned to a field is kept as it is: the
    framework rounds it to the digits of the field, which the database
    configures, and that rounding is not modelled. *)
Record line (F : Type) := mk_line {
  product_uom_qty : F;
  price_unit : F;
  manual_price_subtotal : F;
}.
Arguments mk_line {F}.
Arguments product_uom_qty {F}.
Arguments price_unit {F}.
Arguments manual_price_subtotal {F}.

(** The text of the validation error: quantity must be greater than zero. *)
Definition quantity_message : string :=
  "مقدار تعداد باید بزرگتر از صفر باشد!".

Section Model.
Context {F : Type} `{PyFloat F}.

Definition set_price_unit (l : line F) (p : F) : line F :=
  mk_line (product_uom_qty l) p (manual_price_subtotal l).

Definition set_manual_price_subtotal (l : line F) (s : F) : line F :=
  mk_line (product_uom_qty l) (price_unit l) s.

(** [_compute_manual_subtotal]: for every line of the recordset. *)
Definition _compute_manual_subtotal (self : list (line F)) : list (line F) :=
  (fun line =>
     set_manual_price_subtotal line
       (fmul (product_uom_qty line) (price_unit line))) <$> self.

(** The body of the loop of [_inverse_manual_subtotal]. *)
Definition inverse_body (line : line F) : result (SaleOrderLine.line F) :=
  if truthy (product_uom_qty line) && truthy (manual_price_subtotal line) then
    if fleb (product_uom_qty line) fzero then
      Raise (UserError quantity_message)
    else
      p ← truediv (manual_price_subtotal line) (product_uom_qty line);
      Ok (set_price_unit line p)
  else Ok line.

(** [_inverse_manual_subtotal]: the records as they are when the method
    returns or raises, and how it ended.  A raise leaves the lines
    already processed with their new price. *)
Fixpoint _inverse_manual_subtotal (self : list (line F))
  : list (line F) * result unit :=
  match self with
  | [] => ([], Ok ())
  | line :: rest =>
      match inverse_body line with
      | Raise e => (line :: rest, Raise e)
      | Ok line' =>
          let '(rest', r) := _inverse_manual_subtotal rest in
          (line' :: rest', r)
      end
  end.


(** [_onchange_manual_subtotal]. *)
Definition _onchange_manual_subtotal (self : line F)
  : result (line F) :=
  if truthy (product_uom_qty self) && truthy (manual_price_subtotal self) then
    if fleb (product_uom_qty self) fzero then
      Raise (UserError quantity_message)
    else
      p ← truediv (manual_price_subtotal self) (product_uom_qty self);
      Ok (set_price_unit self p)
  else Ok self.

(** The [for line in self] loop of the second branch of [write]: every
    line with a quantity overwrites [vals['price_unit']]. *)
Fixpoint write_each_line (self : list (line F)) (vals : gmap string F)
  : result (gmap string F) :=
  match self with
  | [] => Ok vals
  | line :: rest =>
      if truthy (product_uom_qty line)
         && truthy_get (vals !! "manual_price_subtotal") then
        if fleb (product_uom_qty line) fzero then
          Raise (UserError quantity_message)
        else
          s ← getitem vals "manual_price_subtotal";
          p ← truediv s (product_uom_qty line);
          write_each_line rest (<["price_unit" := p]> vals)
      else write_each_line rest vals
  end.

(** [write] up to the call of [super().write]: the values handed on.
    [vals] is taken to hold floats under the keys it has.  The dictionary
    of a caller can hold other values, on which [<=] and [/] can raise
    other errors (a string, an integer too large for a float): those
    calls are outside this model. *)
Definition write_vals (self : list (line F)) (vals : gmap string F)
  : result (gmap string F) :=
  if contains vals "manual_price_subtotal" && contains vals "product_uom_qty" then
    if truthy_get (vals !! "product_uom_qty")
       && truthy_get (vals !! "manual_price_subtotal") then
      q ← getitem vals "product_uom_qty";
      if fleb q fzero then
        Raise (UserError quantity_message)
      else
        s ← getitem vals "manual_price_subtotal";
        q' ← getitem vals "product_uom_qty";
        p ← truediv s q';
        Ok (<["price_unit" := p]> vals)
    else Ok vals
  else if contains vals "manual_price_subtotal" then
    write_each_line self vals
  else Ok vals.

(** The values of [vals] assigned to the fields of a record; a field
    without a value keeps the one it has. *)
Definition store (vals : gmap string F) (l : line F) : line F :=
  mk_line
    (default (product_uom_qty l) (vals !! "product_uom_qty"))
    (default (price_unit l) (vals !! "price_unit"))
    (default (manual_price_subtotal l) (vals !! "manual_price_subtotal")).

(** [super().write(vals)], as far as the declaration of
    [manual_price_subtotal] decides it: a stored field with
    [_compute_manual_subtotal] as compute and [_inverse_manual_subtotal]
    as inverse method.  The values are assigned to every record.  When
    the subtotal is among them, the framework calls the inverse method on
    the records, and the subtotal stays as it was given.  When it is not,
    and quantity or unit price is, the framework calls the compute
    method, which depends on the two.  The rest of the framework's
    [write] (access rights, other fields, rounding) is not modelled. *)
Definition super_write (self : list (line F)) (vals : gmap string F)
  : list (line F) * result unit :=
  let assigned := store vals <$> self in
  if contains vals "manual_price_subtotal" then
    _inverse_manual_subtotal assigned
  else if contains vals "product_uom_qty" || contains vals "price_unit" then
    (_compute_manual_subtotal assigned, Ok ())
  else (assigned, Ok ()).

(** [write]: the records afterwards and how the call ended. *)
Definition write (self : list (line F)) (vals : gmap string F)
  : list (line F) * result unit :=
  match write_vals self vals with
  | Raise e => (self, Raise e)
  | Ok vals' => super_write self vals'
  end.

(** The body of the loop of [create], on the values of one new line;
    they are floats, as in [write]. *)
Definition create_body (vals : gmap string F) : result (gmap string F) :=
  if truthy_get (vals !! "manual_price_subtotal")
     && truthy_get (vals !! "product_uom_qty") then
    q ← getitem vals "product_uom_qty";
    if fleb q fzero then
      Raise (UserError quantity_message)
    else
      s ← getitem vals "manual_price_subtotal";
      q' ← getitem vals "product_uom_qty";
      p ← truediv s q';
      Ok (<["price_unit" := p]> vals)
  else Ok vals.

(** [create] up to the call of [super().create]. *)
Fixpoint create_vals (vals_list : list (gmap string F))
  : result (list (gmap string F)) :=
  match vals_list with
  | [] => Ok []
  | vals :: rest =>
      vals' ← create_body vals;
      rest' ← create_vals rest;
      Ok (vals' :: rest')
  end.

(** A new record with the values of [vals] assigned.  What a field
    without a value starts with is decided by the model this one
    inherits from, which is not in this module: zero is assumed here, and
    only a [create] whose values leave a field out depends on it. *)
Definition new_line (vals : gmap string F) : line F :=
  store vals (mk_line fzero fzero fzero).

(** [super().create(vals_list)] for one new line, as far as the
    declaration of [manual_price_subtotal] decides it: when the subtotal
    is among the values, the inverse method runs on the new record; when
    it is not, the compute method does. *)
Definition super_create_body (vals : gmap string F) : result (line F) :=
  let line := new_line vals in
  if contains vals "manual_price_subtotal" then inverse_body line
  else
    Ok (set_manual_price_subtotal line
          (fmul (product_uom_qty line) (price_unit line))).

Fixpoint super_create (vals_list : list (gmap string F))
  : result (list (line F)) :=
  match vals_list with
  | [] => Ok []
  | vals :: rest =>
      line ← super_create_body vals;
      lines ← super_create rest;
      Ok (line :: lines)
  end.

(** [create]: the new records, or the exception. *)
Definition create (vals_list : list (gmap string F))
  : result (list (line F)) :=
  match create_vals vals_list with
  | Raise e => Raise e
  | Ok vals_list' => super_create vals_list'
  end.

End Model.

(** *** The product of a line *)

(** [product.product], as far as the module reads it. *)
Record product (F : Type) := mk_product {
  list_price : F;
}.
Arguments mk_product {F}.
Arguments list_price {F}.

(** A line on the form: the three fields and [product_id], a product or
    the empty recordset, which is falsy. *)
Record form_line (F : Type) := mk_form_line {
  product_id : option (product F);
  form_fields : line F;
}.
Arguments mk_form_line {F}.
Arguments product_id {F}.
Arguments form_fields {F}.

Section Form.
Context {F : Type} `{PyFloat F}.

(** [_onchange_product_id_custom], on the single record of an on-change
    call. *)
Definition _onchange_product_id_custom (self : form_line F) : form_line F :=
  match product_id self with
  | Some p =>
      mk_form_line (product_id self)
        (set_price_unit (form_fields self) (list_price p))
  | None => self
  end.

(** *** Terms of the properties *)

(** A call that ends in an exception ends in the validation error. *)
Definition only_user_error {A : Type} (r : result A) : Prop :=
  match r with
  | Ok _ => True
  | Raise e => e = UserError quantity_message
  end.

(** The values of a new line that [create] refuses: subtotal and quantity
    are given and not zero, and the quantity is [<= 0]. *)
Definition rejected (vals : gmap string F) : bool :=
  match vals !! "manual_price_subtotal", vals !! "product_uom_qty" with
  | Some s, Some q => truthy s && truthy q && fleb q fzero
  | _, _ => false
  end.

(** A line the inverse method refuses: quantity and subtotal are not
    zero, and the quantity is [<= 0]. *)
Definition refused (l : line F) : bool :=
  truthy (product_uom_qty l) && truthy (manual_price_subtotal l)
  && fleb (product_uom_qty l) fzero.

(** The unit price a line has after the inverse method went over it. *)
Definition inverted (l : line F) : line F :=
  if truthy (product_uom_qty l) && truthy (manual_price_subtotal l) then
    set_price_unit l (fquot (manual_price_subtotal l) (product_uom_qty l))
  else l.

(** The values [write] and [create] hand on differ from the ones they
    were given in the unit price at most. *)
Definition same_but_price_unit (vals vals' : gmap string F) : Prop :=
  ∀ k, k ≠ "price_unit" -> vals' !! k = vals !! k.

End Form.

End SaleOrderLine.

(** ** pre-migration.py *)

Module PreMigration.

(** *** The database

    Rows carry the columns the script names.  A nullable column is an
    [option]; a comparison with NULL selects nothing, as in SQL. *)

Record cron := mk_cron {
  cron_id : Z;
  cron_name : option string;
  cron_active : option bool;
}.

Record model_data := mk_model_data {
  data_id : Z;
  data_module : string;
  data_name : string;
  data_model : string;
  data_res_id : option Z;
  data_noupdate : option bool;
}.

Record edi_document := mk_edi_document {
  doc_id : Z;
  doc_edi_format_id : option Z;
}.

Record model := mk_model {
  model_id : Z;
  model_model : string;
}.

Record model_access := mk_model_access {
  access_id : Z;
  access_model_id : Z;
}.

Record view := mk_view {
  view_id : Z;
  view_name : string;
  view_model : option string;
  view_inherit_id : option Z;
  view_arch_db : option string;
}.

(** [tables] are the relations a statement can name: the tables of the
    schemas on the search path.  [elsewhere] are the names of the tables of
    the other schemas of the database: a statement cannot name them, but
    [information_schema.tables] lists them as well.  The rows recorded
    for a relation that a statement cannot name are never read. *)
Record database := mk_database {
  tables : list string;
  elsewhere : list string;
  ir_cron : list cron;
  ir_model_data : list model_data;
  account_edi_document : list edi_document;
  ir_model : list model;
  ir_model_access : list model_access;
  ir_ui_view : list view;
}.

(** The column [table_name] of [information_schema.tables]: the tables of
    every schema. *)
Definition information_schema_tables (db : database) : list string :=
  tables db ++ elsewhere db.

(** The statements of the script, with their parameter. *)
Inductive statement :=
| update_fatturapa_cron
| select_exists_account_edi_document
| update_noupdate_edi_fatturapa
| update_noupdate_edi_formats
| select_project_delete_wizard
| delete_access_project_delete_wizard
| delete_data_project_delete_wizard
| select_child_views (id : Z)
| delete_view_data (id : Z)
| delete_view (id : Z)
| select_settings_views (pattern : string).

(** The relations a statement names in FROM, UPDATE, DELETE or JOIN.
    [information_schema.tables] is a system view and always there. *)
Definition relations (st : statement) : list string :=
  match st with
  | update_fatturapa_cron => ["ir_cron"]
  | select_exists_account_edi_document => []
  | update_noupdate_edi_fatturapa => ["ir_model_data"]
  | update_noupdate_edi_formats => ["ir_model_data"; "account_edi_document"]
  | select_project_delete_wizard => ["ir_model"]
  | delete_access_project_delete_wizard => ["ir_model_access"; "ir_model"]
  | delete_data_project_delete_wizard => ["ir_model_data"]
  | select_child_views _ => ["ir_ui_view"]
  | delete_view_data _ => ["ir_model_data"]
  | delete_view _ => ["ir_ui_view"]
  | select_settings_views _ => ["ir_ui_view"; "ir_model_data"]
  end.

(** A statement that only reads. *)
Definition is_select (st : statement) : bool :=
  match st with
  | select_exists_account_edi_document
  | select_project_delete_wizard
  | select_child_views _
  | select_settings_views _ => true
  | _ => false
  end.

(** The cursor: the database of the transaction and the statements
    executed on it so far. *)
Record cursor := mk_cursor {
  cr_db : database;
  cr_log : list statement;
}.

(** Code that uses the cursor: it returns or raises, and leaves a cursor. *)
Definition M (A : Type) : Type := cursor -> result A * cursor.

#[global] Instance M_ret : MRet M := fun _ a cr => (Ok a, cr).
#[global] Instance M_bind : MBind M := fun _ _ f m cr =>
  match m cr with
  | (Ok a, cr') => f a cr'
  | (Raise e, cr') => (Raise e, cr')
  end.

Definition raise {A} (e : exn) : M A := fun cr => (Raise e, cr).

(** [for x in xs: acc = body(x, acc)]. *)
Fixpoint for_in {A B} (xs : list A) (body : A -> B -> M B) (acc : B) : M B :=
  match xs with
  | [] => mret acc
  | x :: xs' => acc' ← body x acc; for_in xs' body acc'
  end.

(** *** SQL *)

(** Text is held as its UTF-8 encoding, as in a database whose encoding
    is UTF8: a character is a byte that is not of the form 10xxxxxx,
    followed by the bytes of that form that continue it. *)
Definition continuation (c : ascii) : bool :=
  match c with
  | Ascii _ _ _ _ _ _ false true => true
  | _ => false
  end.

(** [text] without the bytes at its start that continue a character. *)
Fixpoint skip_continuation (text : string) : string :=
  match text with
  | EmptyString => EmptyString
  | String c text' =>
      if continuation c then skip_continuation text' else text
  end.

(** [text] is empty or starts with the first byte of a character. *)
Definition at_character (text : string) : bool :=
  match text with
  | EmptyString => true
  | String c _ => negb (continuation c)
  end.

(** What follows a [%] in a pattern: [rest] is tried on [text], when
    [here] is set, and on what is left of [text] after each of its
    characters. *)
Fixpoint any_run (rest : string -> bool) (here : bool) (text : string)
  : bool :=
  here && rest text
  || match text with
     | EmptyString => false
     | String _ text' => any_run rest (at_character text') text'
     end.

(** [text LIKE pattern], with the escape character of PostgreSQL: [%]
    stands for any run of characters, [_] for any one character, and [\]
    before a character for that character.  A pattern that ends in the
    escape character is an error in PostgreSQL and fits no text here; no
    pattern of the script has the escape character. *)
Fixpoint like (pattern text : string) : bool :=
  match pattern with
  | EmptyString =>
      match text with
      | EmptyString => true
      | String _ _ => false
      end
  | String c pattern' =>
      if Ascii.eqb c "%"%char then any_run (like pattern') true text
      else if Ascii.eqb c "_"%char then
        match text with
        | EmptyString => false
        | String _ text' => like pattern' (skip_continuation text')
        end
      else if Ascii.eqb c "\"%char then
        match pattern' with
        | EmptyString => false
        | String e pattern'' =>
            match text with
            | EmptyString => false
            | String d text' => Ascii.eqb e d && like pattern'' text'
            end
        end
      else
        match text with
        | EmptyString => false
        | String d text' => Ascii.eqb c d && like pattern' text'
        end
  end.

(** [column LIKE pattern] on a nullable column. *)
Definition like_null (pattern : string) (column : option string) : bool :=
  match column with
  | Some text => like pattern text
  | None => false
  end.

(** [UPDATE ... SET ... WHERE ...]. *)
Definition sql_update {A} (where_ : A -> bool) (set : A -> A) (rows : list A)
  : list A :=
  (fun r => if where_ r then set r else r) <$> rows.

(** [DELETE ... WHERE ...]. *)
Definition sql_delete {A} (where_ : A -> bool) (rows : list A) : list A :=
  filter (fun r => where_ r = false) rows.

(** [SELECT ... WHERE ...] and the rows of [RETURNING]. *)
Definition sql_select {A} (where_ : A -> bool) (rows : list A) : list A :=
  filter (fun r => where_ r = true) rows.

Definition missing (db : database) (st : statement) : option string :=
  head (filter (fun t => t ∉ tables db) (relations st)).

(** [cr.execute(st)] followed by the fetch of its result: the statement is
    logged; it fails when it names a relation that does not exist, and
    otherwise reads and changes the database as [run] says.  After a
    statement has failed, the database of the cursor is what the
    transaction had done until then: the script executes nothing after
    an exception, and the server accepts nothing more in that transaction
    but its rollback, which is left to the caller of [migrate]. *)
Definition execute {A} (st : statement) (run : database -> A * database)
  : M A :=
  fun cr =>
    let log := cr_log cr ++ [st] in
    match missing (cr_db cr) st with
    | Some t => (Raise (UndefinedTable t), mk_cursor (cr_db cr) log)
    | None => let '(a, db') := run (cr_db cr) in (Ok a, mk_cursor db' log)
    end.

Definition with_ir_cron (db : database) (rows : list cron) : database :=
  mk_database (tables db) (elsewhere db) rows (ir_model_data db)
    (account_edi_document db) (ir_model db) (ir_model_access db)
    (ir_ui_view db).

Definition with_ir_model_data (db : database) (rows : list model_data)
  : database :=
  mk_database (tables db) (elsewhere db) (ir_cron db) rows
    (account_edi_document db) (ir_model db) (ir_model_access db)
    (ir_ui_view db).

Definition with_ir_model_access (db : database) (rows : list model_access)
  : database :=
  mk_database (tables db) (elsewhere db) (ir_cron db) (ir_model_data db)
    (account_edi_document db) (ir_model db) rows (ir_ui_view db).

Definition with_ir_ui_view (db : database) (rows : list view) : database :=
  mk_database (tables db) (elsewhere db) (ir_cron db) (ir_model_data db)
    (account_edi_document db) (ir_model db) (ir_model_access db) rows.

(** *** The WHERE clauses *)

(** [cron_name::text LIKE '%%FatturaPA%%' AND active = true]. *)
Definition fatturapa_cron (r : cron) : bool :=
  like_null "%%FatturaPA%%" (cron_name r)
  && bool_decide (cron_active r = Some true).

(** [module = 'l10n_it_edi' AND name = 'edi_fatturaPA' AND noupdate = false]. *)
Definition edi_fatturapa_data (r : model_data) : bool :=
  bool_decide (data_module r = "l10n_it_edi")
  && bool_decide (data_name r = "edi_fatturaPA")
  && bool_decide (data_noupdate r = Some false).

(** [model = 'account.edi.format' AND noupdate = false AND res_id IN
    (SELECT DISTINCT edi_format_id FROM account_edi_document
     WHERE edi_format_id IS NOT NULL)]. *)
Definition linked_edi_format_data (docs : list edi_document) (r : model_data)
  : bool :=
  bool_decide (data_model r = "account.edi.format")
  && bool_decide (data_noupdate r = Some false)
  && bool_decide (is_Some (data_res_id r)
                  ∧ data_res_id r ∈ doc_edi_format_id <$> docs).

(** [model = 'project.delete.wizard']. *)
Definition project_delete_wizard (r : model) : bool :=
  bool_decide (model_model r = "project.delete.wizard").

(** [model_id IN (SELECT id FROM ir_model
                  WHERE model = 'project.delete.wizard')]. *)
Definition project_delete_wizard_access (models : list model)
    (r : model_access) : bool :=
  bool_decide (access_model_id r
               ∈ model_id <$> sql_select project_delete_wizard models).

(** [name LIKE '%%project_delete_wizard%%']. *)
Definition project_delete_wizard_data (r : model_data) : bool :=
  like "%%project_delete_wizard%%" (data_name r).

(** [inherit_id = %s]. *)
Definition child_of (id : Z) (r : view) : bool :=
  bool_decide (view_inherit_id r = Some id).

(** [res_id = %s AND model = 'ir.ui.view']. *)
Definition data_of_view (id : Z) (r : model_data) : bool :=
  bool_decide (data_res_id r = Some id)
  && bool_decide (data_model r = "ir.ui.view").

(** [id = %s]. *)
Definition has_id (id : Z) (r : view) : bool :=
  bool_decide (view_id r = id).

(** [v.model = 'res.config.settings' AND v.inherit_id IS NOT NULL
     AND v.arch_db::text LIKE %s]. *)
Definition settings_view (pattern : string) (r : view) : bool :=
  bool_decide (view_model r = Some "res.config.settings")
  && bool_decide (is_Some (view_inherit_id r))
  && like_null pattern (view_arch_db r).

(** [FROM ir_ui_view v LEFT JOIN ir_model_data d
     ON d.res_id = v.id AND d.model = 'ir.ui.view'], with the columns
    [v.id, v.name, d.module]. *)
Definition left_join_data (data : list model_data) (v : view)
  : list (Z * string * option string) :=
  match sql_select (data_of_view (view_id v)) data with
  | [] => [(view_id v, view_name v, None)]
  | ds => (fun d => (view_id v, view_name v, Some (data_module d))) <$> ds
  end.

(** *** The statements, executed and fetched *)

(** [UPDATE ir_cron SET active = false WHERE ... RETURNING id, cron_name],
    then [fetchall]. *)
Definition disable_fatturapa_cron : M (list (Z * option string)) :=
  execute update_fatturapa_cron (fun db =>
    ((fun r => (cron_id r, cron_name r))
       <$> sql_select fatturapa_cron (ir_cron db),
     with_ir_cron db
       (sql_update fatturapa_cron
          (fun r => mk_cron (cron_id r) (cron_name r) (Some false))
          (ir_cron db)))).

(** [SELECT EXISTS (SELECT FROM information_schema.tables
     WHERE table_name = 'account_edi_document')], then [fetchone()[0]]. *)
Definition exists_account_edi_document : M bool :=
  execute select_exists_account_edi_document (fun db =>
    (bool_decide ("account_edi_document" ∈ information_schema_tables db),
     db)).

Definition set_noupdate (r : model_data) : model_data :=
  mk_model_data (data_id r) (data_module r) (data_name r) (data_model r)
    (data_res_id r) (Some true).

(** [UPDATE ir_model_data SET noupdate = true WHERE module = 'l10n_it_edi'
     AND name = 'edi_fatturaPA' AND noupdate = false RETURNING id]. *)
Definition noupdate_edi_fatturapa : M (list Z) :=
  execute update_noupdate_edi_fatturapa (fun db =>
    (data_id <$> sql_select edi_fatturapa_data (ir_model_data db),
     with_ir_model_data db
       (sql_update edi_fatturapa_data set_noupdate (ir_model_data db)))).

(** [UPDATE ir_model_data SET noupdate = true WHERE model =
     'account.edi.format' AND ... RETURNING id, name]. *)
Definition noupdate_edi_formats : M (list (Z * string)) :=
  execute update_noupdate_edi_formats (fun db =>
    let where_ := linked_edi_format_data (account_edi_document db) in
    ((fun r => (data_id r, data_name r))
       <$> sql_select where_ (ir_model_data db),
     with_ir_model_data db
       (sql_update where_ set_noupdate (ir_model_data db)))).

(** [SELECT id FROM ir_model WHERE model = 'project.delete.wizard']. *)
Definition find_project_delete_wizard : M (list Z) :=
  execute select_project_delete_wizard (fun db =>
    (model_id <$> sql_select project_delete_wizard (ir_model db), db)).

(** [DELETE FROM ir_model_access WHERE model_id IN (...) RETURNING id]. *)
Definition delete_project_delete_wizard_access : M (list Z) :=
  execute delete_access_project_delete_wizard (fun db =>
    let where_ := project_delete_wizard_access (ir_model db) in
    (access_id <$> sql_select where_ (ir_model_access db),
     with_ir_model_access db (sql_delete where_ (ir_model_access db)))).

(** [DELETE FROM ir_model_data WHERE name LIKE
     '%%project_delete_wizard%%' RETURNING id, name]. *)
Definition delete_project_delete_wizard_data : M (list (Z * string)) :=
  execute delete_data_project_delete_wizard (fun db =>
    ((fun r => (data_id r, data_name r))
       <$> sql_select project_delete_wizard_data (ir_model_data db),
     with_ir_model_data db
       (sql_delete project_delete_wizard_data (ir_model_data db)))).

(** [SELECT id, name FROM ir_ui_view WHERE inherit_id = %s]. *)
Definition find_child_views (id : Z) : M (list (Z * string)) :=
  execute (select_child_views id) (fun db =>
    ((fun r => (view_id r, view_name r))
       <$> sql_select (child_of id) (ir_ui_view db), db)).

(** [DELETE FROM ir_model_data WHERE res_id = %s AND model = 'ir.ui.view'];
    nothing is fetched. *)
Definition delete_data_of_view (id : Z) : M unit :=
  execute (delete_view_data id) (fun db =>
    ((), with_ir_model_data db
           (sql_delete (data_of_view id) (ir_model_data db)))).

(** [DELETE FROM ir_ui_view WHERE id = %s RETURNING id, name], then
    [fetchone]: the first row deleted, if any. *)
Definition delete_view_row (id : Z) : M (option (Z * string)) :=
  execute (delete_view id) (fun db =>
    (head ((fun r => (view_id r, view_name r))
             <$> sql_select (has_id id) (ir_ui_view db)),
     with_ir_ui_view db (sql_delete (has_id id) (ir_ui_view db)))).

(** [SELECT v.id, v.name, d.module FROM ir_ui_view v LEFT JOIN ... WHERE
     v.model = 'res.config.settings' AND v.inherit_id IS NOT NULL
     AND v.arch_db::text LIKE %s]. *)
Definition find_settings_views (pattern : string)
  : M (list (Z * string * option string)) :=
  execute (select_settings_views pattern) (fun db =>
    (sql_select (settings_view pattern) (ir_ui_view db)
       ≫= left_join_data (ir_model_data db), db)).

(** *** The script

    The calls of [_logger.info] write to the log of the process and to
    nothing else; they are left out. *)

(** [_fix_fatturapa_cron]. *)
Definition _fix_fatturapa_cron : M unit :=
  disabled_crons ← disable_fatturapa_cron;
  mret ().

(** [_fix_edi_format_noupdate]. *)
Definition _fix_edi_format_noupdate : M unit :=
  found ← exists_account_edi_document;
  if negb found then mret ()
  else
    _ ← noupdate_edi_fatturapa;
    updated ← noupdate_edi_formats;
    mret ().

(** [_fix_project_delete_wizard]. *)
Definition _fix_project_delete_wizard : M unit :=
  model_ids ← find_project_delete_wizard;
  match model_ids with
  | [] => mret ()
  | _ :: _ =>
      deleted ← delete_project_delete_wizard_access;
      deleted ← delete_project_delete_wizard_data;
      mret ()
  end.

(** [_delete_view_cascade].  [limit] is the depth of recursion the
    interpreter still allows: a call that finds none left raises
    [RecursionError]. *)
Fixpoint _delete_view_cascade (limit : nat) (view_id : Z)
    (view_name : string) (module : option string) : M nat :=
  match limit with
  | O => raise RecursionError
  | S limit' =>
      let deleted_count := 0 in
      child_views ← find_child_views view_id;
      deleted_count ←
        for_in child_views (fun '(child_id, child_name) deleted_count =>
          n ← _delete_view_cascade limit' child_id child_name module;
          mret (deleted_count + n)) deleted_count;
      _ ← delete_data_of_view view_id;
      deleted ← delete_view_row view_id;
      match deleted with
      | Some _ => mret (deleted_count + 1)
      | None => mret deleted_count
      end
  end.

Definition problematic_patterns : list string :=
  [ "%hasclass('settings')%";
    "%hasclass(''settings'')%";
    "%@id='account_vendor_bills'%";
    "%@id=''account_vendor_bills''%" ].

(** [_fix_incompatible_settings_views]; the total is only logged. *)
Definition _fix_incompatible_settings_views (limit : nat) : M nat :=
  let total_deleted := 0 in
  for_in problematic_patterns (fun pattern total_deleted =>
    views_to_delete ← find_settings_views pattern;
    for_in views_to_delete (fun '(view_id, view_name, module) total_deleted =>
      n ← _delete_view_cascade limit view_id view_name module;
      mret (total_deleted + n)) total_deleted) total_deleted.

(** [not version], for the string or [None] the upgrade runner passes. *)
Definition falsy (version : option string) : bool :=
  match version with
  | None => true
  | Some s => bool_decide (s = "")
  end.

(** [migrate]. *)
Definition migrate (limit : nat) (version : option string) : M unit :=
  if falsy version then mret ()
  else
    _ ← _fix_fatturapa_cron;
    _ ← _fix_edi_format_noupdate;
    _ ← _fix_project_delete_wizard;
    _ ← _fix_incompatible_settings_views limit;
    mret ().

(** *** Terms of the properties

    Devices to reason about code that uses the cursor. *)

(** [ends m cr Q]: run from [cr], [m] ends with a result and a cursor that
    satisfy [Q]. *)
Definition ends {A} (m : M A) (cr : cursor)
  (Q : result A -> cursor -> Prop) : Prop :=
  Q (m cr).1 (m cr).2.

(** One call, with the recursive calls as a parameter. *)
Definition cascade_body (rec : Z -> string -> option string -> M nat)
    (view_id : Z) (module : option string) : M nat :=
  child_views ← find_child_views view_id;
  deleted_count ←
    for_in child_views (fun '(child_id, child_name) deleted_count =>
      n ← rec child_id child_name module;
      mret (deleted_count + n)) 0;
  _ ← delete_data_of_view view_id;
  deleted ← delete_view_row view_id;
  match deleted with
  | Some _ => mret (deleted_count + 1)
  | None => mret deleted_count
  end.

(** The loop of [_fix_incompatible_settings_views] over any patterns. *)
Definition settings_views_loop (limit : nat) (patterns : list string)
  (total_deleted : nat) : M nat :=
  for_in patterns (fun pattern total_deleted =>
    views_to_delete ← find_settings_views pattern;
    for_in views_to_delete (fun '(view_id, view_name, module) total_deleted =>
      n ← _delete_view_cascade limit view_id view_name module;
      mret (total_deleted + n)) total_deleted) total_deleted.

(** The database after the two DELETE statements for one view. *)
Definition without_view (id : Z) (db : database) : database :=
  with_ir_ui_view
    (with_ir_model_data db (sql_delete (data_of_view id) (ir_model_data db)))
    (sql_delete (has_id id) (ir_ui_view db)).

(** Views that inherit from one another, and what a run may change. *)

(** [inherits views parent child]: a row of [views] with id [child] has
    [parent] as its [inherit_id]. *)
Definition inherits (views : list view) (parent child : Z) : Prop :=
  ∃ r, r ∈ views ∧ view_id r = child ∧ view_inherit_id r = Some parent.

(** [db'] is [db] with some views and some metadata rows deleted, and
    nothing else changed. *)
Definition shrinks (db db' : database) : Prop :=
  tables db' = tables db
  ∧ elsewhere db' = elsewhere db
  ∧ ir_cron db' = ir_cron db
  ∧ account_edi_document db' = account_edi_document db
  ∧ ir_model db' = ir_model db
  ∧ ir_model_access db' = ir_model_access db
  ∧ ir_model_data db' `sublist_of` ir_model_data db
  ∧ ir_ui_view db' `sublist_of` ir_ui_view db.

(** [shrinks], and what is gone is within [G]: the views deleted have
    their id in [G], and the metadata rows deleted are rows of views in
    [G] that are gone. *)
Definition deleted_within (G : Z -> Prop) (db db' : database) : Prop :=
  shrinks db db'
  ∧ (∀ r, r ∈ ir_ui_view db -> r ∉ ir_ui_view db' -> G (view_id r))
  ∧ (∀ d, d ∈ ir_model_data db -> d ∉ ir_model_data db' ->
       data_model d = "ir.ui.view"
       ∧ ∃ id, data_res_id d = Some id ∧ G id
               ∧ id ∉ view_id <$> ir_ui_view db').

(** A view one of the four patterns selects. *)
Definition incompatible (r : view) : Prop :=
  ∃ pattern, pattern ∈ problematic_patterns
             ∧ settings_view pattern r = true.

(** [id] is the id of an incompatible view of [views], or inherits from
    one through any number of views. *)
Definition condemned (views : list view) (id : Z) : Prop :=
  ∃ r, r ∈ views ∧ incompatible r ∧ rtc (inherits views) (view_id r) id.

(** What is left in [db'] does not refer to a view of [db] that is gone:
    neither a view through its [inherit_id] nor a metadata row of a view
    through its [res_id]. *)
Definition closed (db db' : database) : Prop :=
  (∀ r p, r ∈ ir_ui_view db' -> view_inherit_id r = Some p ->
     p ∈ view_id <$> ir_ui_view db -> p ∈ view_id <$> ir_ui_view db')
  ∧ (∀ d id, d ∈ ir_model_data db' -> data_model d = "ir.ui.view" ->
       data_res_id d = Some id ->
       id ∈ view_id <$> ir_ui_view db -> id ∈ view_id <$> ir_ui_view db').

(** The state a cascade from [v] that returns [n] leaves. *)
Definition cascaded (v : Z) (db db' : database) (n : nat) : Prop :=
  (v ∉ view_id <$> ir_ui_view db')
  ∧ (∀ r, r ∈ ir_ui_view db' -> view_inherit_id r ≠ Some v)
  ∧ (∀ d, d ∈ ir_model_data db' -> data_of_view v d = false)
  ∧ closed db db'
  ∧ (NoDup (view_id <$> ir_ui_view db) ->
     n + length (ir_ui_view db') = length (ir_ui_view db)).

(** [v] can be cascaded within [bound] calls deep, whatever is left of
    [views]. *)
Definition returns_within (views : list view) (bound : nat) (v : Z) : Prop :=
  ∀ limit name module cr,
    bound ≤ limit ->
    ir_ui_view (cr_db cr) `sublist_of` views ->
    (_delete_view_cascade limit v name module cr).1 ≠ Raise RecursionError.

(** From [x], following the views that inherit from one another, a view
    is reached that inherits from itself through one or more views. *)
Definition loops (views : list view) (x : Z) : Prop :=
  ∃ y, rtc (inherits views) x y ∧ tc (inherits views) y y.

(** The rows of the views that loop are there in [views'], which has
    no other rows than [views]. *)
Definition keeps_loops (views views' : list view) : Prop :=
  ∀ r, r ∈ views -> loops views (view_id r) -> r ∈ views'.

(** The relations the steps name exist, and no row is selected by any of
    the WHERE clauses whose statement the script would reach. *)
Definition settled (db : database) : Prop :=
  "ir_cron" ∈ tables db
  ∧ "ir_model" ∈ tables db
  ∧ "ir_ui_view" ∈ tables db
  ∧ "ir_model_data" ∈ tables db
  ∧ (∀ r, r ∈ ir_cron db -> fatturapa_cron r = false)
  ∧ ("account_edi_document" ∈ information_schema_tables db ->
     "account_edi_document" ∈ tables db
     ∧ ∀ r, r ∈ ir_model_data db ->
         edi_fatturapa_data r = false
         ∧ linked_edi_format_data (account_edi_document db) r = false)
  ∧ (sql_select project_delete_wizard (ir_model db) ≠ [] ->
     "ir_model_access" ∈ tables db
     ∧ (∀ r, r ∈ ir_model_access db ->
          project_delete_wizard_access (ir_model db) r = false)
     ∧ (∀ r, r ∈ ir_model_data db -> project_delete_wizard_data r = false))
  ∧ (∀ pattern r, pattern ∈ problematic_patterns ->
       r ∈ ir_ui_view db -> settings_view pattern r = false).

(** The relations of the framework that the script takes for granted. *)
Definition core_relations (db : database) : Prop :=
  "ir_cron" ∈ tables db
  ∧ "ir_model_data" ∈ tables db
  ∧ "ir_model" ∈ tables db
  ∧ "ir_model_access" ∈ tables db
  ∧ "ir_ui_view" ∈ tables db.

(** If the database has a table named [account_edi_document], a
    statement can name it: one of them is in a schema on the search
    path. *)
Definition edi_document_on_path (db : database) : Prop :=
  "account_edi_document" ∈ information_schema_tables db ->
  "account_edi_document" ∈ tables db.

(** Rows can be compared. *)

#[global] Instance view_eq_dec : EqDecision view.
Proof. solve_decision. Defined.

#[global] Instance model_data_eq_dec : EqDecision model_data.
Proof. solve_decision. Defined.

(** Databases to run the script on. *)

(** A view with two children and one grandchild, next to a view that
    does not inherit from it, each with its metadata row. *)
Definition family : database :=
  mk_database
    ["ir_cron"; "ir_model_data"; "ir_model"; "ir_model_access"; "ir_ui_view"]
    [] []
    [ mk_model_data 101 "base" "view_parent" "ir.ui.view" (Some 1%Z) (Some false);
      mk_model_data 102 "sale" "view_child_a" "ir.ui.view" (Some 2%Z) (Some false);
      mk_model_data 103 "sale" "view_child_b" "ir.ui.view" (Some 3%Z) (Some true);
      mk_model_data 104 "sale" "view_grandchild" "ir.ui.view" (Some 4%Z) None;
      mk_model_data 105 "base" "view_other" "ir.ui.view" (Some 5%Z) (Some false);
      mk_model_data 106 "base" "group_user" "res.groups" (Some 1%Z) (Some true) ]
    [] [] []
    [ mk_view 1 "parent" (Some "res.partner") None (Some "<form/>");
      mk_view 2 "child_a" (Some "res.partner") (Some 1%Z) (Some "<xpath/>");
      mk_view 5 "other" (Some "res.partner") None (Some "<tree/>");
      mk_view 3 "child_b" (Some "res.partner") (Some 1%Z) None;
      mk_view 4 "grandchild" (Some "res.partner") (Some 2%Z) (Some "<xpath/>") ].

(** What a cascade from view 1 leaves of [family]. *)
Definition family_after : database :=
  with_ir_ui_view
    (with_ir_model_data family
       [ mk_model_data 105 "base" "view_other" "ir.ui.view" (Some 5%Z) (Some false);
         mk_model_data 106 "base" "group_user" "res.groups" (Some 1%Z) (Some true) ])
    [ mk_view 5 "other" (Some "res.partner") None (Some "<tree/>") ].

(** The statements of that cascade, in the order of their execution. *)
Definition family_log : list statement :=
  [ select_child_views 1;
    select_child_views 2;
    select_child_views 4; delete_view_data 4; delete_view 4;
    delete_view_data 2; delete_view 2;
    select_child_views 3; delete_view_data 3; delete_view 3;
    delete_view_data 1; delete_view 1 ].

(** Two views that inherit from each other. *)
Definition mutual : database :=
  mk_database ["ir_model_data"; "ir_ui_view"] [] [] [] [] [] []
    [ mk_view 1 "one" None (Some 2%Z) None;
      mk_view 2 "two" None (Some 1%Z) None ].

(** A database of version 16 with something for each step: a FatturaPA
    cron job, an EDI format with a linked document, the model of the
    wizard with an access rule and metadata, and two settings views of the
    old structure, one of them with a view inheriting from it. *)
Definition legacy : database :=
  mk_database
    [ "ir_cron"; "ir_model_data"; "account_edi_document"; "ir_model";
      "ir_model_access"; "ir_ui_view" ]
    []
    [ mk_cron 1 (Some "FatturaPA: receive invoices") (Some true);
      mk_cron 2 (Some "Mail: fetch") (Some true) ]
    [ mk_model_data 10 "l10n_it_edi" "edi_fatturaPA" "account.edi.format"
        (Some 7%Z) (Some false);
      mk_model_data 11 "account_edi_ubl" "edi_ubl" "account.edi.format"
        (Some 8%Z) (Some false);
      mk_model_data 12 "project" "access_project_delete_wizard"
        "ir.model.access" (Some 30%Z) (Some false);
      mk_model_data 13 "sale" "res_config_settings_view_form" "ir.ui.view"
        (Some 41%Z) (Some false);
      mk_model_data 14 "base" "view_partner_form" "ir.ui.view"
        (Some 40%Z) (Some false) ]
    [ mk_edi_document 1 (Some 8%Z); mk_edi_document 2 None ]
    [ mk_model 20 "project.delete.wizard"; mk_model 21 "res.partner" ]
    [ mk_model_access 30 20; mk_model_access 31 21 ]
    [ mk_view 40 "partner.form" (Some "res.partner") None (Some "<form/>");
      mk_view 41 "sale.settings" (Some "res.config.settings") (Some 39%Z)
        (Some "<xpath expr=//div[hasclass('settings')]/>");
      mk_view 42 "sale.settings.more" (Some "res.config.settings")
        (Some 41%Z) (Some "<field name=x/>");
      mk_view 43 "account.settings" (Some "res.config.settings")
        (Some 39%Z) (Some "<xpath expr=//div[@id='account_vendor_bills']/>") ].

(** A database with the relations of the framework, where the table
    [account_edi_document] is in a schema that is not on the search
    path. *)
Definition off_path : database :=
  mk_database
    ["ir_cron"; "ir_model_data"; "ir_model"; "ir_model_access"; "ir_ui_view"]
    ["account_edi_document"]
    []
    [ mk_model_data 10 "l10n_it_edi" "edi_fatturaPA" "account.edi.format"
        (Some 7%Z) (Some false) ]
    [] [] [] [].

(** A database with the relations of the framework and no rows. *)
Definition no_rows : database :=
  mk_database
    ["ir_cron"; "ir_model_data"; "ir_model"; "ir_model_access"; "ir_ui_view"]
    [] [] [] [] [] [] [].

(** *** Terms of the further properties *)

(** Patterns and what they select. *)

(** A pattern without [%] and without the escape character. *)
Fixpoint plain (pattern : string) : bool :=
  match pattern with
  | EmptyString => true
  | String c pattern' =>
      negb (Ascii.eqb c "%"%char) && negb (Ascii.eqb c "\"%char)
      && plain pattern'
  end.

(** A plain pattern without [_]: a text that stands for itself. *)
Fixpoint literal (pattern : string) : bool :=
  match pattern with
  | EmptyString => true
  | String c pattern' =>
      negb (Ascii.eqb c "%"%char) && negb (Ascii.eqb c "\"%char)
      && negb (Ascii.eqb c "_"%char) && literal pattern'
  end.

(** [after pattern text], for a plain pattern: when [text] starts with a
    piece that is [pattern] with one character in the place of each [_],
    what is left of [text] after that piece. *)
Fixpoint after (pattern text : string) : option string :=
  match pattern with
  | EmptyString => Some text
  | String c pattern' =>
      match text with
      | EmptyString => None
      | String d text' =>
          if Ascii.eqb c "_"%char then
            after pattern' (skip_continuation text')
          else if Ascii.eqb c d then after pattern' text'
          else None
      end
  end.

(** [text] has [piece] in it. *)
Definition contains_text (piece text : string) : Prop :=
  ∃ pre post, text = pre +:+ piece +:+ post.

(** [text] has in it, from its start or from the start of one of its
    characters, a piece that is [pattern] with one character in the place
    of each [_]. *)
Definition contains_fitting (pattern text : string) : Prop :=
  ∃ pre post rest,
    text = pre +:+ post
    ∧ (pre = "" ∨ at_character post = true)
    ∧ after pattern post = Some rest.

(** What a run of the script may do to a database: [db'] has the
    relations, the documents and the models of [db]; the cron jobs of
    [db], some of them switched from active to inactive; the metadata rows
    of [db] in their order, less some, and some switched from
    [noupdate = false] to [noupdate = true]; and the access rules and the
    views of [db] in their order, less some. *)
Definition migrated (db db' : database) : Prop :=
  tables db' = tables db
  ∧ account_edi_document db' = account_edi_document db
  ∧ ir_model db' = ir_model db
  ∧ Forall2 (fun r r' =>
               r' = r
               ∨ (cron_active r = Some true
                  ∧ r' = mk_cron (cron_id r) (cron_name r) (Some false)))
      (ir_cron db) (ir_cron db')
  ∧ (data_id <$> ir_model_data db') `sublist_of` (data_id <$> ir_model_data db)
  ∧ (∀ r', r' ∈ ir_model_data db' ->
       ∃ r, r ∈ ir_model_data db
            ∧ (r' = r ∨ (data_noupdate r = Some false ∧ r' = set_noupdate r)))
  ∧ ir_model_access db' `sublist_of` ir_model_access db
  ∧ ir_ui_view db' `sublist_of` ir_ui_view db.

(** An exception of the script: the recursion budget is used up, or a
    statement names a relation that [db] does not have. *)
Definition script_error (db : database) (e : exn) : Prop :=
  e = RecursionError ∨ ∃ t, e = UndefinedTable t ∧ t ∉ tables db.

(** A database with one view, its metadata row, and a metadata row of a
    view that is gone. *)
Definition stale : database :=
  mk_database ["ir_model_data"; "ir_ui_view"] [] []
    [ mk_model_data 1 "base" "view_gone" "ir.ui.view" (Some 9%Z) (Some false);
      mk_model_data 2 "sale" "view_leaf" "ir.ui.view" (Some 7%Z) (Some false) ]
    [] [] []
    [ mk_view 7 "leaf" (Some "res.partner") None (Some "<form/>") ].

(** How code of the script ends when run on [db]: with a database as
    [migrated] says, and, when it raises, with a [script_error]. *)
Definition runs_as_script {A} (db : database) (r : result A) (cr' : cursor)
  : Prop :=
  migrated db (cr_db cr')
  ∧ match r with
    | Ok _ => True
    | Raise e => script_error db e
    end.

(** The step of [migrate] a statement belongs to. *)
Definition step_of (st : statement) : nat :=
  match st with
  | update_fatturapa_cron => 1
  | select_exists_account_edi_document
  | update_noupdate_edi_fatturapa
  | update_noupdate_edi_formats => 2
  | select_project_delete_wizard
  | delete_access_project_delete_wizard
  | delete_data_project_delete_wizard => 3
  | select_child_views _
  | delete_view_data _
  | delete_view _
  | select_settings_views _ => 4
  end.

(** Code that executes statements of step [k] only, and at least one of
    them when [some] is set and it returns. *)
Definition executes {A} (k : nat) (some : bool) (m : M A) : Prop :=
  ∀ cr, ∃ more,
    cr_log (m cr).2 = cr_log cr ++ more
    ∧ Forall (fun st => step_of st = k) more
    ∧ (some = true -> (∃ a, (m cr).1 = Ok a) -> more ≠ []).

End PreMigration.

(** * Properties *)

(** ** The two arithmetics *)

Module PyProofs.

Lemma Prim2SF_zero : Prim2SF 0%float = S754_zero false.
Proof. reflexivity. Qed.

#[global] Instance binary64_order : PyFloatOrder float.
Proof.
  split; intros x; cbn;
    rewrite FloatAxioms.ltb_spec, ?FloatAxioms.eqb_spec,
      ?FloatAxioms.leb_spec, Prim2SF_zero;
    destruct (Prim2SF x) as [[]|[]| |[] m e]; cbn; congruence.
Qed.

Lemma Qc_eq_bool_false (x y : Qc) : x ≠ y -> Qc_eq_bool x y = false.
Proof.
  intros Hne. destruct (Qc_eq_bool x y) eqn:E; [|done].
  by apply Qc_eq_bool_correct in E.
Qed.

Lemma Qle_bool_false (x y : Q) : (y < x)%Q -> Qle_bool x y = false.
Proof.
  intros Hlt. destruct (Qle_bool x y) eqn:E; [|done].
  apply Qle_bool_iff in E. by apply Qlt_not_le in Hlt.
Qed.

Lemma exact_ltb (x y : Qc) : fltb x y = true <-> (x < y)%Qc.
Proof.
  cbn. unfold Qclt. split.
  - intros E. apply Qnot_le_lt. intros Hle.
    apply Qle_bool_iff in Hle. rewrite Hle in E. done.
  - intros Hlt. by rewrite Qle_bool_false.
Qed.

#[global] Instance exact_order : PyFloatOrder Qc.
Proof.
  split; intros x Hx; apply exact_ltb in Hx.
  - apply Qc_eq_bool_false. intros ->. by apply Qclt_not_eq in Hx.
  - cbn. by apply Qle_bool_false.
  - apply Qc_eq_bool_false. intros ->. by apply Qclt_not_eq in Hx.
  - cbn. apply Qle_bool_iff. by apply Qlt_le_weak.
Qed.

(** Two floats that [Prim2SF] tells apart are different. *)
Lemma float_neq (x y : float) : Prim2SF x ≠ Prim2SF y -> x ≠ y.
Proof. intros Hne ->. by apply Hne. Qed.

End PyProofs.

(** ** sale_order_line.py *)

Module SaleOrderLineProofs.
Import SaleOrderLine PyProofs.

Section AnyArithmetic.
Context {F : Type} `{PyFloat F}.

Lemma contains_Some (d : gmap string F) (k : string) (x : F) :
  d !! k = Some x -> contains d k = true.
Proof. intros E. unfold contains. apply bool_decide_eq_true. eauto. Qed.

Lemma contains_None (d : gmap string F) (k : string) :
  d !! k = None -> contains d k = false.
Proof.
  intros E. unfold contains. apply bool_decide_eq_false.
  rewrite E. by intros [? ?].
Qed.

Lemma truediv_truthy (x y : F) :
  truthy y = true -> truediv x y = Ok (fquot x y).
Proof.
  unfold truthy, truediv. by destruct (feqb y fzero).
Qed.

Lemma inverse_body_inverted (l : line F) :
  inverse_body l
  = if truthy (product_uom_qty l) && truthy (manual_price_subtotal l)
         && fleb (product_uom_qty l) fzero
    then Raise (UserError quantity_message)
    else Ok (inverted l).
Proof.
  unfold inverse_body, inverted.
  destruct (truthy (product_uom_qty l)) eqn:Eq; [|done].
  destruct (truthy (manual_price_subtotal l)); [|done]. cbn.
  destruct (fleb (product_uom_qty l) fzero); [done|].
  by rewrite truediv_truthy.
Qed.

Lemma onchange_manual_subtotal_inverse_body (l : line F) :
  _onchange_manual_subtotal l = inverse_body l.
Proof. reflexivity. Qed.

(** The values of a line that come with subtotal and quantity: refused
    when the quantity is [<= 0], and else handed on with the price. *)
Lemma create_body_rejected (vals : gmap string F) :
  create_body vals
  = if rejected vals then Raise (UserError quantity_message)
    else Ok (match vals !! "manual_price_subtotal",
                   vals !! "product_uom_qty" with
             | Some s, Some q =>
                 if truthy s && truthy q
                 then <["price_unit" := fquot s q]> vals else vals
             | _, _ => vals
             end).
Proof.
  unfold create_body, rejected, getitem.
  destruct (vals !! "manual_price_subtotal") as [s|]; [|done].
  destruct (vals !! "product_uom_qty") as [q|]; cbn;
    [|by rewrite andb_false_r].
  destruct (truthy s); [|done].
  destruct (truthy q) eqn:Eq; [|done]. cbn.
  destruct (fleb q fzero); [done|]. by rewrite truediv_truthy.
Qed.

Lemma write_vals_both (self : list (line F)) (vals : gmap string F)
    (s q : F) :
  vals !! "manual_price_subtotal" = Some s ->
  vals !! "product_uom_qty" = Some q ->
  write_vals self vals = create_body vals.
Proof.
  intros Hs Hq. unfold write_vals, create_body.
  rewrite (contains_Some _ _ _ Hs), (contains_Some _ _ _ Hq). cbn.
  rewrite Hs, Hq. cbn. by rewrite (andb_comm (truthy q)).
Qed.

Lemma write_vals_cases (self : list (line F)) (vals : gmap string F) :
  write_vals self vals
  = match vals !! "manual_price_subtotal", vals !! "product_uom_qty" with
    | Some _, Some _ => create_body vals
    | Some _, None => write_each_line self vals
    | None, _ => Ok vals
    end.
Proof.
  destruct (vals !! "manual_price_subtotal") as [s|] eqn:Hs.
  - destruct (vals !! "product_uom_qty") as [q|] eqn:Hq.
    + by apply (write_vals_both self vals s q).
    + unfold write_vals.
      by rewrite (contains_Some _ _ _ Hs), (contains_None _ _ Hq).
  - unfold write_vals. by rewrite (contains_None _ _ Hs).
Qed.

(** A subtotal of zero is not divided: the values are handed on as they
    are. *)
Lemma write_each_line_zero_subtotal (self : list (line F))
    (vals : gmap string F) (s : F) :
  truthy s = false ->
  vals !! "manual_price_subtotal" = Some s ->
  write_each_line self vals = Ok vals.
Proof.
  intros Hs Hsub. induction self as [|l self IH]; [done|].
  cbn [write_each_line]. rewrite Hsub. cbn [truthy_get].
  by rewrite Hs, andb_false_r.
Qed.

Lemma create_body_zero_subtotal (vals : gmap string F) (s : F) :
  truthy s = false ->
  vals !! "manual_price_subtotal" = Some s ->
  create_body vals = Ok vals.
Proof.
  intros Hs Hsub. unfold create_body. rewrite Hsub. cbn [truthy_get].
  by rewrite Hs.
Qed.

Lemma write_vals_zero_subtotal (self : list (line F))
    (vals : gmap string F) (s : F) :
  truthy s = false ->
  vals !! "manual_price_subtotal" = Some s ->
  write_vals self vals = Ok vals.
Proof.
  intros Hs Hsub. rewrite write_vals_cases, Hsub.
  destruct (vals !! "product_uom_qty").
  - by apply (create_body_zero_subtotal vals s).
  - by apply (write_each_line_zero_subtotal self vals s).
Qed.

End AnyArithmetic.

Section AnyFloat.
Context {F : Type} `{PyFloatOrder F}.

Lemma truthy_positive (x : F) : fltb fzero x = true -> truthy x = true.
Proof. intros Hx. unfold truthy. by rewrite positive_nonzero. Qed.

Lemma truthy_negative (x : F) : fltb x fzero = true -> truthy x = true.
Proof. intros Hx. unfold truthy. by rewrite negative_nonzero. Qed.

Lemma truediv_positive (x y : F) :
  fltb fzero y = true -> truediv x y = Ok (fquot x y).
Proof. intros Hy. unfold truediv. by rewrite positive_nonzero. Qed.

(** The division is never reached with a zero quantity: among the
    methods that divide, none raises [ZeroDivisionError]. *)
Lemma inverse_body_no_zero_division (l : line F) :
  inverse_body l ≠ Raise ZeroDivisionError.
Proof.
  unfold inverse_body, truthy, truediv.
  destruct (feqb (product_uom_qty l) fzero) eqn:Eq; [done|].
  destruct (feqb (manual_price_subtotal l) fzero); [done|].
  by destruct (fleb (product_uom_qty l) fzero).
Qed.

(** A quantity below zero with a subtotal to divide is rejected by the
    inverse method, the on-change handler and [write], and the records
    stay as they were. *)
Lemma negative_quantity_rejected (q p s : F) :
  fltb q fzero = true -> truthy s = true ->
  _inverse_manual_subtotal [mk_line q p s]
    = ([mk_line q p s], Raise (UserError quantity_message))
  ∧ _onchange_manual_subtotal (mk_line q p s)
    = Raise (UserError quantity_message)
  ∧ (∀ s0, write [mk_line q p s0] {["manual_price_subtotal" := s]}
           = ([mk_line q p s0], Raise (UserError quantity_message)))
  ∧ (∀ self, write self (<["product_uom_qty" := q]>
                           {["manual_price_subtotal" := s]})
             = (self, Raise (UserError quantity_message))).
Proof.
  intros Hq Hs.
  pose proof (truthy_negative q Hq) as Hqt.
  pose proof (negative_le q Hq) as Hle.
  repeat split.
  - cbn. unfold inverse_body; cbn. by rewrite Hqt, Hs, Hle.
  - unfold _onchange_manual_subtotal; cbn. by rewrite Hqt, Hs, Hle.
  - intros s0. unfold write, write_vals.
    rewrite (contains_Some _ _ s) by apply lookup_singleton_eq.
    rewrite contains_None by done.
    cbn. rewrite lookup_singleton_eq. cbn. by rewrite Hqt, Hs, Hle.
  - intros self. unfold write, write_vals.
    rewrite (contains_Some _ "manual_price_subtotal" s) by done.
    rewrite (contains_Some _ "product_uom_qty" q)
      by apply lookup_insert_eq.
    cbn. rewrite lookup_insert_eq.
    rewrite lookup_insert_ne, lookup_singleton_eq by done.
    cbn. rewrite Hqt, Hs. cbn. unfold getitem.
    rewrite lookup_insert_eq. cbn. by rewrite Hle.
Qed.

(** The inverse method on a line with a quantity above zero and a
    subtotal that is not zero. *)
Lemma inverse_body_positive (q p s : F) :
  fltb fzero q = true -> truthy s = true ->
  inverse_body (mk_line q p s) = Ok (mk_line q (fquot s q) s).
Proof.
  intros Hq Hs. unfold inverse_body. cbn.
  rewrite (truthy_positive _ Hq), Hs, (positive_not_le _ Hq). cbn.
  by rewrite (truediv_positive _ _ Hq).
Qed.

Lemma inverse_positive (q p s : F) (self : list (line F)) :
  fltb fzero q = true -> truthy s = true ->
  _inverse_manual_subtotal ((fun _ => mk_line q p s) <$> self)
  = ((fun _ => mk_line q (fquot s q) s) <$> self, Ok ()).
Proof.
  intros Hq Hs. induction self as [|l self IH]; [done|].
  cbn [fmap list_fmap]. cbn [_inverse_manual_subtotal].
  rewrite inverse_body_positive by done.
  change (list_fmap _ _ ?f self) with (f <$> self). by rewrite IH.
Qed.

(** What [write] hands to the framework when only the subtotal is
    written on one line with a quantity above zero. *)
Lemma write_vals_subtotal (l : line F) (vals : gmap string F) (s : F) :
  vals !! "manual_price_subtotal" = Some s ->
  vals !! "product_uom_qty" = None ->
  fltb fzero (product_uom_qty l) = true ->
  truthy s = true ->
  write_vals [l] vals
    = Ok (<["price_unit" := fquot s (product_uom_qty l)]> vals).
Proof.
  intros Hs Hq Hpos Hnz. unfold write_vals.
  rewrite (contains_Some _ _ _ Hs), (contains_None _ _ Hq). cbn.
  rewrite Hs. cbn. rewrite (truthy_positive _ Hpos), Hnz. cbn.
  rewrite (positive_not_le _ Hpos). unfold getitem. rewrite Hs. cbn.
  by rewrite (truediv_positive _ _ Hpos).
Qed.

(** The same when the quantity is written along with the subtotal. *)
Lemma write_vals_subtotal_quantity (self : list (line F))
    (vals : gmap string F) (q s : F) :
  vals !! "manual_price_subtotal" = Some s ->
  vals !! "product_uom_qty" = Some q ->
  fltb fzero q = true ->
  truthy s = true ->
  write_vals self vals = Ok (<["price_unit" := fquot s q]> vals).
Proof.
  intros Hs Hq Hpos Hnz. unfold write_vals.
  rewrite (contains_Some _ _ _ Hs), (contains_Some _ _ _ Hq). cbn.
  rewrite Hs, Hq. cbn. rewrite (truthy_positive _ Hpos), Hnz. cbn.
  unfold getitem. rewrite Hq, Hs. cbn.
  rewrite (positive_not_le _ Hpos).
  by rewrite (truediv_positive _ _ Hpos).
Qed.

(** And for the values of a new line. *)
Lemma create_body_subtotal (vals : gmap string F) (q s : F) :
  vals !! "manual_price_subtotal" = Some s ->
  vals !! "product_uom_qty" = Some q ->
  fltb fzero q = true ->
  truthy s = true ->
  create_body vals = Ok (<["price_unit" := fquot s q]> vals).
Proof.
  intros Hs Hq Hpos Hnz. unfold create_body.
  rewrite Hs, Hq. cbn. rewrite (truthy_positive _ Hpos), Hnz. cbn.
  unfold getitem. rewrite Hq, Hs. cbn.
  rewrite (positive_not_le _ Hpos).
  by rewrite (truediv_positive _ _ Hpos).
Qed.

(** The records after [super().write] of values that have a subtotal
    that is not zero, a unit price, and a quantity above zero: the one
    of each record, or the one written. *)
Lemma super_write_subtotal (l : line F) (vals : gmap string F) (s p : F) :
  vals !! "manual_price_subtotal" = Some s ->
  vals !! "product_uom_qty" = None ->
  vals !! "price_unit" = Some p ->
  fltb fzero (product_uom_qty l) = true ->
  truthy s = true ->
  super_write [l] vals
  = ([mk_line (product_uom_qty l) (fquot s (product_uom_qty l)) s], Ok ()).
Proof.
  intros Hs Hq Hp Hpos Hnz. unfold super_write.
  rewrite (contains_Some _ _ _ Hs).
  cbn [fmap list_fmap]. unfold store. rewrite Hs, Hq, Hp.
  cbn [default _inverse_manual_subtotal].
  by rewrite inverse_body_positive.
Qed.

Lemma super_write_subtotal_quantity (self : list (line F))
    (vals : gmap string F) (q s p : F) :
  vals !! "manual_price_subtotal" = Some s ->
  vals !! "product_uom_qty" = Some q ->
  vals !! "price_unit" = Some p ->
  fltb fzero q = true ->
  truthy s = true ->
  super_write self vals
  = ((fun _ => mk_line q (fquot s q) s) <$> self, Ok ()).
Proof.
  intros Hs Hq Hp Hpos Hnz. unfold super_write.
  rewrite (contains_Some _ _ _ Hs).
  rewrite <-(inverse_positive q p s self) by done. f_equal.
  apply list_fmap_ext. intros _ l _. unfold store.
  by rewrite Hs, Hq, Hp.
Qed.

Lemma create_subtotal_quantity (vals : gmap string F) (q s p : F) :
  vals !! "manual_price_subtotal" = Some s ->
  vals !! "product_uom_qty" = Some q ->
  vals !! "price_unit" = Some p ->
  fltb fzero q = true ->
  truthy s = true ->
  super_create [vals] = Ok [mk_line q (fquot s q) s].
Proof.
  intros Hs Hq Hp Hpos Hnz. cbn [super_create]. unfold super_create_body.
  rewrite (contains_Some _ _ _ Hs). unfold new_line, store.
  rewrite Hs, Hq, Hp. cbn [default].
  by rewrite inverse_body_positive.
Qed.
End AnyFloat.


Section Forward.
Context {F : Type} `{PyFloat F}.

End Forward.


(** C1, at quantity 0 and subtotal 10.0: no method raises.  The test
    [product_uom_qty and manual_price_subtotal] is false for a zero
    quantity, so the check [product_uom_qty <= 0] under it is not
    reached: the inverse method and the on-change handler return with the
    line as it was, and [write] and [create] hand the values on, so the
    subtotal 10.0 is stored next to the quantity 0. *)
Theorem zero_quantity_not_rejected :
  _inverse_manual_subtotal [mk_line 0%float 7%float 10%float]
    = ([mk_line 0%float 7%float 10%float], Ok ())
  ∧ _onchange_manual_subtotal (mk_line 0%float 7%float 10%float)
    = Ok (mk_line 0%float 7%float 10%float)
  ∧ write [mk_line 0%float 7%float 0%float]
      {["manual_price_subtotal" := 10%float]}
    = ([mk_line 0%float 7%float 10%float], Ok ())
  ∧ write [mk_line 3%float 7%float 21%float]
      (<["product_uom_qty" := 0%float]>
         {["manual_price_subtotal" := 10%float]})
    = ([mk_line 0%float 7%float 10%float], Ok ())
  ∧ create [<["product_uom_qty" := 0%float]>
              {["manual_price_subtotal" := 10%float]}]
    = Ok [mk_line 0%float 0%float 10%float].
Proof. repeat split; vm_compute; reflexivity. Qed.

(** C3 as stated fails.  On floats, with quantity 3 and unit price 0.1
    the subtotal is 0.30000000000000004 and the price derived from it is
    0.10000000000000002.  In exact arithmetic, with unit price 0 the
    subtotal is 0, and the inverse method leaves a line with subtotal 0
    as it is: on a line that has quantity 1, the subtotal 1 times 0 and
    a unit price of 5, the price derived is 5 and not 0. *)
Lemma roundtrip_fails :
  ¬ (∀ q p s : float, fltb 0%float q = true ->
       price_unit <$>
         (_inverse_manual_subtotal
            (_compute_manual_subtotal [mk_line q p s])).1
       = [p])
  ∧ ¬ (∀ q p p0 : Qc, (Q2Qc 0 < q)%Qc ->
         price_unit <$>
           (_inverse_manual_subtotal [mk_line q p0 (q * p)%Qc]).1
         = [p]).
Proof.
  split; intros Hc.
  - specialize (Hc 3%float 0.1%float 0%float eq_refl).
    apply (f_equal (fun ps => Prim2SF <$> ps)) in Hc.
    vm_compute in Hc. discriminate.
  - specialize (Hc (Q2Qc 1) (Q2Qc 0) (Q2Qc 5) eq_refl).
    vm_compute in Hc. discriminate.
Qed.

(** C3, amended.  In exact arithmetic, for every quantity above zero and
    every unit price that is not zero, the inverse method on a line with
    that quantity, the subtotal quantity times unit price and any unit
    price gives the line that unit price; for a subtotal of zero it
    leaves the unit price of the line as it is, so after the compute
    method, which leaves the unit price in the line, the line has its
    unit price also when that is zero.  In any arithmetic, for a
    quantity above zero and a product that is not zero, the inverse
    method sets the unit price to the product divided by the quantity;
    on floats, with quantity 3 and unit price 10.0 that is 10.0. *)
Theorem roundtrip_exact :
  (∀ q p p0 : Qc, (Q2Qc 0 < q)%Qc -> p ≠ Q2Qc 0 ->
     _inverse_manual_subtotal [mk_line q p0 (q * p)%Qc]
     = ([mk_line q p (q * p)%Qc], Ok ()))
  ∧ (∀ q p0 : Qc,
       _inverse_manual_subtotal [mk_line q p0 (Q2Qc 0)]
       = ([mk_line q p0 (Q2Qc 0)], Ok ()))
  ∧ (∀ q p s : Qc, (Q2Qc 0 < q)%Qc ->
       _inverse_manual_subtotal (_compute_manual_subtotal [mk_line q p s])
       = ([mk_line q p (q * p)%Qc], Ok ()))
  ∧ (∀ (F : Type) (HF : PyFloat F) (HO : PyFloatOrder F) (q p p0 : F),
       fltb fzero q = true -> truthy (fmul q p) = true ->
       _inverse_manual_subtotal [mk_line q p0 (fmul q p)]
       = ([mk_line q (fquot (fmul q p) q) (fmul q p)], Ok ()))
  ∧ _compute_manual_subtotal [mk_line 3%float 10%float 0%float]
    = [mk_line 3%float 10%float 30%float]
  ∧ _inverse_manual_subtotal [mk_line 3%float 0%float 30%float]
    = ([mk_line 3%float 10%float 30%float], Ok ()).
Proof.
  assert (∀ q p p0 : Qc, (Q2Qc 0 < q)%Qc ->
            _inverse_manual_subtotal [mk_line q p0 (q * p)%Qc]
            = ([mk_line q (if truthy (q * p)%Qc then p else p0)
                  (q * p)%Qc], Ok ())) as Hinv.
  { intros q p p0 Hq.
    assert (q ≠ Q2Qc 0) as Hq0.
    { intros ->. by apply Qclt_not_eq in Hq. }
    apply exact_ltb in Hq.
    cbn [_inverse_manual_subtotal]. unfold inverse_body.
    cbn [product_uom_qty manual_price_subtotal].
    rewrite (truthy_positive _ Hq), (positive_not_le _ Hq).
    rewrite (truediv_positive _ _ Hq). cbn [andb].
    destruct (truthy (q * p)%Qc) eqn:Ep; [|done].
    cbn. unfold set_price_unit. cbn.
    by rewrite Qcmult_comm, Qcdiv_mult_l. }
  split_and!; [| | | |vm_compute; reflexivity..].
  - intros q p p0 Hq Hp. rewrite Hinv by done.
    assert (truthy (q * p)%Qc = true) as ->; [|done].
    unfold truthy. rewrite Qc_eq_bool_false; [done|].
    intros [-> | ->]%Qcmult_integral; [|done].
    by apply Qclt_not_eq in Hq.
  - intros q p0. cbn [_inverse_manual_subtotal]. unfold inverse_body.
    cbn [product_uom_qty manual_price_subtotal].
    assert (truthy (Q2Qc 0) = false) as -> by reflexivity.
    by rewrite andb_false_r.
  - intros q p s Hq.
    change (_compute_manual_subtotal [mk_line q p s])
      with [mk_line q p (q * p)%Qc].
    rewrite Hinv by done. by destruct (truthy (q * p)%Qc).
  - intros F HF HO q p p0 Hq Hp.
    cbn [_inverse_manual_subtotal].
    by rewrite inverse_body_positive.
Qed.

Lemma roundtrip_exact_witness :
  _inverse_manual_subtotal
    [mk_line (Q2Qc (3 # 1)) (Q2Qc 0)
       (Q2Qc (3 # 1) * Q2Qc (1 # 10))%Qc]
  = ([mk_line (Q2Qc (3 # 1)) (Q2Qc (1 # 10))
        (Q2Qc (3 # 1) * Q2Qc (1 # 10))%Qc], Ok ())
  ∧ _inverse_manual_subtotal
      [mk_line 3%float 0%float (3 * 0.1)%float]
    = ([mk_line 3%float ((3 * 0.1) / 3)%float (3 * 0.1)%float], Ok ()).
Proof.
  split.
  - apply (proj1 roundtrip_exact); [reflexivity|].
    intros E. apply (f_equal this) in E. discriminate E.
  - apply (proj1 (proj2 (proj2 (proj2 roundtrip_exact)))
             float binary64 binary64_order); reflexivity.
Defined.

(** C6 as stated fails: a write of subtotal 0.0 on a line with quantity 3
    and unit price 10.0 leaves the unit price at 10.0, since the test
    [vals.get('manual_price_subtotal')] is false for zero; and on floats
    the quotient need not multiply back: with quantity 49 and subtotal
    1.0 the unit price times the quantity is 0.9999999999999999. *)
Lemma zero_subtotal_keeps_price :
  ¬ (∀ (l l' : line float) (s : float),
       fltb 0%float (product_uom_qty l) = true ->
       (write [l] {["manual_price_subtotal" := s]}).1 = [l'] ->
       price_unit l' = fquot s (product_uom_qty l))
  ∧ ¬ (∀ (l l' : line float) (s : float),
         fltb 0%float (product_uom_qty l) = true ->
         truthy s = true ->
         (write [l] {["manual_price_subtotal" := s]}).1 = [l'] ->
         manual_price_subtotal l'
         = fmul (product_uom_qty l') (price_unit l')).
Proof.
  split; intros Hc.
  - specialize (Hc (mk_line 3%float 10%float 30%float)
                  (mk_line 3%float 10%float 0%float) 0%float
                  eq_refl eq_refl).
    apply (f_equal Prim2SF) in Hc. vm_compute in Hc. discriminate.
  - specialize (Hc (mk_line 49%float 1%float 49%float)
                  (mk_line 49%float (1 / 49)%float 1%float) 1%float
                  eq_refl eq_refl eq_refl).
    apply (f_equal Prim2SF) in Hc. vm_compute in Hc. discriminate.
Qed.

(** C6, amended.  With a subtotal that is not zero and a quantity above
    zero, the unit price becomes subtotal divided by quantity, in the
    arithmetic of the values: in the on-change handler of the subtotal
    and in the inverse method, on the line; in [write] of a subtotal
    without a quantity, in the values handed to the framework and on the
    one line written, with the quantity of that line; in [write] of
    subtotal and quantity, in the values handed on and on every line of
    the recordset; in [create] with subtotal and quantity, in the values
    handed on and on the new line.  With a subtotal of zero, [write]
    and [create] hand the values on as they got them and the handler
    leaves the line as it is.  In exact arithmetic the subtotal is
    quantity times unit price after such a write of a subtotal that is
    not zero.  With quantity 3 and unit price 10.0 the subtotal is 30.0,
    and writing the subtotal 45.0 makes the unit price 15.0. *)
Theorem subtotal_sets_price_unit :
  (∀ (F : Type) (HF : PyFloat F) (HO : PyFloatOrder F)
     (q s : F) (vals : gmap string F),
     fltb fzero q = true ->
     truthy s = true ->
     vals !! "manual_price_subtotal" = Some s ->
     (∀ p0, _onchange_manual_subtotal (mk_line q p0 s)
            = Ok (mk_line q (fquot s q) s)
            ∧ _inverse_manual_subtotal [mk_line q p0 s]
              = ([mk_line q (fquot s q) s], Ok ()))
     ∧ (vals !! "product_uom_qty" = None ->
        ∀ p0 s0,
          write_vals [mk_line q p0 s0] vals
          = Ok (<["price_unit" := fquot s q]> vals)
          ∧ write [mk_line q p0 s0] vals
            = ([mk_line q (fquot s q) s], Ok ()))
     ∧ (vals !! "product_uom_qty" = Some q ->
        (∀ self,
           write_vals self vals = Ok (<["price_unit" := fquot s q]> vals)
           ∧ write self vals
             = ((fun _ => mk_line q (fquot s q) s) <$> self, Ok ()))
        ∧ create_vals [vals] = Ok [<["price_unit" := fquot s q]> vals]
        ∧ create [vals] = Ok [mk_line q (fquot s q) s]))
  ∧ (∀ (F : Type) (HF : PyFloat F) (s : F) (vals : gmap string F),
       truthy s = false ->
       vals !! "manual_price_subtotal" = Some s ->
       (∀ self, write_vals self vals = Ok vals)
       ∧ create_vals [vals] = Ok [vals]
       ∧ (∀ q p0, _onchange_manual_subtotal (mk_line q p0 s)
                  = Ok (mk_line q p0 s)))
  ∧ (∀ q s p0 s0 : Qc, (Q2Qc 0 < q)%Qc -> s ≠ Q2Qc 0 ->
       ∃ l, (write [mk_line q p0 s0] {["manual_price_subtotal" := s]}).1
            = [l]
            ∧ manual_price_subtotal l
              = (product_uom_qty l * price_unit l)%Qc)
  ∧ _compute_manual_subtotal [mk_line 3%float 10%float 0%float]
    = [mk_line 3%float 10%float 30%float]
  ∧ write [mk_line 3%float 10%float 30%float]
      {["manual_price_subtotal" := 45%float]}
    = ([mk_line 3%float 15%float 45%float], Ok ()).
Proof.
  split_and!; [| | |vm_compute; reflexivity..].
  - intros F HF HO q s vals Hq Hs Hsub. split_and!.
    + intros p0. split.
      * rewrite onchange_manual_subtotal_inverse_body.
        by apply inverse_body_positive.
      * cbn [_inverse_manual_subtotal].
        by rewrite inverse_body_positive.
    + intros Hqty p0 s0.
      pose proof (write_vals_subtotal (mk_line q p0 s0) vals s
                    Hsub Hqty Hq Hs) as Hw.
      split; [exact Hw|]. unfold write. rewrite Hw.
      apply (super_write_subtotal (mk_line q p0 s0) _ s (fquot s q));
        [by rewrite lookup_insert_ne | by rewrite lookup_insert_ne
        |apply lookup_insert_eq | done | done].
    + intros Hqty. split_and!.
      * intros self.
        pose proof (write_vals_subtotal_quantity self vals q s
                      Hsub Hqty Hq Hs) as Hw.
        split; [exact Hw|]. unfold write. rewrite Hw.
        apply (super_write_subtotal_quantity self _ q s (fquot s q));
          [by rewrite lookup_insert_ne | by rewrite lookup_insert_ne
          |apply lookup_insert_eq | done | done].
      * cbn [create_vals].
        by rewrite (create_body_subtotal vals q s).
      * unfold create. cbn [create_vals].
        rewrite (create_body_subtotal vals q s) by done.
        cbn [mbind result_bind].
        apply (create_subtotal_quantity _ q s (fquot s q));
          [by rewrite lookup_insert_ne | by rewrite lookup_insert_ne
          |apply lookup_insert_eq | done | done].
  - intros F HF s vals Hs Hsub. split_and!.
    + intros self. by apply (write_vals_zero_subtotal self vals s).
    + cbn [create_vals].
      by rewrite (create_body_zero_subtotal vals s).
    + intros q p0. unfold _onchange_manual_subtotal. cbn.
      by rewrite Hs, andb_false_r.
  - intros q s p0 s0 Hq Hs.
    assert (q ≠ Q2Qc 0) as Hq0.
    { intros ->. by apply Qclt_not_eq in Hq. }
    apply exact_ltb in Hq.
    assert (truthy s = true) as Hnz.
    { unfold truthy. by rewrite Qc_eq_bool_false. }
    eexists. split.
    + unfold write.
      rewrite (write_vals_subtotal (mk_line q p0 s0) _ s);
        [|apply lookup_singleton_eq | done | done | done].
      rewrite (super_write_subtotal (mk_line q p0 s0) _ s (fquot s q));
        [reflexivity | | | apply lookup_insert_eq | done | done].
      * rewrite lookup_insert_ne by done. apply lookup_singleton_eq.
      * rewrite lookup_insert_ne by done. by apply lookup_singleton_ne.
    + cbn. by rewrite Qcmult_div_r.
Qed.

Lemma subtotal_sets_price_unit_witness :
  write [mk_line 3%float 10%float 30%float]
    {["manual_price_subtotal" := 45%float]}
  = ([mk_line 3%float (45 / 3)%float 45%float], Ok ())
  ∧ create [<["product_uom_qty" := 3%float]>
              {["manual_price_subtotal" := 45%float]}]
    = Ok [mk_line 3%float (45 / 3)%float 45%float]
  ∧ write_vals [mk_line 3%float 10%float 30%float]
      {["manual_price_subtotal" := 0%float]}
    = Ok {["manual_price_subtotal" := 0%float]}.
Proof.
  split_and!.
  - refine (proj2 (proj1 (proj2 (proj1 subtotal_sets_price_unit
                     float binary64 binary64_order 3%float 45%float
                     {["manual_price_subtotal" := 45%float]} _ _ _))
                     _ 10%float 30%float));
      vm_compute; reflexivity.
  - refine (proj2 (proj2 (proj2 (proj2 (proj1 subtotal_sets_price_unit
                     float binary64 binary64_order 3%float 45%float
                     (<["product_uom_qty" := 3%float]>
                        {["manual_price_subtotal" := 45%float]})
                     _ _ _)) _))); vm_compute; reflexivity.
  - refine (proj1 (proj1 (proj2 subtotal_sets_price_unit)
                     float binary64 0%float
                     {["manual_price_subtotal" := 0%float]} _ _) _);
      vm_compute; reflexivity.
Defined.

(** *** Further properties: exceptions, frames and batches *)

Section Batches.
Context {F : Type} `{PyFloat F}.

Lemma inverse_only_user_error (self : list (line F)) :
  only_user_error (_inverse_manual_subtotal self).2.
Proof.
  induction self as [|l self IH]; [done|].
  cbn [_inverse_manual_subtotal]. rewrite inverse_body_inverted.
  destruct (_ && _ && _); [done|].
  by destruct (_inverse_manual_subtotal self).
Qed.

Lemma write_each_line_only_user_error (self : list (line F))
    (vals : gmap string F) :
  only_user_error (write_each_line self vals).
Proof.
  revert vals. induction self as [|l self IH]; intros vals; [done|].
  cbn [write_each_line]. unfold getitem.
  destruct (truthy (product_uom_qty l)) eqn:Eq; [|apply IH].
  destruct (vals !! "manual_price_subtotal") as [s|]; [|apply IH].
  cbn. destruct (truthy s); [|apply IH]. cbn.
  destruct (fleb (product_uom_qty l) fzero); [done|].
  rewrite truediv_truthy by done. apply IH.
Qed.

Lemma create_body_only_user_error (vals : gmap string F) :
  only_user_error (create_body vals).
Proof. rewrite create_body_rejected. by destruct (rejected vals). Qed.

Lemma write_vals_only_user_error (self : list (line F))
    (vals : gmap string F) :
  only_user_error (write_vals self vals).
Proof.
  rewrite write_vals_cases.
  destruct (vals !! "manual_price_subtotal"); [|done].
  destruct (vals !! "product_uom_qty").
  - apply create_body_only_user_error.
  - apply write_each_line_only_user_error.
Qed.

Lemma create_vals_only_user_error (vals_list : list (gmap string F)) :
  only_user_error (create_vals vals_list).
Proof.
  induction vals_list as [|vals rest IH]; [done|].
  cbn [create_vals]. pose proof (create_body_only_user_error vals) as Hb.
  destruct (create_body vals); [|done]. cbn.
  by destruct (create_vals rest).
Qed.

(** X1: on records and values that hold floats, no method of the module
    ends in a division by zero or a missing key, whatever the
    arithmetic: each division and each [vals[...]] is behind a test that
    the divisor is not zero and that the key is there.  The inverse
    method, the on-change handler of the subtotal, and [write] and
    [create] up to their call of the framework return or raise the
    validation error. *)
Theorem validation_is_the_only_error :
  (∀ self : list (line F),
     only_user_error (_inverse_manual_subtotal self).2)
  ∧ (∀ l : line F, only_user_error (_onchange_manual_subtotal l))
  ∧ (∀ (self : list (line F)) (vals : gmap string F),
       only_user_error (write_vals self vals))
  ∧ (∀ vals_list : list (gmap string F),
       only_user_error (create_vals vals_list)).
Proof.
  split_and!.
  - apply inverse_only_user_error.
  - intros l. rewrite onchange_manual_subtotal_inverse_body.
    rewrite inverse_body_inverted. by destruct (_ && _ && _).
  - apply write_vals_only_user_error.
  - apply create_vals_only_user_error.
Qed.

(** X2: the inverse method writes the unit price and nothing else.
    However it ends, the recordset has the lines it had, each with its
    quantity and its subtotal, and a unit price that is the old one or
    subtotal divided by quantity, the latter only where both are not
    zero. *)
Theorem inverse_writes_price_unit_only (self : list (line F)) :
  Forall2 (fun before after =>
             product_uom_qty after = product_uom_qty before
             ∧ manual_price_subtotal after = manual_price_subtotal before
             ∧ (price_unit after = price_unit before
                ∨ (truthy (product_uom_qty before) = true
                   ∧ truthy (manual_price_subtotal before) = true
                   ∧ price_unit after
                     = fquot (manual_price_subtotal before)
                         (product_uom_qty before))))
    self (_inverse_manual_subtotal self).1.
Proof.
  induction self as [|l self IH]; [constructor|].
  cbn [_inverse_manual_subtotal]. rewrite inverse_body_inverted.
  destruct (_ && _ && _).
  - cbn. apply Forall2_same_length_lookup_2; [done|].
    intros i x y Hx Hy. assert (x = y) as -> by congruence.
    split_and!; [done..|by left].
  - destruct (_inverse_manual_subtotal self) as [rest r]. cbn.
    constructor; [|exact IH]. unfold inverted.
    destruct (truthy (product_uom_qty l)) eqn:Eq;
      [|split_and!; [done..|by left]].
    destruct (truthy (manual_price_subtotal l)) eqn:Es; cbn;
      split_and!; try done; [by right | by left].
Qed.

Lemma inverse_not_refused (self : list (line F)) :
  Forall (fun l => refused l = false) self ->
  _inverse_manual_subtotal self = (inverted <$> self, Ok ()).
Proof.
  induction 1 as [|l self Hl _ IH]; [done|].
  cbn [_inverse_manual_subtotal]. rewrite inverse_body_inverted.
  unfold refused in Hl. by rewrite Hl, IH.
Qed.

(** X3: the inverse method on a recordset with a line it refuses, that
    is, one whose quantity and subtotal are not zero and whose quantity
    is [<= 0].  The lines before the first such line have their new unit
    price when the error is raised, those with a quantity or a subtotal
    of zero their old one; the refused line and the ones after it are as
    they were.  With no such line the method returns and all lines have
    been gone over. *)
Theorem inverse_stops_at_first_rejected (pre post : list (line F))
    (bad : line F) :
  Forall (fun l => refused l = false) pre ->
  (Forall (fun l => refused l = false) post ->
   _inverse_manual_subtotal (pre ++ post)
   = (inverted <$> (pre ++ post), Ok ()))
  ∧ (refused bad = true ->
     _inverse_manual_subtotal (pre ++ bad :: post)
     = ((inverted <$> pre) ++ bad :: post,
        Raise (UserError quantity_message))).
Proof.
  intros Hpre. split.
  - intros Hpost. apply inverse_not_refused. by apply Forall_app.
  - intros Hbad.
    induction Hpre as [|l pre Hl _ IH].
    + cbn [app fmap list_fmap _inverse_manual_subtotal].
      rewrite inverse_body_inverted. unfold refused in Hbad.
      by rewrite Hbad.
    + cbn [app _inverse_manual_subtotal].
      rewrite inverse_body_inverted. unfold refused in Hl.
      by rewrite Hl, IH.
Qed.

Lemma write_each_line_frame (self : list (line F))
    (vals : gmap string F) :
  match write_each_line self vals with
  | Ok vals' => same_but_price_unit vals vals'
  | Raise _ => True
  end.
Proof.
  revert vals. induction self as [|l self IH]; intros vals; [done|].
  cbn [write_each_line]. unfold getitem.
  destruct (truthy (product_uom_qty l)) eqn:Eq; [|apply IH].
  destruct (vals !! "manual_price_subtotal") as [s|]; [|apply IH].
  cbn. destruct (truthy s); [|apply IH]. cbn.
  destruct (fleb (product_uom_qty l) fzero); [done|].
  rewrite truediv_truthy by done. cbn.
  specialize (IH (<["price_unit" := fquot s (product_uom_qty l)]> vals)).
  destruct (write_each_line self _); [|done].
  intros k Hk. rewrite (IH k Hk). by rewrite lookup_insert_ne.
Qed.

Lemma create_body_frame (vals : gmap string F) :
  match create_body vals with
  | Ok vals' => same_but_price_unit vals vals'
  | Raise _ => True
  end.
Proof.
  rewrite create_body_rejected. destruct (rejected vals); [done|].
  destruct (vals !! "manual_price_subtotal") as [s|]; [|done].
  destruct (vals !! "product_uom_qty") as [q|]; [|done].
  destruct (truthy s && truthy q); [|done].
  intros k Hk. by rewrite lookup_insert_ne.
Qed.

Lemma write_vals_frame (self : list (line F)) (vals : gmap string F) :
  match write_vals self vals with
  | Ok vals' => same_but_price_unit vals vals'
  | Raise _ => True
  end.
Proof.
  rewrite write_vals_cases.
  destruct (vals !! "manual_price_subtotal"); [|done].
  destruct (vals !! "product_uom_qty").
  - apply create_body_frame.
  - apply write_each_line_frame.
Qed.

(** A loop of [write] that returns has met no line that the inverse
    method refuses once the subtotal is assigned. *)
Lemma write_each_line_not_refused (self : list (line F))
    (vals vals' : gmap string F) (s : F) :
  vals !! "manual_price_subtotal" = Some s ->
  write_each_line self vals = Ok vals' ->
  Forall (fun l => truthy (product_uom_qty l) && truthy s
                   && fleb (product_uom_qty l) fzero = false) self.
Proof.
  revert vals. induction self as [|l self IH]; intros vals Hs Hw;
    [constructor|].
  cbn [write_each_line] in Hw. unfold getitem in Hw.
  rewrite Hs in Hw. cbn [truthy_get mbind result_bind] in Hw.
  destruct (truthy (product_uom_qty l)) eqn:Eq;
    [|constructor; [by rewrite Eq | by apply (IH vals)]].
  destruct (truthy s) eqn:Es;
    [|constructor; [by rewrite Eq | by apply (IH vals)]].
  cbn [andb] in Hw.
  destruct (fleb (product_uom_qty l) fzero) eqn:Ele; [done|].
  rewrite truediv_truthy in Hw by done. cbn [mbind result_bind] in Hw.
  constructor; [by rewrite Eq, Ele|].
  apply (IH (<["price_unit" := fquot s (product_uom_qty l)]> vals));
    [by rewrite lookup_insert_ne | done].
Qed.

Lemma inverted_quantity (l : line F) :
  product_uom_qty (inverted l) = product_uom_qty l.
Proof. unfold inverted. by destruct (_ && _). Qed.

Lemma inverted_subtotal (l : line F) :
  manual_price_subtotal (inverted l) = manual_price_subtotal l.
Proof. unfold inverted. by destruct (_ && _). Qed.

(** [write] of values with a subtotal, when the checks of the override
    have passed: the inverse method that the framework calls passes too,
    since it tests the values the override has tested. *)
Lemma write_subtotal_returns (self : list (line F))
    (vals vals' : gmap string F) (s : F) :
  vals !! "manual_price_subtotal" = Some s ->
  write_vals self vals = Ok vals' ->
  write self vals = (inverted <$> (store vals' <$> self), Ok ()).
Proof.
  intros Hs Hw. pose proof (write_vals_frame self vals) as Hf.
  unfold write. rewrite Hw in Hf |- *. unfold super_write.
  assert (vals' !! "manual_price_subtotal" = Some s) as Hs'
    by by rewrite Hf.
  rewrite (contains_Some _ _ _ Hs').
  apply inverse_not_refused, Forall_fmap, Forall_forall.
  intros l Hl. unfold refused, store. cbn.
  rewrite Hs', (Hf "product_uom_qty") by done.
  rewrite write_vals_cases, Hs in Hw.
  destruct (vals !! "product_uom_qty") as [q|] eqn:Hq;
    unfold default; cbn [from_option id].
  - rewrite create_body_rejected in Hw. unfold rejected in Hw.
    rewrite Hs, Hq in Hw. rewrite (andb_comm (truthy q)).
    revert Hw. by destruct (truthy s && truthy q && fleb q fzero).
  - pose proof (write_each_line_not_refused self vals vals' s Hs Hw)
      as Hall.
    by apply (proj1 (Forall_forall _ _) Hall).
Qed.

(** X4: [write] adds at most the key [price_unit] to the values it hands
    to the framework.  A write that raises leaves the records as they
    were.  One that returns leaves every record with the quantity that
    was given, or its own where none was given, and with the subtotal
    that was given; where no subtotal was given, with quantity times
    unit price when a quantity or a unit price was given, which the
    compute method of the field sets, and with its own subtotal
    otherwise. *)
Theorem write_adds_price_unit_only (self : list (line F))
    (vals : gmap string F) :
  match write_vals self vals with
  | Ok vals' =>
      same_but_price_unit vals vals'
      ∧ (write self vals).2 = Ok ()
      ∧ Forall2 (fun before after =>
                   product_uom_qty after
                   = default (product_uom_qty before)
                       (vals !! "product_uom_qty")
                   ∧ manual_price_subtotal after
                     = match vals !! "manual_price_subtotal" with
                       | Some s => s
                       | None =>
                           if contains vals "product_uom_qty"
                              || contains vals "price_unit"
                           then fmul (product_uom_qty after)
                                  (price_unit after)
                           else manual_price_subtotal before
                       end)
          self (write self vals).1
  | Raise e => write self vals = (self, Raise e)
  end.
Proof.
  pose proof (write_vals_frame self vals) as Hf.
  destruct (write_vals self vals) as [vals'|e] eqn:Hw;
    [|unfold write; by rewrite Hw].
  split; [done|].
  destruct (vals !! "manual_price_subtotal") as [s|] eqn:Hs.
  - rewrite (write_subtotal_returns self vals vals' s) by done.
    split; [done|]. cbn [fst].
    apply Forall2_fmap_r, Forall2_fmap_r, Forall_Forall2_diag, Forall_forall.
    intros l _. cbn [compose].
    rewrite inverted_quantity, inverted_subtotal.
    unfold store. cbn. by rewrite !Hf, Hs.
  - rewrite write_vals_cases, Hs in Hw. injection Hw as <-.
    unfold write. rewrite write_vals_cases, Hs. unfold super_write.
    rewrite (contains_None _ _ Hs).
    destruct (contains vals "product_uom_qty" || contains vals "price_unit").
    + split; [done|]. cbn [fst]. unfold _compute_manual_subtotal.
      apply Forall2_fmap_r, Forall2_fmap_r, Forall_Forall2_diag,
        Forall_forall.
      intros l _. unfold store. by cbn.
    + split; [done|]. cbn [fst].
      apply Forall2_fmap_r, Forall_Forall2_diag, Forall_forall.
      intros l _. unfold store. cbn. by rewrite Hs.
Qed.

Lemma create_vals_rejected (vals_list : list (gmap string F)) :
  existsb rejected vals_list = true ->
  create_vals vals_list = Raise (UserError quantity_message).
Proof.
  induction vals_list as [|vals rest IH]; [done|].
  cbn [existsb create_vals]. rewrite create_body_rejected.
  destruct (rejected vals); [done|]. cbn. intros Hr.
  by rewrite (IH Hr).
Qed.

Lemma create_rejected (vals_list : list (gmap string F)) :
  existsb rejected vals_list = true ->
  create vals_list = Raise (UserError quantity_message).
Proof.
  intros Hr. unfold create. by rewrite create_vals_rejected.
Qed.

(** X5: [create] on a batch.  One entry whose subtotal and quantity are
    given and not zero, with the quantity [<= 0], makes the call raise
    the validation error before the framework is called, so no line of
    the batch is created.  Without such an entry the framework is handed
    one entry for each entry of the batch, in their order, each with the
    values it was given, and with subtotal divided by quantity as unit
    price where both are given and not zero. *)
Theorem create_all_or_nothing (vals_list : list (gmap string F)) :
  (existsb rejected vals_list = true ->
   create_vals vals_list = Raise (UserError quantity_message)
   ∧ create vals_list = Raise (UserError quantity_message))
  ∧ (existsb rejected vals_list = false ->
     ∃ vals_list', create_vals vals_list = Ok vals_list'
       ∧ Forall2 (fun vals vals' =>
            same_but_price_unit vals vals'
            ∧ vals' !! "price_unit"
              = match vals !! "manual_price_subtotal",
                      vals !! "product_uom_qty" with
                | Some s, Some q =>
                    if truthy s && truthy q then Some (fquot s q)
                    else vals !! "price_unit"
                | _, _ => vals !! "price_unit"
                end)
          vals_list vals_list').
Proof.
  split.
  { intros Hr. split; [by apply create_vals_rejected
                      | by apply create_rejected]. }
  induction vals_list as [|vals rest IH].
  { intros _. exists []. split; [done | constructor]. }
  cbn [existsb create_vals].
  pose proof (create_body_frame vals) as Hf.
  rewrite create_body_rejected in Hf |- *.
  destruct (rejected vals); [done|]. cbn. intros Hr.
  destruct (IH Hr) as (rest' & -> & Hall).
  eexists. split; [reflexivity|]. constructor; [|exact Hall].
  split; [exact Hf|].
  destruct (vals !! "manual_price_subtotal") as [s|]; [|done].
  destruct (vals !! "product_uom_qty") as [q|]; [|done].
  destruct (truthy s && truthy q); [|done].
  apply lookup_insert_eq.
Qed.

End Batches.

Section Ordered.
Context {F : Type} `{PyFloatOrder F}.

Lemma write_each_line_last (s : F) (self : list (line F))
    (vals : gmap string F) :
  truthy s = true ->
  vals !! "manual_price_subtotal" = Some s ->
  Forall (fun l => fltb fzero (product_uom_qty l) = true) self ->
  write_each_line self vals
  = Ok (match last self with
        | Some l => <["price_unit" := fquot s (product_uom_qty l)]> vals
        | None => vals
        end).
Proof.
  intros Hnz Hs Hall. revert vals Hs.
  induction Hall as [|l self Hl _ IH]; intros vals Hs; [done|].
  cbn [write_each_line]. unfold getitem.
  rewrite Hs. cbn. rewrite (truthy_positive _ Hl), Hnz. cbn.
  rewrite (positive_not_le _ Hl), (truediv_positive _ _ Hl). cbn.
  rewrite IH by by rewrite lookup_insert_ne.
  rewrite last_cons.
  destruct (last self); [|done]. by rewrite insert_insert_eq.
Qed.

(** X7: [write] of a subtotal alone on several lines with quantities
    above zero.  The loop overwrites [vals['price_unit']] at every line,
    so the values handed to the framework have the subtotal divided by
    the quantity of the last line of the recordset as unit price.  The
    inverse method of the field, which the framework calls since the
    subtotal is written, then gives every line the subtotal divided by
    its own quantity. *)
Theorem write_subtotal_takes_last_quantity (self : list (line F))
    (l : line F) (vals : gmap string F) (s : F) :
  vals !! "manual_price_subtotal" = Some s ->
  vals !! "product_uom_qty" = None ->
  truthy s = true ->
  Forall (fun l => fltb fzero (product_uom_qty l) = true) (self ++ [l]) ->
  write_vals (self ++ [l]) vals
  = Ok (<["price_unit" := fquot s (product_uom_qty l)]> vals)
  ∧ write (self ++ [l]) vals
    = ((fun l0 => mk_line (product_uom_qty l0)
                    (fquot s (product_uom_qty l0)) s) <$> (self ++ [l]),
       Ok ()).
Proof.
  intros Hs Hq Hnz Hall.
  assert (write_vals (self ++ [l]) vals
          = Ok (<["price_unit" := fquot s (product_uom_qty l)]> vals))
    as Hw.
  { rewrite write_vals_cases, Hs, Hq.
    rewrite (write_each_line_last s) by done. by rewrite last_snoc. }
  split; [exact Hw|].
  rewrite (write_subtotal_returns _ _ _ s Hs Hw).
  f_equal. rewrite <-list_fmap_compose. apply list_fmap_ext.
  intros i l0 Hl0. cbn.
  pose proof (Forall_lookup_1 _ _ _ _ Hall Hl0) as Hpos. cbn in Hpos.
  unfold inverted, store. cbn.
  rewrite !lookup_insert_ne, Hs, Hq by done. cbn.
  by rewrite (truthy_positive _ Hpos), Hnz.
Qed.

Lemma write_each_line_negative (self : list (line F))
    (vals : gmap string F) (l : line F) (s : F) :
  vals !! "manual_price_subtotal" = Some s ->
  truthy s = true ->
  l ∈ self ->
  fltb (product_uom_qty l) fzero = true ->
  write_each_line self vals = Raise (UserError quantity_message).
Proof.
  intros Hs Hnz Hin Hneg. revert vals Hs.
  induction self as [|l0 self IH]; intros vals Hs;
    [by apply elem_of_nil in Hin|].
  cbn [write_each_line]. unfold getitem. rewrite Hs. cbn. rewrite Hnz.
  destruct (truthy (product_uom_qty l0)) eqn:Eq; cbn.
  - destruct (fleb (product_uom_qty l0) fzero) eqn:Ele; [done|].
    rewrite truediv_truthy by done. cbn.
    apply elem_of_cons in Hin as [-> | Hin].
    + by rewrite negative_le in Ele.
    + apply IH; [done|]. by rewrite lookup_insert_ne.
  - apply elem_of_cons in Hin as [-> | Hin].
    + by rewrite truthy_negative in Eq.
    + by apply IH.
Qed.

(** X8: a quantity below zero is always refused.  When a subtotal that
    is not zero meets a quantity below zero, on any line of the recordset
    or any entry of the batch, the inverse method, the on-change handler
    of the subtotal, [write] and [create] raise the validation error;
    [write] leaves every record as it was and [create] makes no line. *)
Theorem negative_quantity_always_rejected :
  (∀ (self : list (line F)) (l : line F),
     l ∈ self ->
     fltb (product_uom_qty l) fzero = true ->
     truthy (manual_price_subtotal l) = true ->
     (_inverse_manual_subtotal self).2 = Raise (UserError quantity_message))
  ∧ (∀ l : line F,
       fltb (product_uom_qty l) fzero = true ->
       truthy (manual_price_subtotal l) = true ->
       _onchange_manual_subtotal l = Raise (UserError quantity_message))
  ∧ (∀ (self : list (line F)) (vals : gmap string F) (l : line F) (s : F),
       vals !! "manual_price_subtotal" = Some s ->
       vals !! "product_uom_qty" = None ->
       truthy s = true ->
       l ∈ self ->
       fltb (product_uom_qty l) fzero = true ->
       write self vals = (self, Raise (UserError quantity_message)))
  ∧ (∀ (self : list (line F)) (vals : gmap string F) (s q : F),
       vals !! "manual_price_subtotal" = Some s ->
       vals !! "product_uom_qty" = Some q ->
       truthy s = true ->
       fltb q fzero = true ->
       write self vals = (self, Raise (UserError quantity_message)))
  ∧ (∀ (vals_list : list (gmap string F)) (vals : gmap string F) (s q : F),
       vals ∈ vals_list ->
       vals !! "manual_price_subtotal" = Some s ->
       vals !! "product_uom_qty" = Some q ->
       truthy s = true ->
       fltb q fzero = true ->
       create vals_list = Raise (UserError quantity_message)).
Proof.
  assert (∀ (vals : gmap string F) (s q : F),
            vals !! "manual_price_subtotal" = Some s ->
            vals !! "product_uom_qty" = Some q ->
            truthy s = true -> fltb q fzero = true ->
            rejected vals = true) as Hrej.
  { intros vals s q Hs Hq Hnz Hneg. unfold rejected.
    by rewrite Hs, Hq, Hnz, (truthy_negative _ Hneg), (negative_le _ Hneg). }
  split_and!.
  - intros self l Hin Hneg Hnz.
    induction self as [|l0 self IH]; [by apply elem_of_nil in Hin|].
    cbn [_inverse_manual_subtotal]. rewrite inverse_body_inverted.
    destruct (_ && _ && _) eqn:E; [done|].
    apply elem_of_cons in Hin as [-> | Hin].
    + by rewrite (truthy_negative _ Hneg), Hnz, (negative_le _ Hneg) in E.
    + specialize (IH Hin). by destruct (_inverse_manual_subtotal self).
  - intros l Hneg Hnz.
    rewrite onchange_manual_subtotal_inverse_body, inverse_body_inverted.
    by rewrite (truthy_negative _ Hneg), Hnz, (negative_le _ Hneg).
  - intros self vals l s Hs Hq Hnz Hin Hneg. unfold write.
    rewrite write_vals_cases, Hs, Hq.
    by rewrite (write_each_line_negative self vals l s).
  - intros self vals s q Hs Hq Hnz Hneg. unfold write.
    rewrite write_vals_cases, Hs, Hq, create_body_rejected.
    by rewrite (Hrej vals s q).
  - intros vals_list vals s q Hin Hs Hq Hnz Hneg.
    apply create_rejected, existsb_exists. exists vals.
    split; [by apply list_elem_of_In | by apply (Hrej vals s q)].
Qed.

End Ordered.

Lemma inverse_stops_at_first_rejected_witness :
  _inverse_manual_subtotal
    ([mk_line 2%float 0%float 10%float; mk_line 0%float 7%float 10%float]
       ++ [mk_line 4%float 0%float 8%float])
  = ([mk_line 2%float 5%float 10%float; mk_line 0%float 7%float 10%float;
      mk_line 4%float 2%float 8%float],
     Ok ())
  ∧ _inverse_manual_subtotal
      ([mk_line 2%float 0%float 10%float;
        mk_line 0%float 7%float 10%float]
         ++ mk_line (-1)%float 5%float 10%float
         :: [mk_line 4%float 0%float 8%float])
    = ([mk_line 2%float 5%float 10%float;
        mk_line 0%float 7%float 10%float;
        mk_line (-1)%float 5%float 10%float;
        mk_line 4%float 0%float 8%float],
       Raise (UserError quantity_message)).
Proof.
  split.
  - refine (proj1 (inverse_stops_at_first_rejected
                     [mk_line 2%float 0%float 10%float;
                      mk_line 0%float 7%float 10%float]
                     [mk_line 4%float 0%float 8%float]
                     (mk_line 0%float 0%float 0%float) _) _);
      repeat constructor.
  - refine (proj2 (inverse_stops_at_first_rejected
                     [mk_line 2%float 0%float 10%float;
                      mk_line 0%float 7%float 10%float]
                     [mk_line 4%float 0%float 8%float]
                     (mk_line (-1)%float 5%float 10%float) _) _);
      repeat constructor.
Defined.

Lemma create_all_or_nothing_witness :
  create [<["product_uom_qty" := 3%float]>
            {["manual_price_subtotal" := 45%float]};
          <["product_uom_qty" := (-1)%float]>
            {["manual_price_subtotal" := 45%float]}]
  = @Raise (list (line float)) (UserError quantity_message)
  ∧ ∃ vals_list',
      create_vals [<["product_uom_qty" := 3%float]>
                     {["manual_price_subtotal" := 45%float]};
                   {["price_unit" := 7%float]}]
      = Ok vals_list'
      ∧ length vals_list' = 2.
Proof.
  split.
  - refine (proj2 (proj1 (create_all_or_nothing _) _)).
    vm_compute. reflexivity.
  - destruct (proj2 (create_all_or_nothing
                       [<["product_uom_qty" := 3%float]>
                          {["manual_price_subtotal" := 45%float]};
                        {["price_unit" := 7%float]}]))
      as (vals_list' & Hc & Hall).
    + vm_compute. reflexivity.
    + exists vals_list'. split; [exact Hc|].
      by rewrite <- (Forall2_length _ _ _ Hall).
Defined.

Lemma write_subtotal_takes_last_quantity_witness :
  write_vals ([mk_line 2%float 1%float 2%float]
                ++ [mk_line 4%float 1%float 4%float])
    {["manual_price_subtotal" := 12%float]}
  = Ok (<["price_unit" := (12 / 4)%float]>
          {["manual_price_subtotal" := 12%float]})
  ∧ write ([mk_line 2%float 1%float 2%float]
             ++ [mk_line 4%float 1%float 4%float])
      {["manual_price_subtotal" := 12%float]}
    = ([mk_line 2%float (12 / 2)%float 12%float;
        mk_line 4%float (12 / 4)%float 12%float], Ok ()).
Proof.
  refine (write_subtotal_takes_last_quantity
            [mk_line 2%float 1%float 2%float]
            (mk_line 4%float 1%float 4%float)
            {["manual_price_subtotal" := 12%float]} 12%float _ _ _ _);
    [vm_compute; reflexivity..|].
  repeat constructor.
Defined.

Lemma negative_quantity_always_rejected_witness :
  (_inverse_manual_subtotal
     [mk_line 2%float 0%float 10%float;
      mk_line (-1)%float 5%float 10%float]).2
  = Raise (UserError quantity_message)
  ∧ write [mk_line 2%float 5%float 10%float;
           mk_line (-1)%float 5%float 10%float]
      {["manual_price_subtotal" := 12%float]}
    = ([mk_line 2%float 5%float 10%float;
        mk_line (-1)%float 5%float 10%float],
       Raise (UserError quantity_message)).
Proof.
  split.
  - refine (proj1 negative_quantity_always_rejected _
              (mk_line (-1)%float 5%float 10%float) _ _ _);
      [apply list_elem_of_further, list_elem_of_here
      |vm_compute; reflexivity..].
  - refine (proj1 (proj2 (proj2 negative_quantity_always_rejected)) _
              {["manual_price_subtotal" := 12%float]}
              (mk_line (-1)%float 5%float 10%float) 12%float _ _ _ _ _);
      [vm_compute; reflexivity.. | |vm_compute; reflexivity].
    apply list_elem_of_further, list_elem_of_here.
Defined.

End SaleOrderLineProofs.

(** ** pre-migration.py *)

Module PreMigrationProofs.
Import PreMigration.

(** *** Reasoning about code that uses the cursor *)

Lemma ends_ret {A} (a : A) cr (Q : result A -> cursor -> Prop) :
  Q (Ok a) cr -> ends (mret a) cr Q.
Proof. done. Qed.

Lemma ends_raise {A} e cr (Q : result A -> cursor -> Prop) :
  Q (Raise e) cr -> ends (raise e) cr Q.
Proof. done. Qed.

Lemma ends_bind {A B} (m : M A) (f : A -> M B) cr
    (Q : result B -> cursor -> Prop) :
  ends m cr (fun r cr' =>
               match r with
               | Ok a => ends (f a) cr' Q
               | Raise e => Q (Raise e) cr'
               end) ->
  ends (m ≫= f) cr Q.
Proof.
  unfold ends, mbind, M_bind. by destruct (m cr) as [[a|e] cr'].
Qed.

Lemma ends_mono {A} (m : M A) cr (Q Q' : result A -> cursor -> Prop) :
  ends m cr Q -> (∀ r cr', Q r cr' -> Q' r cr') -> ends m cr Q'.
Proof. unfold ends. auto. Qed.

Lemma ends_execute {A} st (run : database -> A * database) cr
    (Q : result A -> cursor -> Prop) :
  match missing (cr_db cr) st with
  | Some t =>
      Q (Raise (UndefinedTable t)) (mk_cursor (cr_db cr) (cr_log cr ++ [st]))
  | None =>
      Q (Ok (run (cr_db cr)).1)
        (mk_cursor (run (cr_db cr)).2 (cr_log cr ++ [st]))
  end ->
  ends (execute st run) cr Q.
Proof.
  unfold ends, execute. destruct (missing (cr_db cr) st); [done|].
  by destruct (run (cr_db cr)).
Qed.

(** The loop rule: [I] holds of what is left of the list, the accumulator
    and the cursor each time round. *)
Lemma ends_for_in {A B} (I : list A -> B -> cursor -> Prop)
    (xs : list A) (body : A -> B -> M B) acc cr
    (Q : result B -> cursor -> Prop) :
  I xs acc cr ->
  (∀ x rest acc cr, I (x :: rest) acc cr ->
     ends (body x acc) cr (fun r cr' =>
       match r with
       | Ok acc' => I rest acc' cr'
       | Raise e => Q (Raise e) cr'
       end)) ->
  (∀ acc cr, I [] acc cr -> Q (Ok acc) cr) ->
  ends (for_in xs body acc) cr Q.
Proof.
  intros HI Hbody Hend. revert acc cr HI.
  induction xs as [|x xs IH]; intros acc cr HI; cbn.
  - by apply Hend.
  - apply ends_bind. eapply ends_mono; [by apply Hbody|].
    intros [acc'|e] cr' H; [by apply IH | done].
Qed.

(** *** SQL on lists of rows *)

Section Rows.
Context {A : Type}.
Implicit Types (rows : list A).

Lemma elem_of_sql_select (where_ : A -> bool) rows r :
  r ∈ sql_select where_ rows <-> where_ r = true ∧ r ∈ rows.
Proof. unfold sql_select. by rewrite list_elem_of_filter. Qed.

Lemma elem_of_sql_delete (where_ : A -> bool) rows r :
  r ∈ sql_delete where_ rows <-> where_ r = false ∧ r ∈ rows.
Proof. unfold sql_delete. by rewrite list_elem_of_filter. Qed.

Lemma sql_delete_sublist (where_ : A -> bool) rows :
  sql_delete where_ rows `sublist_of` rows.
Proof. apply sublist_filter. Qed.

Lemma sql_select_none (where_ : A -> bool) rows :
  (∀ r, r ∈ rows -> where_ r = false) <-> sql_select where_ rows = [].
Proof.
  unfold sql_select. induction rows as [|r rows IH].
  - split; [done|]. intros _ r Hr. by apply elem_of_nil in Hr.
  - rewrite filter_cons. split.
    + intros Hall. rewrite decide_False.
      * apply IH. intros r' Hr'. apply Hall. by right.
      * rewrite Hall; [done | by left].
    + case_decide as Hr; [done|]. intros E r' Hr'.
      apply elem_of_cons in Hr' as [->|Hr'].
      * by destruct (where_ r).
      * by apply IH.
Qed.

Lemma sql_delete_none (where_ : A -> bool) rows :
  (∀ r, r ∈ rows -> where_ r = false) -> sql_delete where_ rows = rows.
Proof.
  unfold sql_delete. induction rows as [|r rows IH]; [done|].
  intros Hall. rewrite filter_cons, decide_True by (apply Hall; by left).
  f_equal. apply IH. intros r' Hr'. apply Hall. by right.
Qed.

Lemma sql_update_none (where_ : A -> bool) (set : A -> A) rows :
  (∀ r, r ∈ rows -> where_ r = false) -> sql_update where_ set rows = rows.
Proof.
  unfold sql_update. induction rows as [|r rows IH]; [done|].
  intros Hall. cbn. rewrite Hall by by left.
  f_equal. apply IH. intros r' Hr'. apply Hall. by right.
Qed.

(** After an update whose SET makes the WHERE false, no row matches;
    a second WHERE that the SET makes false and that no row matched
    before is still matched by none. *)
Lemma sql_update_settles (where_ where2 : A -> bool) (set : A -> A) rows r :
  (∀ r, where2 (set r) = false) ->
  (∀ r, r ∈ rows -> where_ r = false -> where2 r = false) ->
  r ∈ sql_update where_ set rows -> where2 r = false.
Proof.
  intros Hset Hrows Hr. unfold sql_update in Hr.
  apply list_elem_of_fmap in Hr as (r0 & -> & Hr0).
  destruct (where_ r0) eqn:E; [apply Hset | by apply Hrows].
Qed.
End Rows.

(** *** Relations that exist *)

Lemma missing_None db st :
  missing db st = None <-> ∀ t, t ∈ relations st -> t ∈ tables db.
Proof.
  unfold missing. rewrite head_None. split.
  - intros E t Ht. destruct (decide (t ∈ tables db)) as [|Hn]; [done|].
    assert (t ∈ filter (fun t => t ∉ tables db) (relations st)) as Hin
      by by apply list_elem_of_filter.
    rewrite E in Hin. by apply elem_of_nil in Hin.
  - intros Hall. destruct (filter _ _) as [|t l] eqn:E; [done|].
    assert (t ∈ filter (fun t => t ∉ tables db) (relations st)) as Hin
      by (rewrite E; by left).
    apply list_elem_of_filter in Hin as [Hn Hin]. by apply Hall in Hin.
Qed.

Lemma missing_tables db db' st :
  tables db' = tables db -> missing db' st = missing db st.
Proof. unfold missing. by intros ->. Qed.

Lemma with_ir_cron_same db : with_ir_cron db (ir_cron db) = db.
Proof. by destruct db. Qed.

Lemma with_ir_model_data_same db :
  with_ir_model_data db (ir_model_data db) = db.
Proof. by destruct db. Qed.

Lemma with_ir_model_access_same db :
  with_ir_model_access db (ir_model_access db) = db.
Proof. by destruct db. Qed.

Lemma with_ir_ui_view_same db : with_ir_ui_view db (ir_ui_view db) = db.
Proof. by destruct db. Qed.

Lemma execute_ok {A} st (run : database -> A * database) cr :
  missing (cr_db cr) st = None ->
  execute st run cr
  = (Ok (run (cr_db cr)).1,
     mk_cursor (run (cr_db cr)).2 (cr_log cr ++ [st])).
Proof.
  intros E. unfold execute. rewrite E. by destruct (run (cr_db cr)).
Qed.

Lemma execute_missing {A} st (run : database -> A * database) cr t :
  missing (cr_db cr) st = Some t ->
  execute st run cr
  = (Raise (UndefinedTable t), mk_cursor (cr_db cr) (cr_log cr ++ [st])).
Proof. intros E. unfold execute. by rewrite E. Qed.

Lemma bind_ok {A B} (m : M A) (f : A -> M B) cr a cr' :
  m cr = (Ok a, cr') -> (m ≫= f) cr = f a cr'.
Proof. intros E. unfold mbind, M_bind. by rewrite E. Qed.

Lemma bind_raise {A B} (m : M A) (f : A -> M B) cr e cr' :
  m cr = (Raise e, cr') -> (m ≫= f) cr = (Raise e, cr').
Proof. intros E. unfold mbind, M_bind. by rewrite E. Qed.

(** Closes [missing db st = None] from the relations known to exist. *)
Ltac relations_exist :=
  apply missing_None; cbn;
  let t := fresh "t" in
  let Ht := fresh "Ht" in
  intros t Ht;
  repeat (apply elem_of_cons in Ht as [->|Ht]; [assumption|]);
  by apply elem_of_nil in Ht.

(** *** The steps on a database that has nothing for them *)

Lemma fatturapa_cron_nothing cr :
  "ir_cron" ∈ tables (cr_db cr) ->
  (∀ r, r ∈ ir_cron (cr_db cr) -> fatturapa_cron r = false) ->
  _fix_fatturapa_cron cr
  = (Ok (), mk_cursor (cr_db cr) (cr_log cr ++ [update_fatturapa_cron])).
Proof.
  intros Ht Hrows. unfold _fix_fatturapa_cron, disable_fatturapa_cron.
  erewrite bind_ok; [|apply execute_ok; relations_exist].
  cbn. by rewrite sql_update_none, with_ir_cron_same.
Qed.

Lemma edi_format_noupdate_nothing cr :
  "account_edi_document" ∉ information_schema_tables (cr_db cr) ->
  _fix_edi_format_noupdate cr
  = (Ok (), mk_cursor (cr_db cr)
              (cr_log cr ++ [select_exists_account_edi_document])).
Proof.
  intros Ht. unfold _fix_edi_format_noupdate, exists_account_edi_document.
  erewrite bind_ok; [|by apply execute_ok].
  cbn [fst snd]. by rewrite bool_decide_eq_false_2.
Qed.

Lemma information_schema_tables_same db db' :
  tables db' = tables db -> elsewhere db' = elsewhere db ->
  information_schema_tables db' = information_schema_tables db.
Proof. unfold information_schema_tables. by intros -> ->. Qed.

Lemma information_schema_tables_elem db t :
  t ∈ tables db -> t ∈ information_schema_tables db.
Proof. intros Ht. apply elem_of_app. by left. Qed.

Lemma project_delete_wizard_nothing cr :
  "ir_model" ∈ tables (cr_db cr) ->
  (∀ r, r ∈ ir_model (cr_db cr) -> project_delete_wizard r = false) ->
  _fix_project_delete_wizard cr
  = (Ok (), mk_cursor (cr_db cr)
              (cr_log cr ++ [select_project_delete_wizard])).
Proof.
  intros Ht Hrows.
  unfold _fix_project_delete_wizard, find_project_delete_wizard.
  erewrite bind_ok; [|apply execute_ok; relations_exist].
  cbn. apply sql_select_none in Hrows. by rewrite Hrows.
Qed.

Lemma settings_views_loop_nothing limit patterns total db log :
  "ir_ui_view" ∈ tables db ->
  "ir_model_data" ∈ tables db ->
  (∀ pattern r, pattern ∈ patterns ->
     r ∈ ir_ui_view db -> settings_view pattern r = false) ->
  settings_views_loop limit patterns total (mk_cursor db log)
  = (Ok total,
     mk_cursor db (log ++ (select_settings_views <$> patterns))).
Proof.
  intros Hv Hd. revert log.
  induction patterns as [|pattern patterns IH]; intros log Hrows.
  - cbn. by rewrite app_nil_r.
  - unfold settings_views_loop. cbn [for_in].
    erewrite bind_ok; cycle 1.
    { unfold find_settings_views.
      erewrite bind_ok; [|apply execute_ok; cbn; relations_exist].
      cbn. assert (sql_select (settings_view pattern) (ir_ui_view db) = [])
        as ->.
      { apply sql_select_none. intros r Hr. apply Hrows; [by left|done]. }
      reflexivity. }
    fold (settings_views_loop limit patterns total).
    rewrite IH; [by rewrite <-app_assoc|].
    intros p r Hp Hr. apply Hrows; [by right|done].
Qed.

Lemma settings_views_nothing limit cr :
  "ir_ui_view" ∈ tables (cr_db cr) ->
  "ir_model_data" ∈ tables (cr_db cr) ->
  (∀ pattern r, pattern ∈ problematic_patterns ->
     r ∈ ir_ui_view (cr_db cr) -> settings_view pattern r = false) ->
  _fix_incompatible_settings_views limit cr
  = (Ok 0, mk_cursor (cr_db cr)
             (cr_log cr ++ (select_settings_views <$> problematic_patterns))).
Proof.
  destruct cr as [db log]. apply settings_views_loop_nothing.
Qed.

(** *** What a cascade may delete *)

Lemma cascade_O v name module cr :
  _delete_view_cascade 0 v name module cr = (Raise RecursionError, cr).
Proof. done. Qed.

Lemma cascade_S limit v name module :
  _delete_view_cascade (S limit) v name module
  = cascade_body (_delete_view_cascade limit) v module.
Proof. done. Qed.

Lemma select_child_views_exists db id :
  missing db (select_child_views id) = None <-> "ir_ui_view" ∈ tables db.
Proof.
  rewrite missing_None. cbn. split.
  - intros Hall. apply Hall. by left.
  - intros Hv t Ht. by apply list_elem_of_singleton in Ht as ->.
Qed.

Lemma delete_view_exists db id :
  missing db (delete_view id) = None <-> "ir_ui_view" ∈ tables db.
Proof.
  rewrite missing_None. cbn. split.
  - intros Hall. apply Hall. by left.
  - intros Hv t Ht. by apply list_elem_of_singleton in Ht as ->.
Qed.

Lemma delete_view_data_exists db id :
  missing db (delete_view_data id) = None <-> "ir_model_data" ∈ tables db.
Proof.
  rewrite missing_None. cbn. split.
  - intros Hall. apply Hall. by left.
  - intros Hv t Ht. by apply list_elem_of_singleton in Ht as ->.
Qed.

Section Invariant.
(** [I] holds of the database all along, provided the views visited are
    in [G]: the children of a view in [G] are in [G], and deleting a view
    in [G] with its metadata keeps [I]. *)
Variable I : database -> Prop.
Variable G : Z -> Prop.
Hypothesis I_child : ∀ db v r,
  I db -> G v -> r ∈ ir_ui_view db -> view_inherit_id r = Some v ->
  G (view_id r).
Hypothesis I_delete : ∀ db v, I db -> G v -> I (without_view v db).

Lemma cascade_invariant limit v name module cr :
  I (cr_db cr) -> G v ->
  ends (_delete_view_cascade limit v name module) cr (fun _ cr' =>
    I (cr_db cr') ∧ tables (cr_db cr') = tables (cr_db cr)).
Proof.
  revert v name module cr.
  induction limit as [|limit IH]; intros v name module cr HI HG; [done|].
  rewrite cascade_S. unfold cascade_body.
  apply ends_bind, ends_execute.
  destruct (missing (cr_db cr) (select_child_views v)) eqn:Ev; [done|].
  apply select_child_views_exists in Ev. cbn [fst snd].
  apply ends_bind.
  apply (ends_for_in (fun rest _ cr' =>
           I (cr_db cr') ∧ tables (cr_db cr') = tables (cr_db cr)
           ∧ ∀ c cn, (c, cn) ∈ rest -> G c)).
  - repeat split; [done|]. intros c cn Hc.
    apply list_elem_of_fmap in Hc as (r & [= -> ->] & Hr).
    apply elem_of_sql_select in Hr as [Hr Hin].
    apply bool_decide_eq_true in Hr. by eapply I_child.
  - intros [c cn] rest acc cr1 (HI1 & Ht1 & Hrest).
    apply ends_bind. eapply ends_mono.
    { apply IH; [done|]. eapply Hrest. by left. }
    intros [n|e] cr2 [HI2 Ht2]; cbn.
    + repeat split; [done | congruence |].
      intros c' cn' Hc'. eapply Hrest. by right.
    + split; [done | congruence].
  - intros acc cr1 (HI1 & Ht1 & _).
    apply ends_bind, ends_execute.
    destruct (missing (cr_db cr1) (delete_view_data v)); [done|].
    cbn [fst snd]. apply ends_bind, ends_execute. cbn [cr_db].
    assert (missing
              (with_ir_model_data (cr_db cr1)
                 (sql_delete (data_of_view v) (ir_model_data (cr_db cr1))))
              (delete_view v) = None) as ->.
    { apply delete_view_exists. cbn. by rewrite Ht1. }
    cbn [fst snd].
    assert (I (without_view v (cr_db cr1))
            ∧ tables (without_view v (cr_db cr1)) = tables (cr_db cr))
      as Hfinal by (split; [by apply I_delete | done]).
    by destruct (head _).
Qed.
End Invariant.

(** *** The frame of the view deletion *)

#[local] Instance shrinks_refl : Reflexive shrinks.
Proof. intros db. by repeat split. Qed.

#[local] Instance shrinks_trans : Transitive shrinks.
Proof.
  intros db1 db2 db3 (?&?&?&?&?&?&?&?) (?&?&?&?&?&?&?&?).
  repeat split; try congruence; by etrans.
Qed.

Lemma shrinks_without_view v db : shrinks db (without_view v db).
Proof. repeat split; cbn; apply sql_delete_sublist. Qed.

Lemma inherits_sublist views views' p c :
  views' `sublist_of` views -> inherits views' p c -> inherits views p c.
Proof.
  intros Hsub (r & Hr & ? & ?). exists r.
  split; [by eapply elem_of_sublist | done].
Qed.

Lemma rtc_inherits_sublist views views' x y :
  views' `sublist_of` views ->
  rtc (inherits views') x y -> rtc (inherits views) x y.
Proof.
  intros Hsub. apply rtc_subrel. intros p c. by apply inherits_sublist.
Qed.

Lemma not_elem_of_view_ids_sublist (views views' : list view) id :
  views' `sublist_of` views ->
  id ∉ view_id <$> views -> id ∉ view_id <$> views'.
Proof.
  intros Hsub Hn Hin. apply Hn.
  apply list_elem_of_fmap in Hin as (r & -> & Hr).
  apply list_elem_of_fmap. exists r. split; [done|].
  by eapply elem_of_sublist.
Qed.

Lemma deleted_within_refl G db : deleted_within G db db.
Proof. split; [reflexivity|]. split; intros x Hin Hout; by destruct Hout. Qed.

Lemma deleted_within_without_view G db0 db v :
  deleted_within G db0 db -> G v ->
  deleted_within G db0 (without_view v db).
Proof.
  intros (Hs & Hviews & Hdata) HG. split; [|split].
  - etrans; [done | apply shrinks_without_view].
  - intros r Hin Hout. cbn in Hout.
    rewrite elem_of_sql_delete in Hout.
    destruct (has_id v r) eqn:E.
    + apply bool_decide_eq_true in E. by rewrite E.
    + apply Hviews; [done|]. intros Hr. by apply Hout.
  - intros d Hin Hout. cbn in Hout. rewrite elem_of_sql_delete in Hout.
    destruct (data_of_view v d) eqn:E.
    + apply andb_true_iff in E as [E1 E2].
      apply bool_decide_eq_true in E1, E2. split; [done|].
      exists v. repeat split; [done..|]. cbn.
      intros Hv. apply list_elem_of_fmap in Hv as (r & -> & Hr).
      apply elem_of_sql_delete in Hr as [Hr _].
      unfold has_id in Hr. by rewrite bool_decide_eq_true_2 in Hr.
    + destruct (Hdata d) as (Hm & id & Hid & HGid & Hgone);
        [done | by intros Hd; apply Hout |].
      split; [done|]. exists id. repeat split; [done..|].
      cbn. eapply not_elem_of_view_ids_sublist; [|done].
      apply sql_delete_sublist.
Qed.

(** A cascade from a view of [G] deletes within [G], however it ends, when
    [G] has the views that inherit from its views. *)
Lemma cascade_deleted_within (G : Z -> Prop) db0 limit v name module cr :
  (∀ p c, G p -> inherits (ir_ui_view db0) p c -> G c) ->
  deleted_within G db0 (cr_db cr) -> G v ->
  deleted_within G db0
    (cr_db (_delete_view_cascade limit v name module cr).2).
Proof.
  intros Hclosed Hdb HG.
  apply (cascade_invariant (deleted_within G db0) G); [| |done..].
  - intros db p r (Hs & _) HGp Hr Hp. apply (Hclosed p); [done|].
    exists r. split; [|done].
    eapply elem_of_sublist; [done|]. apply Hs.
  - intros db p Hdbp HGp. by apply deleted_within_without_view.
Qed.

Lemma cascade_shrinks limit v name module cr :
  shrinks (cr_db cr) (cr_db (_delete_view_cascade limit v name module cr).2).
Proof.
  apply (cascade_deleted_within (fun _ => True) (cr_db cr)); [done| |done].
  apply deleted_within_refl.
Qed.

(** *** The incompatible settings views *)

Lemma condemned_inherits views p c :
  condemned views p -> inherits views p c -> condemned views c.
Proof.
  intros (r & Hr & Hinc & Hrtc) Hpc. exists r.
  repeat split; [done..|]. by eapply rtc_r.
Qed.

Lemma condemned_has_row views id :
  condemned views id -> id ∈ view_id <$> views.
Proof.
  intros (r & Hr & _ & Hrtc). apply list_elem_of_fmap.
  destruct (rtc_inv_r _ _ Hrtc) as [<-|(p & _ & r' & Hr' & <- & _)]; eauto.
Qed.

Lemma elem_of_left_join_data data r id name module :
  (id, name, module) ∈ left_join_data data r ->
  id = view_id r ∧ name = view_name r.
Proof.
  unfold left_join_data.
  destruct (sql_select _ data) as [|d ds].
  - by intros [= -> -> ->]%list_elem_of_singleton.
  - by intros (d' & [= -> -> ->] & _)%list_elem_of_fmap.
Qed.

Lemma settings_views_loop_deleted_within limit patterns total db0 cr :
  (∀ pattern, pattern ∈ patterns -> pattern ∈ problematic_patterns) ->
  deleted_within (condemned (ir_ui_view db0)) db0 (cr_db cr) ->
  deleted_within (condemned (ir_ui_view db0)) db0
    (cr_db (settings_views_loop limit patterns total cr).2).
Proof.
  intros Hpatterns Hdb. unfold settings_views_loop.
  change (ends (for_in patterns (fun pattern total_deleted =>
                  views_to_delete ← find_settings_views pattern;
                  for_in views_to_delete
                    (fun '(view_id, view_name, module) total_deleted =>
                       n ← _delete_view_cascade limit view_id view_name
                             module;
                       mret (total_deleted + n)) total_deleted) total) cr
            (fun _ cr' =>
               deleted_within (condemned (ir_ui_view db0)) db0 (cr_db cr'))).
  apply (ends_for_in (fun rest _ cr' =>
           (∀ pattern, pattern ∈ rest -> pattern ∈ problematic_patterns)
           ∧ deleted_within (condemned (ir_ui_view db0)) db0 (cr_db cr')));
    [done| |by intros ? ? [_ ?]].
  clear. intros pattern rest total cr [Hpatterns Hdb].
  apply ends_bind, ends_execute.
  destruct (missing _ _); [done|]. cbn [fst snd].
  apply (ends_for_in (fun views _ cr' =>
           deleted_within (condemned (ir_ui_view db0)) db0 (cr_db cr')
           ∧ ∀ id name module, (id, name, module) ∈ views ->
               condemned (ir_ui_view db0) id)).
  - split; [done|]. intros id name module Hin.
    apply list_elem_of_bind in Hin as (r & Hin & Hr).
    apply elem_of_left_join_data in Hin as [-> ->].
    apply elem_of_sql_select in Hr as [Hsel Hr].
    exists r. repeat split.
    + eapply elem_of_sublist; [done|]. apply Hdb.
    + exists pattern. split; [|done]. apply Hpatterns. by left.
    + done.
  - intros [[id name] module] views acc cr1 [Hdb1 Hviews].
    apply ends_bind. unfold ends.
    pose proof (cascade_deleted_within _ db0 limit id name module cr1
                  (condemned_inherits _) Hdb1) as Hcascade.
    destruct (_delete_view_cascade limit id name module cr1) as [[n|e] cr2];
      cbn in *.
    + split; [apply Hcascade; eapply Hviews; by left|].
      intros id' name' module' Hin. eapply Hviews. by right.
    + apply Hcascade. eapply Hviews. by left.
  - intros acc cr1 [Hdb1 _]. split; [|done].
    intros p Hp. apply Hpatterns. by right.
Qed.

Lemma NoDup_view_ids_eq (views : list view) r1 r2 :
  NoDup (view_id <$> views) -> r1 ∈ views -> r2 ∈ views ->
  view_id r1 = view_id r2 -> r1 = r2.
Proof.
  induction views as [|r views IH]; [by intros _ ?%elem_of_nil|].
  rewrite fmap_cons, NoDup_cons. intros [Hr Hnd] H1 H2 E.
  apply elem_of_cons in H1 as [->|H1], H2 as [->|H2]; [done| | |by apply IH].
  - destruct Hr. apply list_elem_of_fmap. by exists r2.
  - destruct Hr. apply list_elem_of_fmap. by exists r1.
Qed.

(** C9: [_fix_incompatible_settings_views], however it ends, changes no
    relation but [ir_ui_view] and [ir_model_data], and these two only by
    deleting rows.  A view row that is gone is, by its id, an incompatible
    view (model [res.config.settings], an [inherit_id], a definition one
    of the four patterns selects) or inherits from one through any number
    of views; with ids as the key of [ir_ui_view], it is itself such a
    view or inherits from one.  A metadata row that is gone is the
    [ir.ui.view] row of such a view, and this view is gone. *)
Theorem settings_views_frame limit cr :
  let db := cr_db cr in
  let db' := cr_db (_fix_incompatible_settings_views limit cr).2 in
  tables db' = tables db
  ∧ ir_cron db' = ir_cron db
  ∧ account_edi_document db' = account_edi_document db
  ∧ ir_model db' = ir_model db
  ∧ ir_model_access db' = ir_model_access db
  ∧ ir_model_data db' `sublist_of` ir_model_data db
  ∧ ir_ui_view db' `sublist_of` ir_ui_view db
  ∧ (∀ r, r ∈ ir_ui_view db -> r ∉ ir_ui_view db' ->
       ∃ r0, r0 ∈ ir_ui_view db
             ∧ (∃ pattern, pattern ∈ problematic_patterns
                           ∧ settings_view pattern r0 = true)
             ∧ rtc (inherits (ir_ui_view db)) (view_id r0) (view_id r))
  ∧ (NoDup (view_id <$> ir_ui_view db) ->
     ∀ r, r ∈ ir_ui_view db -> r ∉ ir_ui_view db' ->
       incompatible r
       ∨ ∃ r0, r0 ∈ ir_ui_view db ∧ incompatible r0
               ∧ tc (inherits (ir_ui_view db)) (view_id r0) (view_id r))
  ∧ (∀ d, d ∈ ir_model_data db -> d ∉ ir_model_data db' ->
       data_model d = "ir.ui.view"
       ∧ ∃ r, r ∈ ir_ui_view db
              ∧ data_res_id d = Some (view_id r)
              ∧ condemned (ir_ui_view db) (view_id r)
              ∧ view_id r ∉ view_id <$> ir_ui_view db').
Proof.
  intros db db'.
  destruct (settings_views_loop_deleted_within limit problematic_patterns
              0 db cr) as ((?&_&?&?&?&?&?&?) & Hviews & Hdata);
    [done | apply deleted_within_refl |].
  split_and!; [done..| | |].
  - intros r Hin Hout. by apply Hviews.
  - intros Hnd r Hin Hout.
    destruct (Hviews r Hin Hout) as (r0 & Hr0 & Hinc & Hrtc).
    apply rtc_tc in Hrtc as [E|Htc]; [|right; by exists r0].
    left. by rewrite <-(NoDup_view_ids_eq _ r0 r Hnd Hr0 Hin E).
  - intros d Hin Hout.
    destruct (Hdata d Hin Hout) as (Hm & id & Hid & Hc & Hgone).
    split; [done|].
    pose proof (condemned_has_row _ _ Hc) as Hrow.
    apply list_elem_of_fmap in Hrow as (r & -> & Hr).
    by exists r.
Qed.

Lemma settings_views_frame_witness :
  ir_ui_view
    (cr_db (_fix_incompatible_settings_views 3 (mk_cursor legacy [])).2)
  `sublist_of` ir_ui_view legacy.
Proof. apply (settings_views_frame 3 (mk_cursor legacy [])). Defined.

(** *** A cascade that returns *)

Lemma ends_and {A} (m : M A) cr (Q1 Q2 : result A -> cursor -> Prop) :
  ends m cr Q1 -> ends m cr Q2 ->
  ends m cr (fun r cr' => Q1 r cr' ∧ Q2 r cr').
Proof. by split. Qed.

Lemma closed_refl db : closed db db.
Proof. by split; intros. Qed.

Lemma closed_trans db1 db2 db3 :
  shrinks db2 db3 -> closed db1 db2 -> closed db2 db3 -> closed db1 db3.
Proof.
  intros (_&_&_&_&_&_&Hd&Hv) [Hv12 Hd12] [Hv23 Hd23]. split.
  - intros r p Hr Hp Hin. apply (Hv23 r); [done..|].
    apply (Hv12 r); [|done..]. by eapply elem_of_sublist.
  - intros d id Hin Hm Hid Hrow. apply (Hd23 d); [done..|].
    apply (Hd12 d); [|done..]. by eapply elem_of_sublist.
Qed.

Lemma sql_select_delete_length {A} (where_ : A -> bool) (rows : list A) :
  length (sql_select where_ rows) + length (sql_delete where_ rows)
  = length rows.
Proof.
  unfold sql_select, sql_delete.
  induction rows as [|r rows IH]; [done|].
  rewrite !filter_cons.
  destruct (where_ r); repeat case_decide; try done; cbn; lia.
Qed.

Lemma select_has_id_NoDup v (views : list view) :
  NoDup (view_id <$> views) -> length (sql_select (has_id v) views) ≤ 1.
Proof.
  unfold sql_select. induction views as [|r views IH]; [cbn; lia|].
  rewrite fmap_cons, NoDup_cons. intros [Hr Hnd].
  rewrite filter_cons. case_decide as E; [|by apply IH].
  apply bool_decide_eq_true in E. subst v. cbn.
  assert (filter (fun r0 => has_id (view_id r) r0 = true) views = []) as ->;
    [|cbn; lia].
  apply (sql_select_none (has_id (view_id r))). intros r' Hr'.
  apply bool_decide_eq_false. intros E. apply Hr.
  apply list_elem_of_fmap. by exists r'.
Qed.

Lemma NoDup_view_ids_shrinks db db' :
  shrinks db db' ->
  NoDup (view_id <$> ir_ui_view db) -> NoDup (view_id <$> ir_ui_view db').
Proof.
  intros (_&_&_&_&_&_&_&Hv) Hnd.
  apply (sublist_NoDup _ (view_id <$> ir_ui_view db)); [done|].
  by apply fmap_sublist.
Qed.

Lemma not_elem_of_delete_has_id v (views : list view) :
  v ∉ view_id <$> sql_delete (has_id v) views.
Proof.
  intros (r & -> & Hr)%list_elem_of_fmap.
  apply elem_of_sql_delete in Hr as [Hr _].
  unfold has_id in Hr. by rewrite bool_decide_eq_true_2 in Hr.
Qed.

Lemma elem_of_delete_has_id v id (views : list view) :
  id ∈ view_id <$> views -> id ≠ v ->
  id ∈ view_id <$> sql_delete (has_id v) views.
Proof.
  intros (r & -> & Hr)%list_elem_of_fmap Hne.
  apply list_elem_of_fmap. exists r. split; [done|].
  apply elem_of_sql_delete. split; [|done].
  by apply bool_decide_eq_false.
Qed.

Lemma cascade_shrinks_ends limit v name module cr :
  ends (_delete_view_cascade limit v name module) cr (fun _ cr' =>
    shrinks (cr_db cr) (cr_db cr')).
Proof. apply cascade_shrinks. Qed.

Lemma cascade_cascaded limit v name module cr :
  ends (_delete_view_cascade limit v name module) cr (fun r cr' =>
    match r with
    | Ok n => cascaded v (cr_db cr) (cr_db cr') n
    | Raise _ => True
    end).
Proof.
  revert v name module cr.
  induction limit as [|limit IH]; intros v name module cr; [done|].
  rewrite cascade_S. unfold cascade_body.
  apply ends_bind, ends_execute.
  destruct (missing (cr_db cr) (select_child_views v)) eqn:Ev; [done|].
  cbn [fst snd]. set (db := cr_db cr).
  apply ends_bind.
  apply (ends_for_in (fun rest acc cr1 =>
           shrinks db (cr_db cr1)
           ∧ closed db (cr_db cr1)
           ∧ (NoDup (view_id <$> ir_ui_view db) ->
              acc + length (ir_ui_view (cr_db cr1))
              = length (ir_ui_view db))
           ∧ ∀ r, r ∈ ir_ui_view (cr_db cr1) ->
                  view_inherit_id r = Some v -> view_id r ∈ rest.*1)).
  - split_and!; [reflexivity | apply closed_refl | done |].
    intros r Hr Hp. apply list_elem_of_fmap.
    exists (view_id r, view_name r). split; [done|].
    apply list_elem_of_fmap. exists r. split; [done|].
    apply elem_of_sql_select. split; [|done].
    by apply bool_decide_eq_true.
  - intros [c cn] rest acc cr1 (Hs1 & Hc1 & Hn1 & Hrest).
    apply ends_bind. eapply ends_mono.
    { apply ends_and; [apply IH | apply cascade_shrinks_ends]. }
    intros [n|e] cr2 [Hpost Hs2]; [|done].
    destruct Hpost as (Hgone & _ & _ & Hc2 & Hn2). cbn.
    split_and!.
    + by etrans.
    + by eapply closed_trans.
    + intros Hnd. specialize (Hn1 Hnd).
      pose proof (NoDup_view_ids_shrinks _ _ Hs1 Hnd) as Hnd1.
      specialize (Hn2 Hnd1). lia.
    + intros r Hr Hp.
      assert (r ∈ ir_ui_view (cr_db cr1)) as Hr1.
      { eapply elem_of_sublist; [done|]. apply Hs2. }
      specialize (Hrest r Hr1 Hp). cbn in Hrest.
      apply elem_of_cons in Hrest as [E|?]; [|done].
      destruct Hgone. apply list_elem_of_fmap. exists r. by rewrite <-E.
  - intros acc cr1 (Hs1 & Hc1 & Hn1 & Hrest).
    assert (∀ r, r ∈ ir_ui_view (cr_db cr1) -> view_inherit_id r ≠ Some v)
      as Hchildless.
    { intros r Hr Hp. specialize (Hrest r Hr Hp). by inversion Hrest. }
    clear Hrest.
    apply ends_bind, ends_execute.
    destruct (missing (cr_db cr1) (delete_view_data v)); [done|].
    cbn [fst snd]. apply ends_bind, ends_execute. cbn [cr_db].
    destruct (missing _ (delete_view v)); [done|].
    cbn [fst snd ir_ui_view with_ir_model_data].
    assert (∀ n,
      (NoDup (view_id <$> ir_ui_view db) ->
       n + length (sql_delete (has_id v) (ir_ui_view (cr_db cr1)))
       = length (ir_ui_view db)) ->
      cascaded v db (without_view v (cr_db cr1)) n) as Hfinal.
    { intros n Hn. split_and!; [| | |split|done].
      - apply not_elem_of_delete_has_id.
      - intros r Hr. apply Hchildless.
        by apply elem_of_sql_delete in Hr as [_ Hr].
      - intros d Hd. by apply elem_of_sql_delete in Hd as [Hd _].
      - intros r p Hr Hp Hin. cbn.
        apply elem_of_sql_delete in Hr as [_ Hr].
        apply elem_of_delete_has_id.
        + by apply (proj1 Hc1 r).
        + intros ->. by apply (Hchildless r).
      - intros d id Hd Hm Hid Hin. cbn in *.
        apply elem_of_sql_delete in Hd as [Hv Hd].
        apply elem_of_delete_has_id.
        + by apply (proj2 Hc1 d).
        + intros ->. unfold data_of_view in Hv.
          by rewrite !bool_decide_eq_true_2 in Hv. }
    pose proof (sql_select_delete_length (has_id v)
                  (ir_ui_view (cr_db cr1))) as Hlen.
    pose proof (select_has_id_NoDup v (ir_ui_view (cr_db cr1))) as Hle.
    unfold sql_select in Hlen, Hle |- *.
    destruct (filter (fun r => has_id v r = true) (ir_ui_view (cr_db cr1)))
      as [|r rs]; cbn [fmap list_fmap head];
      apply ends_ret, Hfinal; intros Hnd; specialize (Hn1 Hnd).
    + cbn in Hlen. lia.
    + pose proof (NoDup_view_ids_shrinks _ _ Hs1 Hnd) as Hnd1.
      specialize (Hle Hnd1). cbn in Hlen, Hle. lia.
Qed.

(** *** The views a cascade deletes *)

Lemma rtc_inherits_row views v id :
  rtc (inherits views) v id -> id = v ∨ id ∈ view_id <$> views.
Proof.
  intros Hrtc. destruct (rtc_inv_r _ _ Hrtc) as [->|(p & _ & r & Hr & <- & _)].
  - by left.
  - right. apply list_elem_of_fmap. by exists r.
Qed.

(** After a cascade from [v] that returns, no view that inherits from [v]
    through any number of views is left. *)
Lemma cascaded_descendants_gone v db db' n id :
  NoDup (view_id <$> ir_ui_view db) ->
  shrinks db db' -> cascaded v db db' n ->
  rtc (inherits (ir_ui_view db)) v id ->
  id ∉ view_id <$> ir_ui_view db'.
Proof.
  intros Hnd Hs (Hroot & Hchildless & _ & [Hclosed _] & _).
  revert id.
  apply (rtc_ind_r (fun id => id ∉ view_id <$> ir_ui_view db')); [done|].
  intros p c Hvp (rc & Hrc & Hc & Hp) IH.
  intros (r' & E & Hr')%list_elem_of_fmap.
  assert (r' ∈ ir_ui_view db) as Hr'0.
  { eapply elem_of_sublist; [done|]. apply Hs. }
  assert (r' = rc) as -> by (apply (NoDup_view_ids_eq (ir_ui_view db));
                              [done..|congruence]).
  destruct (rtc_inherits_row _ _ _ Hvp) as [->|Hrow].
  - by apply (Hchildless rc).
  - apply IH. by apply (Hclosed rc).
Qed.

Lemma cascade_log_grows limit v name module cr :
  ends (_delete_view_cascade limit v name module) cr (fun _ cr' =>
    ∃ more, cr_log cr' = cr_log cr ++ more).
Proof.
  revert v name module cr.
  induction limit as [|limit IH]; intros v name module cr.
  { exists []. by rewrite app_nil_r. }
  rewrite cascade_S. unfold cascade_body.
  assert (∀ st (cr1 : cursor),
            (∃ more, cr_log cr1 = cr_log cr ++ more) ->
            ∃ more, cr_log cr1 ++ [st] = cr_log cr ++ more) as Hstep.
  { intros st cr1 [more ->]. exists (more ++ [st]). by rewrite app_assoc. }
  apply ends_bind, ends_execute.
  destruct (missing _ _); cbn [fst snd cr_log];
    [apply (Hstep _ cr); exists []; by rewrite app_nil_r|].
  apply ends_bind.
  apply (ends_for_in (fun _ _ cr1 => ∃ more, cr_log cr1 = cr_log cr ++ more)).
  - cbn. apply (Hstep _ cr). exists []. by rewrite app_nil_r.
  - intros [c cn] rest acc cr1 [more Hmore].
    apply ends_bind. eapply ends_mono; [apply IH|].
    intros [n|e] cr2 [more2 Hmore2]; cbn;
      rewrite Hmore2, Hmore, <-app_assoc; eauto.
  - intros acc cr1 Hmore.
    apply ends_bind, ends_execute.
    destruct (missing _ _); cbn [fst snd cr_log]; [by apply Hstep|].
    apply ends_bind, ends_execute.
    destruct (missing _ _); cbn [fst snd cr_log cr_db].
    + apply (Hstep _ (mk_cursor (cr_db cr1) (cr_log cr1 ++ [_]))).
      by apply Hstep.
    + assert (∃ more,
                (cr_log cr1 ++ [delete_view_data v]) ++ [delete_view v]
                = cr_log cr ++ more) as Hfinal.
      { apply (Hstep _ (mk_cursor (cr_db cr1) (cr_log cr1 ++ [_]))).
        by apply Hstep. }
      by destruct (head _).
Qed.

(** The statements of a cascade from [v] that returns: the children of
    [v] are selected first, and its metadata and then the view itself are
    deleted last. *)
Lemma cascade_log_order limit v name module cr :
  ends (_delete_view_cascade limit v name module) cr (fun r cr' =>
    match r with
    | Ok _ => ∃ between,
        cr_log cr'
        = cr_log cr ++ select_child_views v :: between
                       ++ [delete_view_data v; delete_view v]
    | Raise _ => True
    end).
Proof.
  destruct limit as [|limit]; [done|].
  rewrite cascade_S. unfold cascade_body.
  apply ends_bind, ends_execute.
  destruct (missing _ _); cbn [fst snd cr_log]; [done|].
  apply ends_bind.
  apply (ends_for_in (fun _ _ cr1 =>
           ∃ between,
             cr_log cr1 = cr_log cr ++ select_child_views v :: between)).
  - by exists [].
  - intros [c cn] rest acc cr1 [between Hlog].
    apply ends_bind. eapply ends_mono; [apply cascade_log_grows|].
    intros [n|e] cr2 [more Hmore]; [|done]. cbn.
    exists (between ++ more). by rewrite Hmore, Hlog, <-app_assoc.
  - intros acc cr1 [between Hlog].
    apply ends_bind, ends_execute.
    destruct (missing _ _); cbn [fst snd cr_log]; [done|].
    apply ends_bind, ends_execute.
    destruct (missing _ _); cbn [fst snd cr_log cr_db]; [done|].
    assert (∃ between',
              (cr_log cr1 ++ [delete_view_data v]) ++ [delete_view v]
              = cr_log cr ++ select_child_views v :: between'
                             ++ [delete_view_data v; delete_view v])
      as Hfinal.
    { exists between. rewrite Hlog, <-!app_assoc. done. }
    by destruct (head _).
Qed.

(** C2: a call of [_delete_view_cascade] that returns has selected the
    views that inherit from the view first and deleted the metadata of the
    view and then the view itself last; with ids as the key of
    [ir_ui_view], the views gone are the view and those that inherit from
    it through any number of views, the metadata rows gone are the
    [ir.ui.view] rows of these, nothing else is changed, and the number
    returned is the number of view rows deleted.  On a view with two
    children and one grandchild the call deletes the four rows, depth
    first, and returns 4. *)
Theorem delete_view_cascade_subtree :
  (∀ limit v name module cr n cr',
     NoDup (view_id <$> ir_ui_view (cr_db cr)) ->
     _delete_view_cascade limit v name module cr = (Ok n, cr') ->
     let db := cr_db cr in
     let db' := cr_db cr' in
     (∃ between,
        cr_log cr' = cr_log cr ++ select_child_views v :: between
                                  ++ [delete_view_data v; delete_view v])
     ∧ shrinks db db'
     ∧ (∀ r, r ∈ ir_ui_view db ->
          r ∈ ir_ui_view db'
          <-> ¬ rtc (inherits (ir_ui_view db)) v (view_id r))
     ∧ (∀ d, d ∈ ir_model_data db ->
          d ∈ ir_model_data db'
          <-> ¬ (data_model d = "ir.ui.view"
                 ∧ ∃ id, data_res_id d = Some id
                         ∧ rtc (inherits (ir_ui_view db)) v id))
     ∧ n + length (ir_ui_view db') = length (ir_ui_view db))
  ∧ _delete_view_cascade 3 1 "parent" (Some "base") (mk_cursor family [])
    = (Ok 4, mk_cursor family_after family_log).
Proof.
  split; [|vm_compute; reflexivity].
  intros limit v name module cr n cr' Hnd Hrun db db'.
  pose proof (cascade_log_order limit v name module cr) as Hlog.
  pose proof (cascade_cascaded limit v name module cr) as Hk.
  pose proof (cascade_deleted_within
                (rtc (inherits (ir_ui_view db)) v) db limit v name module cr)
    as Hw.
  unfold ends in Hlog, Hk. rewrite Hrun in Hlog, Hk, Hw. cbn in Hlog, Hk, Hw.
  fold db db' in Hk, Hw.
  destruct Hw as (Hs & Hviews & Hdata);
    [by intros p c Hp Hc; eapply rtc_r | apply deleted_within_refl | done |].
  pose proof (cascaded_descendants_gone v db db' n) as Hgone.
  split_and!; [done | done | | |by apply Hk].
  - intros r Hr. split.
    + intros Hr' Hrtc. apply (Hgone (view_id r)); [done..|].
      apply list_elem_of_fmap. by exists r.
    + intros Hn. destruct (decide (r ∈ ir_ui_view db')) as [|Hout]; [done|].
      destruct Hn. by apply Hviews.
  - intros d Hd. split.
    + intros Hd' (Hm & id & Hid & Hrtc).
      pose proof Hk as (_ & _ & Hv & [_ Hclosed] & _).
      destruct (rtc_inherits_row _ _ _ Hrtc) as [->|Hrow].
      * specialize (Hv d Hd'). unfold data_of_view in Hv.
        by rewrite !bool_decide_eq_true_2 in Hv.
      * apply (Hgone id); [done..|]. by apply (Hclosed d).
    + intros Hn.
      destruct (decide (d ∈ ir_model_data db')) as [|Hout]; [done|].
      destruct Hn. destruct (Hdata d Hd Hout) as (Hm & id & Hid & HG & _).
      eauto.
Qed.

Lemma delete_view_cascade_subtree_witness :
  4 + length (ir_ui_view family_after) = length (ir_ui_view family).
Proof.
  refine (proj2 (proj2 (proj2 (proj2
    (proj1 delete_view_cascade_subtree 3 1%Z "parent" (Some "base")
       (mk_cursor family []) 4 (mk_cursor family_after family_log) _ _))))).
  - apply (bool_decide_unpack _). vm_compute. exact I.
  - vm_compute. reflexivity.
Defined.

(** *** How a cascade can end *)

(** A cascade raises nothing but [RecursionError] and, for a relation
    that does not exist, [UndefinedTable]. *)
Lemma cascade_raises limit v name module cr :
  ends (_delete_view_cascade limit v name module) cr (fun r _ =>
    match r with
    | Ok _ => True
    | Raise e =>
        e = RecursionError
        ∨ ∃ t, e = UndefinedTable t ∧ (t ∉ tables (cr_db cr))
               ∧ (t = "ir_ui_view" ∨ t = "ir_model_data")
    end).
Proof.
  revert v name module cr.
  induction limit as [|limit IH]; intros v name module cr; [by left|].
  assert (∀ db st t, tables db = tables (cr_db cr) ->
            relations st = ["ir_ui_view"] ∨ relations st = ["ir_model_data"] ->
            missing db st = Some t ->
            (t ∉ tables (cr_db cr))
            ∧ (t = "ir_ui_view" ∨ t = "ir_model_data")) as Hmissing.
  { intros db st t Ht Hst E. unfold missing in E. rewrite Ht in E.
    assert (t ∈ filter (fun t => t ∉ tables (cr_db cr)) (relations st))
      as [Hout Hin]%list_elem_of_filter.
    { destruct (filter _ _); [done|]. injection E as ->. by left. }
    split; [done|].
    destruct Hst as [Hst|Hst]; rewrite Hst in Hin;
      apply list_elem_of_singleton in Hin; auto. }
  rewrite cascade_S. unfold cascade_body.
  apply ends_bind, ends_execute.
  destruct (missing _ _) as [t|] eqn:Ev; cbn [fst snd].
  { right. exists t. split; [done|]. apply (Hmissing _ _ _ eq_refl) in Ev;
      [done | by left]. }
  apply ends_bind.
  apply (ends_for_in (fun _ _ cr1 => tables (cr_db cr1) = tables (cr_db cr))).
  - reflexivity.
  - intros [c cn] rest acc cr1 Ht1.
    apply ends_bind. eapply ends_mono.
    { apply ends_and; [apply IH | apply cascade_shrinks_ends]. }
    intros [n|e] cr2 [Hr (Ht2 & _)]; cbn; [congruence|].
    by rewrite <-Ht1.
  - intros acc cr1 Ht1.
    apply ends_bind, ends_execute.
    destruct (missing (cr_db cr1) (delete_view_data v)) as [t|] eqn:Ed;
      cbn [fst snd].
    { cbn. right. exists t. split; [done|].
      apply (Hmissing _ _ _ Ht1) in Ed; [done | by right]. }
    apply ends_bind, ends_execute. cbn [cr_db].
    destruct (missing _ (delete_view v)) as [t|] eqn:Edv; cbn [fst snd].
    { cbn. right. exists t. split; [done|].
      apply (Hmissing (with_ir_model_data _ _)) in Edv;
        [done | done | by left]. }
    by destruct (head _).
Qed.

(** *** Views without cycles *)

Lemma tc_inherits_row views x y :
  tc (inherits views) x y -> y ∈ view_id <$> views.
Proof.
  intros Htc. apply tc_rtc_r with (z := y) in Htc; [|done].
  induction Htc as [x y (r & Hr & <- & _)|]; [|done].
  apply list_elem_of_fmap. by exists r.
Qed.

(** Without a cycle every chain of views that inherit from one another
    ends. *)
Lemma acyclic_sn views v :
  (∀ x, ¬ tc (inherits views) x x) -> sn (inherits views) v.
Proof.
  intros Hacyclic. apply tc_finite_sn; [done|].
  exists (view_id <$> views). intros y. apply tc_inherits_row.
Qed.

Lemma common_bound (P : nat -> Z -> Prop) (ids : list Z) :
  (∀ bound bound' id, bound ≤ bound' -> P bound id -> P bound' id) ->
  (∀ id, id ∈ ids -> ∃ bound, P bound id) ->
  ∃ bound, ∀ id, id ∈ ids -> P bound id.
Proof.
  intros Hmono. induction ids as [|id ids IH]; intros Hall.
  - exists 0. by intros id ?%elem_of_nil.
  - destruct IH as [b1 Hb1]; [intros id' ?; apply Hall; by right|].
    destruct (Hall id) as [b2 Hb2]; [by left|].
    exists (b1 `max` b2). intros id' [->|Hin]%elem_of_cons.
    + apply (Hmono b2); [lia | done].
    + apply (Hmono b1); [lia | by apply Hb1].
Qed.

Lemma sn_returns_within views v :
  sn (inherits views) v -> ∃ bound, returns_within views bound v.
Proof.
  induction 1 as [v _ IH]. cbn in IH.
  destruct (common_bound (returns_within views)
              (view_id <$> sql_select (child_of v) views)) as [bound Hbound].
  { intros b b' id Hb Hret limit name module cr Hle.
    apply Hret. lia. }
  { intros c (r & -> & [Hp Hr]%elem_of_sql_select)%list_elem_of_fmap.
    apply IH. exists r. by apply bool_decide_eq_true in Hp. }
  exists (S bound). intros [|limit] name module cr Hle Hsub; [lia|].
  rewrite cascade_S.
  change ((cascade_body (_delete_view_cascade limit) v module cr).1
          ≠ Raise RecursionError)
    with (ends (cascade_body (_delete_view_cascade limit) v module) cr
            (fun r _ => r ≠ Raise RecursionError)).
  unfold cascade_body.
  apply ends_bind, ends_execute.
  destruct (missing _ _); [done|]. cbn [fst snd].
  apply ends_bind.
  apply (ends_for_in (fun rest _ cr1 =>
           ir_ui_view (cr_db cr1) `sublist_of` views
           ∧ ∀ c cn, (c, cn) ∈ rest ->
               c ∈ view_id <$> sql_select (child_of v) views)).
  - split; [done|]. intros c cn Hc. cbn in Hc.
    apply list_elem_of_fmap in Hc as (r & [= -> ->] & Hr).
    apply list_elem_of_fmap. exists r. split; [done|].
    apply elem_of_sql_select in Hr as [Hp Hr].
    apply elem_of_sql_select. split; [done|]. by eapply elem_of_sublist.
  - intros [c cn] rest acc cr1 [Hsub1 Hrest].
    apply ends_bind. eapply ends_mono.
    { apply (ends_and _ _ (fun r _ => r ≠ Raise RecursionError));
        [|apply cascade_shrinks_ends].
      apply (Hbound c); [by eapply Hrest; left | lia | done]. }
    intros [n|e] cr2 [Hr Hs]; cbn; [|done].
    split; [etrans; [apply Hs | done]|].
    intros c' cn' Hin. eapply Hrest. by right.
  - intros acc cr1 _.
    apply ends_bind, ends_execute.
    destruct (missing _ _); [done|]. cbn [fst snd].
    apply ends_bind, ends_execute.
    destruct (missing _ _); [done|]. cbn [fst snd].
    by destruct (head _).
Qed.

(** *** Views on a cycle *)

Lemma loops_child views x :
  loops views x -> ∃ c, inherits views x c ∧ loops views c.
Proof.
  intros (y & Hxy & Hyy).
  destruct (rtc_inv _ _ Hxy) as [->|(c & Hxc & Hcy)].
  - inversion Hyy as [? ? Hstep|? c ? Hstep Hrest]; subst.
    + exists y. split; [done|]. by exists y.
    + exists c. split; [done|]. exists c. split; [done|].
      by eapply tc_r.
  - exists c. split; [done|]. by exists y.
Qed.

Lemma loops_before views x y :
  rtc (inherits views) x y -> loops views y -> loops views x.
Proof. intros Hxy (z & Hyz & Hzz). exists z. split; [by etrans | done]. Qed.

Lemma keeps_loops_inherits views views' p c :
  keeps_loops views views' ->
  inherits views p c -> loops views c -> inherits views' p c.
Proof.
  intros Hkeep (r & Hr & <- & Hp) Hc. exists r. split; [|done].
  by apply Hkeep.
Qed.

Lemma keeps_loops_rtc views views' x y :
  keeps_loops views views' ->
  rtc (inherits views) x y -> loops views y -> rtc (inherits views') x y.
Proof.
  intros Hkeep Hxy Hy. induction Hxy as [|x c y Hxc Hcy IH]; [done|].
  eapply rtc_l; [|by apply IH].
  eapply keeps_loops_inherits; [done..|]. by eapply loops_before.
Qed.

Lemma keeps_loops_tc views views' x y :
  keeps_loops views views' ->
  tc (inherits views) x y -> loops views y -> tc (inherits views') x y.
Proof.
  intros Hkeep Hxy Hy. induction Hxy as [x y Hxy|x c y Hxc Hcy IH].
  - apply tc_once. by eapply keeps_loops_inherits.
  - eapply tc_l; [|by apply IH].
    eapply keeps_loops_inherits; [done..|].
    eapply loops_before; [|done]. by apply tc_rtc.
Qed.

Lemma keeps_loops_loops views views' x :
  keeps_loops views views' -> loops views x -> loops views' x.
Proof.
  intros Hkeep (y & Hxy & Hyy).
  assert (loops views y) as Hy by by exists y.
  exists y. split.
  - by eapply keeps_loops_rtc.
  - by eapply keeps_loops_tc.
Qed.

Lemma keeps_loops_trans views1 views2 views3 :
  views2 `sublist_of` views1 ->
  keeps_loops views1 views2 -> keeps_loops views2 views3 ->
  keeps_loops views1 views3.
Proof.
  intros Hsub H12 H23 r Hr Hloops.
  apply H23; [by apply H12|]. by eapply keeps_loops_loops.
Qed.

(** When both relations exist, a cascade keeps the views that loop, and
    a cascade from one of them exceeds every limit. *)
Lemma cascade_loops limit v name module cr :
  "ir_ui_view" ∈ tables (cr_db cr) ->
  "ir_model_data" ∈ tables (cr_db cr) ->
  ends (_delete_view_cascade limit v name module) cr (fun r cr' =>
    keeps_loops (ir_ui_view (cr_db cr)) (ir_ui_view (cr_db cr'))
    ∧ (loops (ir_ui_view (cr_db cr)) v -> r = Raise RecursionError)).
Proof.
  revert v name module cr.
  induction limit as [|limit IH]; intros v name module cr Hv Hd.
  { split; [by intros r|done]. }
  rewrite cascade_S. unfold cascade_body.
  set (views := ir_ui_view (cr_db cr)).
  apply ends_bind, ends_execute.
  rewrite (proj2 (select_child_views_exists _ _) Hv). cbn [fst snd].
  apply ends_bind.
  apply (ends_for_in (fun rest _ cr1 =>
           shrinks (cr_db cr) (cr_db cr1)
           ∧ keeps_loops views (ir_ui_view (cr_db cr1))
           ∧ (loops views v -> ∃ c, c ∈ rest.*1 ∧ loops views c))).
  - split_and!; [reflexivity | by intros r |].
    intros (c & (r & Hr & <- & Hp) & Hc)%loops_child.
    exists (view_id r). split; [|done].
    apply list_elem_of_fmap. exists (view_id r, view_name r).
    split; [done|]. apply list_elem_of_fmap. exists r. split; [done|].
    apply elem_of_sql_select. split; [|done]. by apply bool_decide_eq_true.
  - intros [c cn] rest acc cr1 (Hs1 & Hk1 & Hpending).
    assert (tables (cr_db cr1) = tables (cr_db cr)) as Ht1 by apply Hs1.
    assert (ir_ui_view (cr_db cr1) `sublist_of` views) as Hsub1 by apply Hs1.
    apply ends_bind. eapply ends_mono.
    { apply ends_and; [|apply ends_and].
      - apply IH; by rewrite Ht1.
      - apply cascade_shrinks_ends.
      - apply cascade_raises. }
    intros [n|e] cr2 ([Hk2 Hloop] & Hs2 & Hraise); cbn.
    + split_and!; [by etrans | by eapply keeps_loops_trans |].
      intros (c' & Hin & Hc')%Hpending. cbn in Hin.
      apply elem_of_cons in Hin as [->|Hin]; [|by exists c'].
      discriminate Hloop. by eapply keeps_loops_loops.
    + split; [by eapply keeps_loops_trans|]. intros _.
      destruct Hraise as [-> | (t & -> & Hout & [-> | ->])]; [done|..];
        destruct Hout; by rewrite Ht1.
  - intros acc cr1 (Hs1 & Hk1 & Hpending).
    assert (¬ loops views v) as Hnot.
    { intros (c & Hin & _)%Hpending. by apply elem_of_nil in Hin. }
    assert (tables (cr_db cr1) = tables (cr_db cr)) as Ht1 by apply Hs1.
    apply ends_bind, ends_execute.
    rewrite (proj2 (delete_view_data_exists _ _)) by by rewrite Ht1.
    cbn [fst snd]. apply ends_bind, ends_execute. cbn [cr_db].
    rewrite (proj2 (delete_view_exists _ _)) by (cbn; by rewrite Ht1).
    cbn [fst snd ir_ui_view with_ir_model_data].
    assert (keeps_loops views (sql_delete (has_id v) (ir_ui_view (cr_db cr1))))
      as Hfinal.
    { intros r Hr Hloops. apply elem_of_sql_delete. split; [|by apply Hk1].
      apply bool_decide_eq_false. by intros <-. }
    by destruct (head _).
Qed.

(** Ids that grow along [inherit_id] leave no room for a cycle. *)
Lemma increasing_ids_acyclic views :
  (∀ r p, r ∈ views -> view_inherit_id r = Some p -> (p < view_id r)%Z) ->
  ∀ x, ¬ tc (inherits views) x x.
Proof.
  intros Hinc x Hxx.
  assert (∀ a b, tc (inherits views) a b -> (a < b)%Z) as Hlt.
  { intros a b Hab.
    induction Hab as [a b (r & Hr & <- & Hp)|a c b (r & Hr & <- & Hp) _ IH].
    - by apply Hinc.
    - specialize (Hinc r a Hr Hp). lia. }
  specialize (Hlt x x Hxx). lia.
Qed.

(** C8: on views whose [inherit_id] has no cycle, a call of
    [_delete_view_cascade] ends within some depth of recursion, whatever
    the view: a limit that is large enough is never exceeded, and the call
    returns a count when [ir_ui_view] and [ir_model_data] exist.  From a
    view that reaches a cycle the call exceeds every limit. *)
Theorem delete_view_cascade_terminates :
  (∀ db v,
     (∀ x, ¬ tc (inherits (ir_ui_view db)) x x) ->
     ∃ bound, ∀ limit name module log,
       bound ≤ limit ->
       (_delete_view_cascade limit v name module (mk_cursor db log)).1
       ≠ Raise RecursionError
       ∧ ("ir_ui_view" ∈ tables db -> "ir_model_data" ∈ tables db ->
          ∃ n, (_delete_view_cascade limit v name module
                  (mk_cursor db log)).1 = Ok n))
  ∧ (∀ db v limit name module log,
       "ir_ui_view" ∈ tables db -> "ir_model_data" ∈ tables db ->
       loops (ir_ui_view db) v ->
       (_delete_view_cascade limit v name module (mk_cursor db log)).1
       = Raise RecursionError).
Proof.
  split.
  - intros db v Hacyclic.
    destruct (sn_returns_within (ir_ui_view db) v) as [bound Hbound];
      [by apply acyclic_sn|].
    exists bound. intros limit name module log Hle.
    pose proof (Hbound limit name module (mk_cursor db log) Hle
                  ltac:(reflexivity)) as Hret.
    split; [done|]. intros Hv Hd.
    pose proof (cascade_raises limit v name module (mk_cursor db log))
      as Hraise.
    unfold ends in Hraise.
    destruct (_delete_view_cascade limit v name module (mk_cursor db log)).1
      as [n|e]; [by exists n|].
    by destruct Hraise as [-> | (t & -> & Hout & [-> | ->])].
  - intros db v limit name module log Hv Hd Hloops.
    by apply (cascade_loops limit v name module (mk_cursor db log)).
Qed.

Lemma delete_view_cascade_terminates_witness :
  (∃ bound, ∀ limit name module log,
     bound ≤ limit ->
     (_delete_view_cascade limit 1 name module (mk_cursor family log)).1
     ≠ Raise RecursionError
     ∧ ("ir_ui_view" ∈ tables family -> "ir_model_data" ∈ tables family ->
        ∃ n, (_delete_view_cascade limit 1 name module
                (mk_cursor family log)).1 = Ok n))
  ∧ (_delete_view_cascade 1000 1 "one" None (mk_cursor mutual [])).1
    = Raise RecursionError.
Proof.
  split.
  - apply (proj1 delete_view_cascade_terminates family 1%Z).
    apply increasing_ids_acyclic. intros r p Hr. revert p.
    apply (proj1 (Forall_forall
             (fun r => ∀ p, view_inherit_id r = Some p -> (p < view_id r)%Z)
             (ir_ui_view family))); [|done].
    repeat constructor; intros p [= <-]; reflexivity.
  - apply (proj2 delete_view_cascade_terminates mutual 1%Z).
    + by apply (bool_decide_unpack _).
    + by apply (bool_decide_unpack _).
    + exists 1%Z. split; [apply rtc_refl|].
      apply tc_l with 2%Z; [|apply tc_once].
      * exists (mk_view 2 "two" None (Some 1%Z) None).
        split; [by apply (bool_decide_unpack _) | done].
      * exists (mk_view 1 "one" None (Some 2%Z) None).
        split; [by apply (bool_decide_unpack _) | done].
Defined.

(** *** A database the migration has nothing left to do on *)

Lemma missing_None_elem db st t :
  missing db st = None -> t ∈ relations st -> t ∈ tables db.
Proof. intros E. by apply missing_None. Qed.

Lemma edi_fatturapa_data_set_noupdate r :
  edi_fatturapa_data (set_noupdate r) = false.
Proof.
  unfold edi_fatturapa_data. cbn.
  rewrite (bool_decide_eq_false_2 (Some true = Some false)) by done.
  apply andb_false_r.
Qed.

Lemma linked_edi_format_data_set_noupdate docs r :
  linked_edi_format_data docs (set_noupdate r) = false.
Proof.
  unfold linked_edi_format_data. cbn.
  rewrite (bool_decide_eq_false_2 (Some true = Some false)) by done.
  by rewrite andb_false_r.
Qed.

Lemma fatturapa_cron_ends cr :
  ends _fix_fatturapa_cron cr (fun r cr' =>
    r = Ok () ->
    "ir_cron" ∈ tables (cr_db cr)
    ∧ cr_db cr'
      = with_ir_cron (cr_db cr)
          (sql_update fatturapa_cron
             (fun r => mk_cron (cron_id r) (cron_name r) (Some false))
             (ir_cron (cr_db cr)))).
Proof.
  unfold _fix_fatturapa_cron, disable_fatturapa_cron.
  apply ends_bind, ends_execute.
  destruct (missing _ _) eqn:E; [done|]. cbn. intros _. split; [|done].
  apply (missing_None_elem _ _ _ E). by left.
Qed.

Lemma edi_format_noupdate_ends cr :
  ends _fix_edi_format_noupdate cr (fun r cr' =>
    r = Ok () ->
    let db := cr_db cr in
    let db' := cr_db cr' in
    tables db' = tables db
    ∧ elsewhere db' = elsewhere db
    ∧ ir_cron db' = ir_cron db
    ∧ account_edi_document db' = account_edi_document db
    ∧ ir_model db' = ir_model db
    ∧ ir_model_access db' = ir_model_access db
    ∧ ir_ui_view db' = ir_ui_view db
    ∧ ("account_edi_document" ∈ information_schema_tables db ->
       "ir_model_data" ∈ tables db
       ∧ "account_edi_document" ∈ tables db
       ∧ ∀ r, r ∈ ir_model_data db' ->
           edi_fatturapa_data r = false
           ∧ linked_edi_format_data (account_edi_document db) r = false)).
Proof.
  unfold _fix_edi_format_noupdate, exists_account_edi_document.
  apply ends_bind, ends_execute. cbn [missing relations filter head].
  change (missing (cr_db cr) select_exists_account_edi_document) with
    (@None string). cbn [fst snd].
  case_bool_decide as Hexists; cbn [negb].
  { unfold noupdate_edi_fatturapa, noupdate_edi_formats.
    apply ends_bind, ends_execute. cbn [cr_db].
    destruct (missing _ update_noupdate_edi_fatturapa) eqn:E1; [done|].
    cbn [fst snd].
    apply ends_bind, ends_execute. cbn [cr_db].
    destruct (missing _ update_noupdate_edi_formats) eqn:E2; [done|].
    unfold ends. cbn. intros _.
    split_and!; try done. intros _. split_and!.
    { apply (missing_None_elem _ _ _ E1). by left. }
    { apply (missing_None_elem _ _ _ E2). by right; left. }
    intros r Hr. split.
    - eapply (sql_update_settles _ edi_fatturapa_data); [| |exact Hr].
      + apply edi_fatturapa_data_set_noupdate.
      + intros r' Hr' _.
        eapply (sql_update_settles edi_fatturapa_data edi_fatturapa_data);
          [apply edi_fatturapa_data_set_noupdate | done | exact Hr'].
    - eapply (sql_update_settles _ (linked_edi_format_data _));
        [| |exact Hr]; [apply linked_edi_format_data_set_noupdate|done]. }
  unfold ends. cbn. intros _. by split_and!.
Qed.

Lemma project_delete_wizard_ends cr :
  ends _fix_project_delete_wizard cr (fun r cr' =>
    r = Ok () ->
    let db := cr_db cr in
    let db' := cr_db cr' in
    "ir_model" ∈ tables db
    ∧ tables db' = tables db
    ∧ elsewhere db' = elsewhere db
    ∧ ir_cron db' = ir_cron db
    ∧ account_edi_document db' = account_edi_document db
    ∧ ir_model db' = ir_model db
    ∧ ir_ui_view db' = ir_ui_view db
    ∧ ir_model_data db' `sublist_of` ir_model_data db
    ∧ (sql_select project_delete_wizard (ir_model db) ≠ [] ->
       "ir_model_access" ∈ tables db
       ∧ "ir_model_data" ∈ tables db
       ∧ (∀ r, r ∈ ir_model_access db' ->
            project_delete_wizard_access (ir_model db) r = false)
       ∧ (∀ r, r ∈ ir_model_data db' ->
            project_delete_wizard_data r = false))).
Proof.
  unfold _fix_project_delete_wizard, find_project_delete_wizard.
  apply ends_bind, ends_execute.
  destruct (missing _ select_project_delete_wizard) eqn:E0; [done|].
  cbn [fst snd].
  assert ("ir_model" ∈ tables (cr_db cr)) as Hm.
  { apply (missing_None_elem _ _ _ E0). by left. }
  destruct (sql_select project_delete_wizard (ir_model (cr_db cr)))
    as [|m ms] eqn:Esel; cbn [fmap list_fmap].
  { unfold ends. cbn. intros _. by split_and!. }
  unfold delete_project_delete_wizard_access,
    delete_project_delete_wizard_data.
  apply ends_bind, ends_execute. cbn [cr_db].
  destruct (missing _ delete_access_project_delete_wizard) eqn:E1; [done|].
  cbn [fst snd].
  apply ends_bind, ends_execute. cbn [cr_db].
  destruct (missing _ delete_data_project_delete_wizard) eqn:E2; [done|].
  unfold ends. cbn. intros _.
  split_and!; try done; [apply sql_delete_sublist|]. intros _.
  split_and!.
  - apply (missing_None_elem _ _ _ E1). by left.
  - apply (missing_None_elem _ _ _ E2). by left.
  - intros r Hr. by apply elem_of_sql_delete in Hr as [? _].
  - intros r Hr. by apply elem_of_sql_delete in Hr as [? _].
Qed.

Lemma left_join_data_id data r :
  view_id r ∈ (left_join_data data r).*1.*1.
Proof.
  unfold left_join_data. destruct (sql_select _ data) as [|d ds]; cbn.
  - by left.
  - by left.
Qed.

Lemma find_settings_views_ids pattern views data r :
  r ∈ views -> settings_view pattern r = true ->
  view_id r
  ∈ (sql_select (settings_view pattern) views ≫= left_join_data data).*1.*1.
Proof.
  intros Hr Hp.
  pose proof (left_join_data_id data r) as Hid.
  apply list_elem_of_fmap in Hid as (y & Ey & Hy).
  apply list_elem_of_fmap in Hy as (z & -> & Hz).
  apply list_elem_of_fmap. exists z.1. split; [done|].
  apply list_elem_of_fmap. exists z. split; [done|].
  apply list_elem_of_bind. exists r. split; [done|].
  by apply elem_of_sql_select.
Qed.

(** When the loop over the patterns returns, the relations it names
    exist and no view is selected by any of the patterns. *)
Lemma settings_views_loop_ends limit patterns total cr :
  ends (settings_views_loop limit patterns total) cr (fun r cr' =>
    (∃ n, r = Ok n) ->
    shrinks (cr_db cr) (cr_db cr')
    ∧ ∀ pattern, pattern ∈ patterns ->
        "ir_ui_view" ∈ tables (cr_db cr)
        ∧ "ir_model_data" ∈ tables (cr_db cr)
        ∧ ∀ r, r ∈ ir_ui_view (cr_db cr') ->
               settings_view pattern r = false).
Proof.
  unfold settings_views_loop. set (db := cr_db cr).
  apply (ends_for_in (fun rest _ cr1 =>
           shrinks db (cr_db cr1)
           ∧ ∀ pattern, pattern ∈ patterns ->
               pattern ∈ rest
               ∨ ("ir_ui_view" ∈ tables db
                  ∧ "ir_model_data" ∈ tables db
                  ∧ ∀ r, r ∈ ir_ui_view (cr_db cr1) ->
                         settings_view pattern r = false))).
  - split; [reflexivity | by left].
  - intros pattern rest acc cr1 [Hs1 Hdone].
    apply ends_bind, ends_execute.
    destruct (missing (cr_db cr1) (select_settings_views pattern)) eqn:E;
      [by intros [? [=]]|].
    cbn [fst snd].
    assert ("ir_ui_view" ∈ tables db ∧ "ir_model_data" ∈ tables db)
      as [Hv Hd].
    { destruct Hs1 as [<- _].
      split; apply (missing_None_elem _ _ _ E); cbn;
        [by left | by right; left]. }
    apply (ends_for_in (fun views _ cr2 =>
             shrinks (cr_db cr1) (cr_db cr2)
             ∧ ∀ r, r ∈ ir_ui_view (cr_db cr2) ->
                    settings_view pattern r = true ->
                    view_id r ∈ views.*1.*1)).
    + split; [reflexivity|]. intros r Hr Hp.
      by apply find_settings_views_ids.
    + intros [[id name] module] views acc' cr2 [Hs2 Hleft].
      apply ends_bind. eapply ends_mono.
      { apply ends_and; [apply cascade_cascaded|apply cascade_shrinks_ends]. }
      intros [n|e] cr3 [Hk Hs3]; cbn; [|by intros [? [=]]].
      split; [by etrans|]. intros r Hr Hp.
      assert (r ∈ ir_ui_view (cr_db cr2)) as Hr2.
      { eapply elem_of_sublist; [done|]. apply Hs3. }
      specialize (Hleft r Hr2 Hp). cbn in Hleft.
      apply elem_of_cons in Hleft as [E'|?]; [|done].
      destruct Hk as [Hgone _]. destruct Hgone.
      apply list_elem_of_fmap. exists r. by rewrite <-E'.
    + intros acc' cr2 [Hs2 Hleft]. split; [by etrans|].
      intros p Hp. destruct (Hdone p Hp) as [Hin|(_ & _ & Hnone)].
      * apply elem_of_cons in Hin as [->|Hin]; [|by left].
        right. split_and!; [done..|]. intros r Hr.
        destruct (settings_view pattern r) eqn:Er; [|done].
        specialize (Hleft r Hr Er). by apply elem_of_nil in Hleft.
      * right. split_and!; [done..|]. intros r Hr. apply Hnone.
        eapply elem_of_sublist; [done|]. apply Hs2.
  - intros acc cr1 [Hs1 Hdone] _. split; [done|].
    intros p Hp. destruct (Hdone p Hp) as [Hin|?]; [|done].
    by apply elem_of_nil in Hin.
Qed.

Lemma settled_shrinks db db' :
  shrinks db db' ->
  "ir_cron" ∈ tables db -> "ir_model" ∈ tables db ->
  (∀ r, r ∈ ir_cron db -> fatturapa_cron r = false) ->
  ("account_edi_document" ∈ information_schema_tables db ->
   "account_edi_document" ∈ tables db
   ∧ ∀ r, r ∈ ir_model_data db ->
       edi_fatturapa_data r = false
       ∧ linked_edi_format_data (account_edi_document db) r = false) ->
  (sql_select project_delete_wizard (ir_model db) ≠ [] ->
   "ir_model_access" ∈ tables db
   ∧ (∀ r, r ∈ ir_model_access db ->
        project_delete_wizard_access (ir_model db) r = false)
   ∧ (∀ r, r ∈ ir_model_data db -> project_delete_wizard_data r = false)) ->
  (∀ pattern, pattern ∈ problematic_patterns ->
     "ir_ui_view" ∈ tables db
     ∧ "ir_model_data" ∈ tables db
     ∧ ∀ r, r ∈ ir_ui_view db' -> settings_view pattern r = false) ->
  settled db'.
Proof.
  intros (Ht & Hx & Hc & He & Hm & Ha & Hd & Hv) Hcron Hmodel H1 H2 H3 H4.
  destruct (H4 "%hasclass('settings')%") as (Hview & Hdata & _);
    [by left|].
  unfold settled, information_schema_tables. rewrite Ht, Hx, Hc, He, Hm, Ha.
  split_and!; [done..| | |].
  - intros Hedi. destruct (H2 Hedi) as [Hres Hrows]. split; [done|].
    intros r Hr. apply Hrows. by eapply elem_of_sublist.
  - intros Hsel. destruct (H3 Hsel) as (? & ? & Hdata3).
    split_and!; [done..|]. intros r Hr. apply Hdata3.
    by eapply elem_of_sublist.
  - intros p r Hp Hr. by apply (H4 p).
Qed.

(** A migration that returns leaves a settled database. *)
Lemma migrate_settles limit version cr :
  falsy version = false ->
  ends (migrate limit version) cr (fun r cr' =>
    r = Ok () -> settled (cr_db cr')).
Proof.
  intros Hversion. unfold migrate. rewrite Hversion.
  apply ends_bind. eapply ends_mono; [apply fatturapa_cron_ends|].
  intros [[]|e] cr1 H1; [|done]. destruct H1 as [Hcron Hdb1]; [done|].
  apply ends_bind. eapply ends_mono; [apply edi_format_noupdate_ends|].
  intros [[]|e] cr2 H2; [|done].
  destruct H2 as (Ht2 & Hx2 & Hc2 & He2 & Hm2 & Ha2 & Hv2 & Hedi); [done|].
  apply ends_bind. eapply ends_mono; [apply project_delete_wizard_ends|].
  intros [[]|e] cr3 H3; [|done].
  destruct H3 as (Hmodel & Ht3 & Hx3 & Hc3 & He3 & Hm3 & Hv3 & Hd3 & Hwiz);
    [done|].
  apply ends_bind. eapply ends_mono;
    [apply (settings_views_loop_ends limit problematic_patterns 0)|].
  intros [n|e] cr4 H4; [|done]. destruct H4 as [Hs4 H4]; [by exists n|].
  unfold ends. cbn. intros _.
  assert (tables (cr_db cr3) = tables (cr_db cr)) as Ht.
  { rewrite Ht3, Ht2, Hdb1. done. }
  apply (settled_shrinks (cr_db cr3));
    [done | by rewrite Ht | by rewrite Ht3 | | | | done].
  - rewrite Hc3, Hc2, Hdb1. cbn. intros r Hr.
    eapply (sql_update_settles fatturapa_cron fatturapa_cron);
      [|done|exact Hr].
    intros r'. unfold fatturapa_cron. cbn.
    rewrite (bool_decide_eq_false_2 (Some false = Some true)) by done.
    apply andb_false_r.
  - unfold information_schema_tables. rewrite Ht3, Hx3, He3.
    intros Hexists.
    destruct Hedi as (_ & Hres & Hedi);
      [by unfold information_schema_tables; rewrite <-Ht2, <-Hx2|].
    split; [by rewrite Ht2|]. intros r Hr.
    rewrite He2. rewrite Hdb1 in Hedi. cbn in Hedi.
    rewrite Hdb1. cbn. apply Hedi. by eapply elem_of_sublist.
  - rewrite Hm3. intros Hsel.
    destruct (Hwiz Hsel) as (? & ? & ? & ?).
    split_and!; [by rewrite Ht3 | done..].
Qed.

(** On a settled database the migration returns and changes nothing,
    whatever the limit of recursion. *)
Lemma migrate_settled limit version db log :
  falsy version = false -> settled db ->
  ∃ log', migrate limit version (mk_cursor db log)
          = (Ok (), mk_cursor db log').
Proof.
  intros Hversion (Hc & Hm & Hv & Hd & H1 & H2 & H3 & H4).
  unfold migrate. rewrite Hversion.
  erewrite bind_ok; [|by apply fatturapa_cron_nothing]. cbn [cr_db cr_log].
  assert (∃ log2, _fix_edi_format_noupdate
                    (mk_cursor db (log ++ [update_fatturapa_cron]))
                  = (Ok (), mk_cursor db log2)) as [log2 E2].
  { destruct (decide ("account_edi_document" ∈ information_schema_tables db))
      as [Hedi|Hedi].
    - destruct (H2 Hedi) as [Hres H2'].
      unfold _fix_edi_format_noupdate, exists_account_edi_document,
        noupdate_edi_fatturapa, noupdate_edi_formats.
      erewrite bind_ok; [|by apply execute_ok]. cbn [fst snd cr_db].
      rewrite bool_decide_eq_true_2 by done. cbn [negb].
      erewrite bind_ok; [|apply execute_ok; cbn [cr_db]; relations_exist].
      cbn [fst snd cr_db].
      rewrite sql_update_none by (intros r Hr; by apply H2').
      rewrite with_ir_model_data_same.
      erewrite bind_ok; [|apply execute_ok; cbn [cr_db]; relations_exist].
      cbn [fst snd cr_db].
      rewrite sql_update_none by (intros r Hr; by apply H2').
      rewrite with_ir_model_data_same. by eexists.
    - rewrite edi_format_noupdate_nothing by done. by eexists. }
  erewrite bind_ok; [|exact E2].
  assert (∃ log3, _fix_project_delete_wizard (mk_cursor db log2)
                  = (Ok (), mk_cursor db log3)) as [log3 E3].
  { destruct (sql_select project_delete_wizard (ir_model db)) as [|m ms]
      eqn:Esel.
    - rewrite project_delete_wizard_nothing; [by eexists | done |].
      by apply sql_select_none.
    - destruct H3 as (Ha & Haccess & Hdata); [done|].
      unfold _fix_project_delete_wizard, find_project_delete_wizard,
        delete_project_delete_wizard_access,
        delete_project_delete_wizard_data.
      erewrite bind_ok; [|apply execute_ok; cbn [cr_db]; relations_exist].
      cbn [fst snd cr_db]. rewrite Esel. cbn [fmap list_fmap].
      erewrite bind_ok; [|apply execute_ok; cbn [cr_db]; relations_exist].
      cbn [fst snd cr_db].
      rewrite sql_delete_none by done.
      rewrite with_ir_model_access_same.
      erewrite bind_ok; [|apply execute_ok; cbn [cr_db]; relations_exist].
      cbn [fst snd cr_db].
      rewrite sql_delete_none by done.
      rewrite with_ir_model_data_same. by eexists. }
  erewrite bind_ok; [|exact E3].
  erewrite bind_ok; [|by apply settings_views_nothing].
  by eexists.
Qed.

(** *** The migration as a whole *)

Lemma fatturapa_cron_core cr :
  "ir_cron" ∈ tables (cr_db cr) ->
  ends _fix_fatturapa_cron cr (fun r cr' =>
    r = Ok () ∧ tables (cr_db cr') = tables (cr_db cr)
    ∧ elsewhere (cr_db cr') = elsewhere (cr_db cr)).
Proof.
  intros Hc. unfold _fix_fatturapa_cron, disable_fatturapa_cron.
  apply ends_bind, ends_execute.
  assert (missing (cr_db cr) update_fatturapa_cron = None) as ->
    by relations_exist.
  done.
Qed.

Lemma edi_format_noupdate_core cr :
  "ir_model_data" ∈ tables (cr_db cr) ->
  edi_document_on_path (cr_db cr) ->
  ends _fix_edi_format_noupdate cr (fun r cr' =>
    r = Ok () ∧ tables (cr_db cr') = tables (cr_db cr)).
Proof.
  intros Hd Hpath.
  unfold _fix_edi_format_noupdate, exists_account_edi_document.
  apply ends_bind, ends_execute.
  change (missing (cr_db cr) select_exists_account_edi_document) with
    (@None string). cbn [fst snd].
  case_bool_decide as Hexists; cbn [negb]; [|done].
  apply Hpath in Hexists.
  unfold noupdate_edi_fatturapa, noupdate_edi_formats.
  apply ends_bind, ends_execute. cbn [cr_db].
  assert (missing (cr_db cr) update_noupdate_edi_fatturapa = None) as ->
    by relations_exist.
  cbn [fst snd]. apply ends_bind, ends_execute. cbn [cr_db].
  assert (missing
            (with_ir_model_data (cr_db cr)
               (sql_update edi_fatturapa_data set_noupdate
                  (ir_model_data (cr_db cr))))
            update_noupdate_edi_formats = None) as ->
    by (cbn [cr_db]; relations_exist).
  done.
Qed.

Lemma project_delete_wizard_core cr :
  "ir_model" ∈ tables (cr_db cr) ->
  "ir_model_access" ∈ tables (cr_db cr) ->
  "ir_model_data" ∈ tables (cr_db cr) ->
  ends _fix_project_delete_wizard cr (fun r cr' =>
    r = Ok () ∧ tables (cr_db cr') = tables (cr_db cr)).
Proof.
  intros Hm Ha Hd.
  unfold _fix_project_delete_wizard, find_project_delete_wizard.
  apply ends_bind, ends_execute.
  assert (missing (cr_db cr) select_project_delete_wizard = None) as ->
    by relations_exist.
  cbn [fst snd].
  destruct (sql_select project_delete_wizard (ir_model (cr_db cr)));
    cbn [fmap list_fmap]; [done|].
  unfold delete_project_delete_wizard_access,
    delete_project_delete_wizard_data.
  apply ends_bind, ends_execute. cbn [cr_db].
  assert (missing (cr_db cr) delete_access_project_delete_wizard = None)
    as -> by relations_exist.
  cbn [fst snd]. apply ends_bind, ends_execute. cbn [cr_db].
  assert (missing
            (with_ir_model_access (cr_db cr)
               (sql_delete (project_delete_wizard_access (ir_model (cr_db cr)))
                  (ir_model_access (cr_db cr))))
            delete_data_project_delete_wizard = None) as ->
    by (cbn [cr_db]; relations_exist).
  done.
Qed.

Lemma settings_views_core limit cr :
  "ir_ui_view" ∈ tables (cr_db cr) ->
  "ir_model_data" ∈ tables (cr_db cr) ->
  ends (_fix_incompatible_settings_views limit) cr (fun r _ =>
    ∀ t, r ≠ Raise (UndefinedTable t)).
Proof.
  intros Hv Hd. unfold _fix_incompatible_settings_views.
  apply (ends_for_in (fun _ _ cr1 => tables (cr_db cr1) = tables (cr_db cr)));
    [done| |done].
  intros pattern rest acc cr1 Ht1.
  apply ends_bind, ends_execute.
  assert (missing (cr_db cr1) (select_settings_views pattern) = None) as ->.
  { rewrite <-Ht1 in Hv, Hd. relations_exist. }
  cbn [fst snd].
  apply (ends_for_in (fun _ _ cr2 => tables (cr_db cr2) = tables (cr_db cr)));
    [done| |done].
  intros [[id name] module] views acc' cr2 Ht2.
  apply ends_bind. eapply ends_mono.
  { apply ends_and; [apply cascade_raises | apply cascade_shrinks_ends]. }
  intros [n|e] cr3 [Hraise (Ht3 & _)]; cbn; [congruence|].
  intros t [= ->]. destruct Hraise as [|(t' & [= <-] & Hout & [-> | ->])];
    [done|..]; destruct Hout; by rewrite Ht2.
Qed.

(** With its two relations in place and every view within [bound], the
    step returns. *)
Lemma settings_views_returns limit bound cr :
  "ir_ui_view" ∈ tables (cr_db cr) ->
  "ir_model_data" ∈ tables (cr_db cr) ->
  (∀ id, id ∈ view_id <$> ir_ui_view (cr_db cr) ->
     returns_within (ir_ui_view (cr_db cr)) bound id) ->
  bound ≤ limit ->
  ends (_fix_incompatible_settings_views limit) cr (fun r _ =>
    ∃ n, r = Ok n).
Proof.
  intros Hv Hd Hbound Hle. unfold _fix_incompatible_settings_views.
  apply (ends_for_in (fun _ _ cr1 => shrinks (cr_db cr) (cr_db cr1)));
    [reflexivity| |by eexists].
  intros pattern rest acc cr1 Hs1.
  apply ends_bind, ends_execute.
  assert (missing (cr_db cr1) (select_settings_views pattern) = None) as ->.
  { destruct Hs1 as [Ht1 _]. rewrite <-Ht1 in Hv, Hd. relations_exist. }
  cbn [fst snd].
  apply (ends_for_in (fun views _ cr2 =>
           shrinks (cr_db cr) (cr_db cr2)
           ∧ ∀ id name module, (id, name, module) ∈ views ->
               id ∈ view_id <$> ir_ui_view (cr_db cr)));
    [|  |by intros ? ? [? _]].
  - split; [done|]. intros id name module Hin.
    apply list_elem_of_bind in Hin as (r & Hin & Hr).
    apply elem_of_left_join_data in Hin as [-> _].
    apply elem_of_sql_select in Hr as [_ Hr].
    apply list_elem_of_fmap. exists r. split; [done|].
    eapply elem_of_sublist; [done|]. apply Hs1.
  - intros [[id name] module] views acc' cr2 [Hs2 Hviews].
    apply ends_bind. eapply ends_mono.
    { apply (ends_and _ _ (fun r _ => r ≠ Raise RecursionError));
        [|apply ends_and; [apply cascade_raises | apply cascade_shrinks_ends]].
      apply (Hbound id); [by eapply Hviews; left | done | apply Hs2]. }
    intros [n|e] cr3 (Hlimit & Hraise & Hs3); cbn.
    + split; [by etrans|]. intros id' name' module' Hin.
      eapply Hviews. by right.
    + destruct Hraise as [-> | (t & -> & Hout & [-> | ->])];
        [done|..]; destruct Hout; destruct Hs2 as [-> _]; done.
Qed.

(** On a database with the relations of the framework and no cycle among
    its views, where a table [account_edi_document], if there is one, is
    on the search path, [migrate] returns when the limit of recursion is
    large enough. *)
Lemma migrate_returns db :
  core_relations db ->
  edi_document_on_path db ->
  (∀ x, ¬ tc (inherits (ir_ui_view db)) x x) ->
  ∃ bound, ∀ limit version log,
    bound ≤ limit ->
    ∃ cr', migrate limit version (mk_cursor db log) = (Ok (), cr').
Proof.
  intros (Hc & Hd & Hm & Ha & Hv) Hpath Hacyclic.
  destruct (common_bound (returns_within (ir_ui_view db))
              (view_id <$> ir_ui_view db)) as [bound Hbound].
  { intros b b' id Hb Hret limit name module cr Hle. apply Hret. lia. }
  { intros id _. by apply sn_returns_within, acyclic_sn. }
  exists bound. intros limit version log Hle.
  set (cr := mk_cursor db log).
  assert (ends (migrate limit version) cr (fun r _ => r = Ok ())) as Hrun.
  { unfold migrate. destruct (falsy version); [done|].
    apply ends_bind. eapply ends_mono.
    { apply ends_and; [by apply fatturapa_cron_core
                      |apply fatturapa_cron_ends]. }
    intros r1 cr1 [(-> & Ht1 & Hx1) H1]. destruct H1 as [_ Hdb1]; [done|].
    apply ends_bind. eapply ends_mono.
    { apply ends_and; [apply edi_format_noupdate_core|
                       apply edi_format_noupdate_ends].
      - by rewrite Ht1.
      - unfold edi_document_on_path, information_schema_tables.
        by rewrite Ht1, Hx1. }
    intros r2 cr2 [[-> Ht2] H2].
    destruct H2 as (_ & _ & _ & _ & _ & _ & Hv2 & _); [done|].
    rewrite Ht1 in Ht2.
    apply ends_bind. eapply ends_mono.
    { apply ends_and; [apply project_delete_wizard_core; by rewrite Ht2
                      |apply project_delete_wizard_ends]. }
    intros r3 cr3 [[-> Ht3] H3].
    destruct H3 as (_ & _ & _ & _ & _ & _ & Hv3 & _); [done|].
    rewrite Ht2 in Ht3.
    assert (ir_ui_view (cr_db cr3) = ir_ui_view db) as Hviews.
    { rewrite Hv3, Hv2, Hdb1. done. }
    apply ends_bind. eapply ends_mono.
    { apply (settings_views_returns limit bound);
        [by rewrite Ht3 | by rewrite Ht3 | by rewrite Hviews | done]. }
    by intros [n|e] cr4 [n' [=]]. }
  unfold ends in Hrun. destruct (migrate limit version cr) as [r cr'].
  cbn in Hrun. subst r. by exists cr'.
Qed.

(** C10: called without a version ([None] or the empty string),
    [migrate] returns at once: the cursor is as it was, with the same
    database and no statement executed. *)
Theorem migrate_without_version limit cr :
  migrate limit None cr = (Ok (), cr)
  ∧ migrate limit (Some "") cr = (Ok (), cr).
Proof. by split. Qed.

(** C4: when a run of [migrate] with a version returns, a second run on
    the database it leaves returns too, whatever the limit of recursion,
    and leaves this database as it is.  (By [migrate_returns] the first
    run does return on a database with the relations of the framework
    and no cycle among its views, where a table [account_edi_document],
    if there is one, is on the search path.) *)
Theorem migrate_idempotent limit version cr cr1 :
  falsy version = false ->
  migrate limit version cr = (Ok (), cr1) ->
  ∀ limit', ∃ cr2,
    migrate limit' version cr1 = (Ok (), cr2) ∧ cr_db cr2 = cr_db cr1.
Proof.
  intros Hversion Hrun limit'.
  pose proof (migrate_settles limit version cr Hversion) as Hsettled.
  unfold ends in Hsettled. rewrite Hrun in Hsettled.
  specialize (Hsettled eq_refl). destruct cr1 as [db1 log1].
  destruct (migrate_settled limit' version db1 log1) as [log2 Hrun2];
    [done..|].
  by exists (mk_cursor db1 log2).
Qed.

Lemma migrate_idempotent_witness :
  ∃ cr2,
    migrate 0 (Some "16.0.1.3")
      (migrate 3 (Some "16.0.1.3") (mk_cursor legacy [])).2
    = (Ok (), cr2)
    ∧ cr_db cr2
      = cr_db (migrate 3 (Some "16.0.1.3") (mk_cursor legacy [])).2.
Proof.
  refine (migrate_idempotent 3 (Some "16.0.1.3") (mk_cursor legacy [])
            (migrate 3 (Some "16.0.1.3") (mk_cursor legacy [])).2 _ _ 0).
  - reflexivity.
  - vm_compute. reflexivity.
Defined.

Lemma migrate_core limit version cr :
  core_relations (cr_db cr) ->
  edi_document_on_path (cr_db cr) ->
  ends (migrate limit version) cr (fun r _ =>
    ∀ t, r ≠ Raise (UndefinedTable t)).
Proof.
  intros (Hc & Hd & Hm & Ha & Hv) Hpath. unfold migrate.
  destruct (falsy version); [done|].
  apply ends_bind. eapply ends_mono; [by apply fatturapa_cron_core|].
  intros r1 cr1 (-> & Ht1 & Hx1).
  apply ends_bind. eapply ends_mono.
  { apply edi_format_noupdate_core; [by rewrite Ht1|].
    unfold edi_document_on_path, information_schema_tables.
    by rewrite Ht1, Hx1. }
  intros r2 cr2 [-> Ht2]. rewrite Ht1 in Ht2.
  apply ends_bind. eapply ends_mono;
    [apply project_delete_wizard_core; by rewrite Ht2|].
  intros r3 cr3 [-> Ht3]. rewrite Ht2 in Ht3.
  apply ends_bind. eapply ends_mono;
    [apply settings_views_core; by rewrite Ht3|].
  intros [n|e] cr4 Hr; [done|]. intros t [= ->]. by apply (Hr t).
Qed.

(** C5 as stated fails.  [_fix_fatturapa_cron] has no check of its own:
    on a database with no cron job at all its one statement is the
    UPDATE, not a query; and where the relation [ir_cron] does not exist
    the statement fails with a SQL error.  The check that
    [_fix_edi_format_noupdate] does make asks [information_schema.tables]
    for the name in any schema: with a table [account_edi_document] that
    is in a schema off the search path the check passes and the second
    UPDATE fails with a SQL error, although the five relations of the
    framework are there. *)
Lemma fatturapa_cron_unchecked :
  ¬ (∀ cr,
       "ir_cron" ∈ tables (cr_db cr) ->
       (∀ r, r ∈ ir_cron (cr_db cr) -> fatturapa_cron r = false) ->
       ∃ check, is_select check = true
                ∧ _fix_fatturapa_cron cr
                  = (Ok (), mk_cursor (cr_db cr) (cr_log cr ++ [check])))
  ∧ ¬ (∀ cr t,
         (∀ r, r ∈ ir_cron (cr_db cr) -> fatturapa_cron r = false) ->
         (_fix_fatturapa_cron cr).1 ≠ Raise (UndefinedTable t))
  ∧ ¬ (∀ cr t,
         core_relations (cr_db cr) ->
         (_fix_edi_format_noupdate cr).1 ≠ Raise (UndefinedTable t)).
Proof.
  split_and!; intros Hc.
  - destruct (Hc (mk_cursor (mk_database ["ir_cron"] [] [] [] [] [] [] []) []))
      as (check & Hselect & Hrun).
    + by left.
    + by intros r ?%elem_of_nil.
    + cbn in Hrun. injection Hrun as <-. discriminate Hselect.
  - apply (Hc (mk_cursor (mk_database [] [] [] [] [] [] [] []) []) "ir_cron").
    + by intros r ?%elem_of_nil.
    + reflexivity.
  - apply (Hc (mk_cursor off_path []) "account_edi_document").
    + split_and!; by apply (bool_decide_unpack _).
    + reflexivity.
Qed.

(** C5, amended: a step with nothing to do leaves the database as it
    is.  [_fix_edi_format_noupdate] and [_fix_project_delete_wizard]
    check first (that [information_schema.tables] lists a table
    [account_edi_document], that [ir_model] has the wizard) and execute
    nothing more when the check fails; [_fix_fatturapa_cron] executes its
    one UPDATE, which selects no row, and
    [_fix_incompatible_settings_views] its four queries, which find no
    view.  No step fails with a SQL error when the five relations of the
    framework are in place and [account_edi_document], if the database
    has a table of that name, is on the search path.  When it is not,
    the check of the second step passes all the same, and the step
    raises at its second UPDATE, after the first has been executed. *)
Theorem steps_with_nothing_to_do :
  (∀ cr,
     "ir_cron" ∈ tables (cr_db cr) ->
     (∀ r, r ∈ ir_cron (cr_db cr) -> fatturapa_cron r = false) ->
     _fix_fatturapa_cron cr
     = (Ok (), mk_cursor (cr_db cr) (cr_log cr ++ [update_fatturapa_cron])))
  ∧ (∀ cr,
       "account_edi_document" ∉ information_schema_tables (cr_db cr) ->
       _fix_edi_format_noupdate cr
       = (Ok (), mk_cursor (cr_db cr)
                   (cr_log cr ++ [select_exists_account_edi_document])))
  ∧ (∀ cr,
       "ir_model" ∈ tables (cr_db cr) ->
       (∀ r, r ∈ ir_model (cr_db cr) -> project_delete_wizard r = false) ->
       _fix_project_delete_wizard cr
       = (Ok (), mk_cursor (cr_db cr)
                   (cr_log cr ++ [select_project_delete_wizard])))
  ∧ (∀ limit cr,
       "ir_ui_view" ∈ tables (cr_db cr) ->
       "ir_model_data" ∈ tables (cr_db cr) ->
       (∀ pattern r, pattern ∈ problematic_patterns ->
          r ∈ ir_ui_view (cr_db cr) -> settings_view pattern r = false) ->
       _fix_incompatible_settings_views limit cr
       = (Ok 0, mk_cursor (cr_db cr)
                  (cr_log cr
                   ++ (select_settings_views <$> problematic_patterns))))
  ∧ (∀ limit version cr t,
       core_relations (cr_db cr) ->
       edi_document_on_path (cr_db cr) ->
       (migrate limit version cr).1 ≠ Raise (UndefinedTable t))
  ∧ (∀ cr,
       "account_edi_document" ∈ elsewhere (cr_db cr) ->
       "account_edi_document" ∉ tables (cr_db cr) ->
       "ir_model_data" ∈ tables (cr_db cr) ->
       _fix_edi_format_noupdate cr
       = (Raise (UndefinedTable "account_edi_document"),
          mk_cursor
            (with_ir_model_data (cr_db cr)
               (sql_update edi_fatturapa_data set_noupdate
                  (ir_model_data (cr_db cr))))
            (cr_log cr ++ [select_exists_account_edi_document;
                           update_noupdate_edi_fatturapa;
                           update_noupdate_edi_formats]))).
Proof.
  split_and!.
  - apply fatturapa_cron_nothing.
  - apply edi_format_noupdate_nothing.
  - apply project_delete_wizard_nothing.
  - apply settings_views_nothing.
  - intros limit version cr t Hcore Hpath. by apply migrate_core.
  - intros cr Hx Ht Hd.
    unfold _fix_edi_format_noupdate, exists_account_edi_document,
      noupdate_edi_fatturapa, noupdate_edi_formats.
    erewrite bind_ok; [|by apply execute_ok]. cbn [fst snd cr_db cr_log].
    rewrite bool_decide_eq_true_2
      by (apply elem_of_app; by right).
    cbn [negb].
    erewrite bind_ok; [|apply execute_ok; cbn [cr_db]; relations_exist].
    cbn [fst snd cr_db cr_log].
    erewrite bind_raise.
    2:{ apply execute_missing. unfold missing.
        cbn [cr_db relations tables with_ir_model_data].
        rewrite !filter_cons, filter_nil.
        rewrite decide_False by (intros H; by apply H).
        by rewrite decide_True. }
    cbn [cr_log cr_db]. by rewrite <-!(assoc_L (++)).
Qed.

Lemma steps_with_nothing_to_do_witness :
  _fix_fatturapa_cron (mk_cursor no_rows [])
  = (Ok (), mk_cursor no_rows [update_fatturapa_cron])
  ∧ _fix_edi_format_noupdate (mk_cursor no_rows [])
    = (Ok (), mk_cursor no_rows [select_exists_account_edi_document])
  ∧ _fix_project_delete_wizard (mk_cursor no_rows [])
    = (Ok (), mk_cursor no_rows [select_project_delete_wizard])
  ∧ _fix_incompatible_settings_views 0 (mk_cursor no_rows [])
    = (Ok 0, mk_cursor no_rows (select_settings_views <$> problematic_patterns))
  ∧ (migrate 3 (Some "16.0.1.3") (mk_cursor legacy [])).1
    ≠ Raise (UndefinedTable "ir_cron")
  ∧ (_fix_edi_format_noupdate (mk_cursor off_path [])).1
    = Raise (UndefinedTable "account_edi_document").
Proof.
  destruct steps_with_nothing_to_do as (H1 & H2 & H3 & H4 & H5 & H6).
  split_and!.
  - apply (H1 (mk_cursor no_rows [])).
    + by apply (bool_decide_unpack _).
    + intros r Hr. by apply elem_of_nil in Hr.
  - apply (H2 (mk_cursor no_rows [])). by apply (bool_decide_unpack _).
  - apply (H3 (mk_cursor no_rows [])).
    + by apply (bool_decide_unpack _).
    + intros r Hr. by apply elem_of_nil in Hr.
  - apply (H4 0 (mk_cursor no_rows [])).
    + by apply (bool_decide_unpack _).
    + by apply (bool_decide_unpack _).
    + intros pattern r _ Hr. by apply elem_of_nil in Hr.
  - apply H5.
    + split_and!; by apply (bool_decide_unpack _).
    + intros _. by apply (bool_decide_unpack _).
  - rewrite (H6 (mk_cursor off_path [])); [done|..];
      by apply (bool_decide_unpack _).
Defined.

(** *** Further properties: what LIKE selects *)

Lemma append_cons (c : ascii) (s1 s2 : string) :
  String c s1 +:+ s2 = String c (s1 +:+ s2).
Proof. reflexivity. Qed.

Lemma append_nil_l (s : string) : "" +:+ s = s.
Proof. reflexivity. Qed.

Lemma append_nil_r (s : string) : s +:+ "" = s.
Proof.
  induction s as [|c s IH]; [done|]. by rewrite append_cons, IH.
Qed.

Lemma append_assoc (s1 s2 s3 : string) :
  (s1 +:+ s2) +:+ s3 = s1 +:+ s2 +:+ s3.
Proof.
  induction s1 as [|c s1 IH]; [done|]. by rewrite !append_cons, IH.
Qed.

Lemma append_empty (s1 s2 : string) : s1 +:+ s2 = "" -> s1 = "" ∧ s2 = "".
Proof. by destruct s1. Qed.

(** The places of a text where what follows a [%] is tried: the place
    where the [%] is met, and the start of every character after it. *)
Lemma any_run_true (rest : string -> bool) (here : bool) (t : string) :
  any_run rest here t = true
  <-> ∃ pre post,
        t = pre +:+ post
        ∧ match pre with
          | EmptyString => here
          | String _ _ => at_character post
          end = true
        ∧ rest post = true.
Proof.
  revert here. induction t as [|a t IH]; intros here; cbn [any_run].
  - rewrite orb_false_r, andb_true_iff. split.
    + intros [Hh Hr]. by exists "", "".
    + intros (pre & post & Ht & Hc & Hr).
      symmetry in Ht. apply append_empty in Ht as [-> ->]. done.
  - rewrite orb_true_iff, andb_true_iff, IH. split.
    + intros [[Hh Hr] | (pre & post & -> & Hc & Hr)].
      * by exists "", (String a t).
      * exists (String a pre), post. split_and!; [done| |done].
        by destruct pre.
    + intros (pre & post & Ht & Hc & Hr). destruct pre as [|b pre].
      * left. by rewrite Ht.
      * right. rewrite append_cons in Ht. injection Ht as _ ->.
        exists pre, post. split_and!; [done| |done]. by destruct pre.
Qed.

Lemma like_percent (p t : string) :
  like (String "%" p) t = any_run (like p) true t.
Proof. reflexivity. Qed.

Lemma like_only_percent (t : string) : like "%" t = true.
Proof.
  rewrite like_percent. apply any_run_true. exists t, "".
  rewrite append_nil_r. split_and!; [done| |done]. by destruct t.
Qed.

Lemma like_two_percent (p t : string) :
  like (String "%" (String "%" p)) t = like (String "%" p) t.
Proof.
  apply eq_true_iff_eq. rewrite !like_percent, !any_run_true. split.
  - intros (pre & post & -> & Hc & Hp). rewrite like_percent in Hp.
    apply any_run_true in Hp as (pre2 & post2 & -> & Hc2 & Hp).
    exists (pre +:+ pre2), post2. rewrite append_assoc.
    split_and!; [done| |done].
    destruct pre as [|a pre]; [done|].
    rewrite append_cons. destruct pre2; [by rewrite append_nil_l in Hc|done].
  - intros (pre & post & -> & Hc & Hp). exists pre, post.
    split_and!; [done..|]. rewrite like_percent. apply any_run_true.
    by exists "", post.
Qed.

(** A pattern that starts with a plain piece: the text starts with a
    piece that fits it, and the rest of the pattern is for the rest of
    the text. *)
Lemma like_after (s p t : string) :
  plain s = true ->
  like (s +:+ p) t
  = match after s t with
    | Some rest => like p rest
    | None => false
    end.
Proof.
  revert t. induction s as [|c s IH]; intros t Hs; [done|].
  cbn [plain] in Hs.
  apply andb_true_iff in Hs as [[Hc He]%andb_true_iff Hs].
  apply negb_true_iff in Hc, He.
  rewrite append_cons. cbn [like after]. rewrite Hc, He.
  destruct t as [|d t]; [by destruct (Ascii.eqb c "_")|].
  destruct (Ascii.eqb c "_"); [by apply IH|].
  destruct (Ascii.eqb c d); [by apply IH | done].
Qed.

Lemma literal_plain (s : string) : literal s = true -> plain s = true.
Proof.
  induction s as [|c s IH]; [done|]. cbn.
  intros [[[Hc He]%andb_true_iff _]%andb_true_iff Hs]%andb_true_iff.
  by rewrite Hc, He, IH.
Qed.

Lemma after_literal (s t rest : string) :
  literal s = true -> after s t = Some rest <-> t = s +:+ rest.
Proof.
  revert t. induction s as [|c s IH]; intros t Hs.
  - rewrite append_nil_l. cbn. split; [by intros [= ->] | by intros ->].
  - cbn [literal] in Hs.
    apply andb_true_iff in Hs as [[_ Hc]%andb_true_iff Hs].
    apply negb_true_iff in Hc. rewrite append_cons. cbn [after].
    destruct t as [|d t]; [done|]. rewrite Hc.
    destruct (Ascii.eqb c d) eqn:Ecd.
    + apply Ascii.eqb_eq in Ecd as ->. rewrite (IH _ Hs). split.
      * by intros ->.
      * by intros [= ->].
    + split; [done|]. intros [= -> _]. by rewrite Ascii.eqb_refl in Ecd.
Qed.

Lemma like_contains_fitting (s t : string) :
  plain s = true ->
  like ("%" +:+ s +:+ "%") t = true <-> contains_fitting s t.
Proof.
  intros Hs. change ("%" +:+ s +:+ "%") with (String "%" (s +:+ "%")).
  rewrite like_percent, any_run_true. split.
  - intros (pre & post & -> & Hc & Hp). rewrite like_after in Hp by done.
    destruct (after s post) as [rest|] eqn:E; [|done].
    exists pre, post, rest. split_and!; [done| |done].
    destruct pre; [by left | by right].
  - intros (pre & post & rest & -> & Hc & Ha). exists pre, post.
    split_and!; [done| |].
    + destruct pre; [done|]. by destruct Hc.
    + rewrite like_after, Ha by done. apply like_only_percent.
Qed.

Lemma like_double_percent (s t : string) :
  plain s = true ->
  like ("%%" +:+ s +:+ "%%") t = like ("%" +:+ s +:+ "%") t.
Proof.
  intros Hs.
  change ("%%" +:+ s +:+ "%%") with (String "%" (String "%" (s +:+ "%%"))).
  rewrite like_two_percent.
  change ("%" +:+ s +:+ "%") with (String "%" (s +:+ "%")).
  rewrite !like_percent.
  assert (∀ post, like (s +:+ "%%") post = like (s +:+ "%") post) as Heq.
  { intros post. rewrite !like_after by done.
    destruct (after s post) as [rest|]; [|done].
    change "%%" with (String "%" "%").
    by rewrite like_two_percent. }
  apply eq_true_iff_eq. rewrite !any_run_true.
  split; intros (pre & post & -> & Hc & Hp); exists pre, post;
    split_and!; try done.
  - by rewrite <-Heq.
  - by rewrite Heq.
Qed.

Lemma contains_fitting_literal (s t : string) :
  literal s = true -> at_character s = true ->
  contains_fitting s t <-> contains_text s t.
Proof.
  intros Hs Hat. split.
  - intros (pre & post & rest & -> & _ & Ha).
    apply (after_literal _ _ _ Hs) in Ha as ->. by exists pre, rest.
  - intros (pre & rest & ->). destruct s as [|c s].
    + exists "", (pre +:+ rest), (pre +:+ rest).
      split_and!; [done | by left | done].
    + exists pre, (String c s +:+ rest), rest.
      split_and!; [done | by right | by apply after_literal].
Qed.

(** X9: what a pattern between two [%] selects.  Text is UTF-8, and [_]
    stands for one character, of one byte or more.  For a pattern [s]
    without [%] and without the escape character, a text is LIKE [%s%]
    exactly when it has in it, from its start or from the start of one of
    its characters, a piece that is [s] with one character in the place
    of each [_]; when [s] has no [_] either and starts with a character,
    exactly when it has [s] in it.  The doubled [%%] of the statements
    that are executed without parameters selects the same texts. *)
Theorem like_between_percent (s t : string) :
  plain s = true ->
  (like ("%" +:+ s +:+ "%") t = true <-> contains_fitting s t)
  ∧ like ("%%" +:+ s +:+ "%%") t = like ("%" +:+ s +:+ "%") t
  ∧ (literal s = true -> at_character s = true ->
     contains_fitting s t <-> contains_text s t).
Proof.
  intros Hs. split_and!.
  - by apply like_contains_fitting.
  - by apply like_double_percent.
  - apply contains_fitting_literal.
Qed.

Lemma like_between_percent_witness :
  (like ("%" +:+ "a_c" +:+ "%") "xaécx" = true
   <-> contains_fitting "a_c" "xaécx")
  ∧ like ("%%" +:+ "a_c" +:+ "%%") "xaécx"
    = like ("%" +:+ "a_c" +:+ "%") "xaécx"
  ∧ (literal "a_c" = true -> at_character "a_c" = true ->
     contains_fitting "a_c" "xaécx" <-> contains_text "a_c" "xaécx").
Proof. apply like_between_percent. reflexivity. Defined.

Lemma like_null_contains_fitting (s : string) (column : option string) :
  plain s = true ->
  like_null ("%" +:+ s +:+ "%") column = true
  <-> ∃ text, column = Some text ∧ contains_fitting s text.
Proof.
  intros Hs. destruct column as [text|]; cbn.
  - rewrite like_contains_fitting by done. split; [eauto|].
    by intros (? & [= <-] & ?).
  - split; [done | by intros (? & ? & _)].
Qed.

(** X10: the rows the WHERE clauses of the script select.  A cron job is
    deactivated when it is active and its name has [FatturaPA] in it.  A
    settings view is found by the first two patterns when its definition
    has the text of the pattern in it.  In the two patterns with
    [account_vendor_bills] and in [project_delete_wizard] the
    underscores stand for any one character: the metadata rows named
    [project.delete-wizard] and [projectédelete_wizard] are selected as
    well, and one named [project__delete_wizard] is not. *)
Theorem where_clauses_select :
  (∀ r, fatturapa_cron r = true
        <-> (∃ name, cron_name r = Some name
                     ∧ contains_text "FatturaPA" name)
            ∧ cron_active r = Some true)
  ∧ (∀ r, project_delete_wizard_data r = true
          <-> contains_fitting "project_delete_wizard" (data_name r))
  ∧ (∀ s r, s = "hasclass('settings')" ∨ s = "hasclass(''settings'')" ->
       settings_view ("%" +:+ s +:+ "%") r = true
       <-> view_model r = Some "res.config.settings"
           ∧ is_Some (view_inherit_id r)
           ∧ ∃ arch, view_arch_db r = Some arch ∧ contains_text s arch)
  ∧ (∀ s r, s = "@id='account_vendor_bills'"
            ∨ s = "@id=''account_vendor_bills''" ->
       settings_view ("%" +:+ s +:+ "%") r = true
       <-> view_model r = Some "res.config.settings"
           ∧ is_Some (view_inherit_id r)
           ∧ ∃ arch, view_arch_db r = Some arch ∧ contains_fitting s arch)
  ∧ (∀ id module model res_id noupdate,
       project_delete_wizard_data
         (mk_model_data id module "project.delete-wizard" model res_id
            noupdate) = true
       ∧ project_delete_wizard_data
           (mk_model_data id module "projectédelete_wizard" model res_id
              noupdate) = true
       ∧ project_delete_wizard_data
           (mk_model_data id module "project__delete_wizard" model res_id
              noupdate) = false)
  ∧ problematic_patterns
    = (fun s => "%" +:+ s +:+ "%")
        <$> [ "hasclass('settings')"; "hasclass(''settings'')";
              "@id='account_vendor_bills'"; "@id=''account_vendor_bills''" ].
Proof.
  split_and!.
  - intros r. unfold fatturapa_cron.
    rewrite andb_true_iff, bool_decide_eq_true.
    change "%%FatturaPA%%" with ("%%" +:+ "FatturaPA" +:+ "%%").
    destruct (cron_name r) as [name|]; cbn [like_null].
    + rewrite like_double_percent, like_contains_fitting by done.
      rewrite contains_fitting_literal by done.
      split; [intros [? ?]; eauto | by intros [(? & [= <-] & ?) ?]].
    + split; [by intros [? _] | by intros [(? & ? & _) _]].
  - intros r. unfold project_delete_wizard_data.
    change "%%project_delete_wizard%%"
      with ("%%" +:+ "project_delete_wizard" +:+ "%%").
    by rewrite like_double_percent, like_contains_fitting.
  - intros s r Hs. unfold settings_view.
    rewrite !andb_true_iff, !bool_decide_eq_true.
    rewrite like_null_contains_fitting by by destruct Hs as [-> | ->].
    split.
    + intros [[? ?] (arch & ? & Hf)]. split_and!; [done..|].
      exists arch. split; [done|].
      apply contains_fitting_literal;
        [by destruct Hs as [-> | ->].. | done].
    + intros (? & ? & arch & ? & Hf). split_and!; [done..|].
      exists arch. split; [done|].
      apply contains_fitting_literal;
        [by destruct Hs as [-> | ->].. | done].
  - intros s r Hs. unfold settings_view.
    rewrite !andb_true_iff, !bool_decide_eq_true.
    rewrite like_null_contains_fitting by by destruct Hs as [-> | ->].
    split; [by intros [[? ?] ?] | by intros (? & ? & ?)].
  - done.
  - done.
Qed.

(** *** Further properties: what any run leaves *)

Lemma migrated_refl db : migrated db db.
Proof.
  split_and!; try done.
  - apply Forall_Forall2_diag, Forall_forall. intros r _. by left.
  - intros r Hr. exists r. split; [done | by left].
Qed.

Lemma migrated_trans db1 db2 db3 :
  migrated db1 db2 -> migrated db2 db3 -> migrated db1 db3.
Proof.
  intros (Ht1 & He1 & Hm1 & Hc1 & Hi1 & Hd1 & Ha1 & Hv1)
         (Ht2 & He2 & Hm2 & Hc2 & Hi2 & Hd2 & Ha2 & Hv2).
  split_and!; try congruence; try (by etrans).
  - eapply Forall2_trans; [|exact Hc1|exact Hc2].
    intros r r' r'' [-> | [Hr ->]] [-> | [Hr' ->]]; cbn in *;
      [by left | by right | by right | done].
  - intros r'' Hr''. destruct (Hd2 r'' Hr'') as (r' & Hr' & Hstep2).
    destruct (Hd1 r' Hr') as (r & Hr & Hstep1).
    exists r. split; [done|].
    destruct Hstep1 as [-> | [Hn ->]]; [done|].
    destruct Hstep2 as [-> | [Hn' ->]]; [by right | done].
Qed.

Lemma migrated_shrinks db db' : shrinks db db' -> migrated db db'.
Proof.
  intros (Ht & _ & Hc & He & Hm & Ha & Hd & Hv).
  split_and!; try done.
  - rewrite Hc. apply Forall_Forall2_diag, Forall_forall.
    intros r _. by left.
  - by apply fmap_sublist.
  - intros r Hr. exists r. split; [|by left].
    by eapply elem_of_sublist.
  - by rewrite Ha.
Qed.

Lemma migrated_with_ir_cron db :
  migrated db
    (with_ir_cron db
       (sql_update fatturapa_cron
          (fun r => mk_cron (cron_id r) (cron_name r) (Some false))
          (ir_cron db))).
Proof.
  split_and!; try done; cbn.
  - unfold sql_update.
    apply Forall2_fmap_r, Forall_Forall2_diag, Forall_forall.
    intros r _. cbn. destruct (fatturapa_cron r) eqn:Hr; [|by left].
    right. split; [|done]. unfold fatturapa_cron in Hr.
    apply andb_true_iff in Hr as [_ Hr].
    by apply bool_decide_eq_true in Hr.
  - intros r Hr. exists r. split; [done | by left].
Qed.

Lemma migrated_set_noupdate db (where_ : model_data -> bool) :
  (∀ r, where_ r = true -> data_noupdate r = Some false) ->
  migrated db
    (with_ir_model_data db
       (sql_update where_ set_noupdate (ir_model_data db))).
Proof.
  intros Hw. split_and!; try done; cbn.
  - apply Forall_Forall2_diag, Forall_forall. intros r _. by left.
  - unfold sql_update. rewrite <-list_fmap_compose.
    erewrite list_fmap_ext; [done|].
    intros _ r _. cbn. by destruct (where_ r).
  - intros r' Hr'. apply list_elem_of_fmap in Hr' as (r & -> & Hr).
    exists r. split; [done|].
    destruct (where_ r) eqn:E; [right | by left]. split; [by apply Hw|done].
Qed.

Lemma migrated_delete_data db (where_ : model_data -> bool) :
  migrated db
    (with_ir_model_data db (sql_delete where_ (ir_model_data db))).
Proof.
  apply migrated_shrinks. split_and!; try done. apply sql_delete_sublist.
Qed.

Lemma migrated_delete_access db (where_ : model_access -> bool) :
  migrated db
    (with_ir_model_access db (sql_delete where_ (ir_model_access db))).
Proof.
  split_and!; try done; cbn.
  - apply Forall_Forall2_diag, Forall_forall. intros r _. by left.
  - intros r Hr. exists r. split; [done | by left].
  - apply sql_delete_sublist.
Qed.

Lemma migrated_delete_view db (where_ : view -> bool) :
  migrated db (with_ir_ui_view db (sql_delete where_ (ir_ui_view db))).
Proof.
  apply migrated_shrinks. split_and!; try done. apply sql_delete_sublist.
Qed.

Lemma missing_Some db st t : missing db st = Some t -> t ∉ tables db.
Proof.
  unfold missing. intros Ht. apply head_Some_elem_of in Ht.
  by apply list_elem_of_filter in Ht as [Ht _].
Qed.

(** The rules of [runs_as_script]. *)

Lemma script_ret {A} (a : A) cr :
  ends (mret a) cr (runs_as_script (cr_db cr)).
Proof. split; [apply migrated_refl | done]. Qed.

Lemma script_bind {A B} (m : M A) (f : A -> M B) cr :
  ends m cr (runs_as_script (cr_db cr)) ->
  (∀ a cr', ends (f a) cr' (runs_as_script (cr_db cr'))) ->
  ends (m ≫= f) cr (runs_as_script (cr_db cr)).
Proof.
  intros Hm Hf. apply ends_bind. eapply ends_mono; [exact Hm|].
  intros [a|e] cr' [Hdb He]; [|done].
  eapply ends_mono; [apply Hf|].
  intros r cr'' [Hdb' He']. split; [by eapply migrated_trans|].
  destruct r as [|e]; [done|].
  destruct He' as [-> | (t & -> & Ht)]; [by left|].
  right. exists t. split; [done|]. by rewrite <-(proj1 Hdb).
Qed.

Lemma script_execute {A} st (run : database -> A * database) cr :
  (∀ db, migrated db (run db).2) ->
  ends (execute st run) cr (runs_as_script (cr_db cr)).
Proof.
  intros Hrun. apply ends_execute.
  destruct (missing (cr_db cr) st) as [t|] eqn:Et.
  - split; [apply migrated_refl|]. right. exists t.
    split; [done | by eapply missing_Some].
  - split; [apply Hrun | done].
Qed.

Lemma script_for_in {A B} (xs : list A) (body : A -> B -> M B) acc cr :
  (∀ x acc cr, ends (body x acc) cr (runs_as_script (cr_db cr))) ->
  ends (for_in xs body acc) cr (runs_as_script (cr_db cr)).
Proof.
  intros Hbody. revert acc cr.
  induction xs as [|x xs IH]; intros acc cr; cbn [for_in].
  - apply script_ret.
  - apply script_bind; [apply Hbody|]. intros acc' cr'. apply IH.
Qed.

Lemma cascade_runs_as_script limit v name module cr :
  ends (_delete_view_cascade limit v name module) cr
    (runs_as_script (cr_db cr)).
Proof.
  revert v name module cr.
  induction limit as [|limit IH]; intros v name module cr.
  - split; [apply migrated_refl | by left].
  - rewrite cascade_S. unfold cascade_body.
    apply script_bind.
    { apply script_execute. intros db. apply migrated_refl. }
    intros children cr1. apply script_bind.
    { apply script_for_in. intros [c cn] acc cr2.
      apply script_bind; [apply IH|]. intros n cr3. apply script_ret. }
    intros count cr2. apply script_bind.
    { apply script_execute. intros db. apply migrated_delete_data. }
    intros _ cr3. apply script_bind.
    { apply script_execute. intros db. apply migrated_delete_view. }
    intros [deleted|] cr4; apply script_ret.
Qed.

Lemma fatturapa_cron_runs_as_script cr :
  ends _fix_fatturapa_cron cr (runs_as_script (cr_db cr)).
Proof.
  apply script_bind.
  - apply script_execute. intros db. apply migrated_with_ir_cron.
  - intros _ cr'. apply script_ret.
Qed.

Lemma edi_format_noupdate_runs_as_script cr :
  ends _fix_edi_format_noupdate cr (runs_as_script (cr_db cr)).
Proof.
  apply script_bind.
  { apply script_execute. intros db. apply migrated_refl. }
  intros [|] cr1; cbn [negb]; [|apply script_ret].
  apply script_bind.
  { apply script_execute. intros db. apply migrated_set_noupdate.
    intros r Hr. unfold edi_fatturapa_data in Hr.
    apply andb_true_iff in Hr as [_ Hr].
    by apply bool_decide_eq_true in Hr. }
  intros _ cr2. apply script_bind.
  { apply script_execute. intros db. apply migrated_set_noupdate.
    intros r Hr. unfold linked_edi_format_data in Hr.
    apply andb_true_iff in Hr as [Hr _].
    apply andb_true_iff in Hr as [_ Hr].
    by apply bool_decide_eq_true in Hr. }
  intros _ cr3. apply script_ret.
Qed.

Lemma project_delete_wizard_runs_as_script cr :
  ends _fix_project_delete_wizard cr (runs_as_script (cr_db cr)).
Proof.
  apply script_bind.
  { apply script_execute. intros db. apply migrated_refl. }
  intros [|model_id model_ids] cr1; [apply script_ret|].
  apply script_bind.
  { apply script_execute. intros db. apply migrated_delete_access. }
  intros _ cr2. apply script_bind.
  { apply script_execute. intros db. apply migrated_delete_data. }
  intros _ cr3. apply script_ret.
Qed.

Lemma settings_views_runs_as_script limit cr :
  ends (_fix_incompatible_settings_views limit) cr
    (runs_as_script (cr_db cr)).
Proof.
  apply script_for_in. intros pattern total cr1.
  apply script_bind.
  { apply script_execute. intros db. apply migrated_refl. }
  intros found cr2. apply script_for_in. intros [[v name] module] acc cr3.
  apply script_bind; [apply cascade_runs_as_script|].
  intros n cr4. apply script_ret.
Qed.

(** X11: what any run of the migration leaves, however it ends.  The
    script inserts no row and changes no column but [active] of a cron
    job, from true to false, and [noupdate] of a metadata row, from false
    to true: the relations, the documents and the models are the same,
    and access rules, views and metadata rows are only deleted.  When
    the run raises, the exception is [RecursionError], or
    [UndefinedTable] for a relation the database does not have. *)
Theorem migrate_runs_as_script limit version cr :
  let db := cr_db cr in
  let db' := cr_db (migrate limit version cr).2 in
  tables db' = tables db
  ∧ account_edi_document db' = account_edi_document db
  ∧ ir_model db' = ir_model db
  ∧ Forall2 (fun r r' =>
               r' = r
               ∨ (cron_active r = Some true
                  ∧ r' = mk_cron (cron_id r) (cron_name r) (Some false)))
      (ir_cron db) (ir_cron db')
  ∧ (data_id <$> ir_model_data db') `sublist_of` (data_id <$> ir_model_data db)
  ∧ (∀ r', r' ∈ ir_model_data db' ->
       ∃ r, r ∈ ir_model_data db
            ∧ (r' = r ∨ (data_noupdate r = Some false ∧ r' = set_noupdate r)))
  ∧ ir_model_access db' `sublist_of` ir_model_access db
  ∧ ir_ui_view db' `sublist_of` ir_ui_view db
  ∧ match (migrate limit version cr).1 with
    | Ok _ => True
    | Raise e => e = RecursionError ∨ ∃ t, e = UndefinedTable t ∧ t ∉ tables db
    end.
Proof.
  assert (ends (migrate limit version) cr (runs_as_script (cr_db cr)))
    as [Hdb He].
  { unfold migrate. destruct (falsy version); [apply script_ret|].
    apply script_bind; [apply fatturapa_cron_runs_as_script|].
    intros _ cr1.
    apply script_bind; [apply edi_format_noupdate_runs_as_script|].
    intros _ cr2.
    apply script_bind; [apply project_delete_wizard_runs_as_script|].
    intros _ cr3.
    apply script_bind; [apply settings_views_runs_as_script|].
    intros _ cr4. apply script_ret. }
  cbn zeta. destruct Hdb as (? & ? & ? & ? & ? & ? & ? & ?).
  split_and!; try done.
Qed.

(** *** Further properties: the steps one by one *)

Lemma execute_unfold {A} st (run : database -> A * database) cr :
  execute st run cr
  = match missing (cr_db cr) st with
    | Some t =>
        (Raise (UndefinedTable t), mk_cursor (cr_db cr) (cr_log cr ++ [st]))
    | None =>
        (Ok (run (cr_db cr)).1,
         mk_cursor (run (cr_db cr)).2 (cr_log cr ++ [st]))
    end.
Proof.
  unfold execute. destruct (missing (cr_db cr) st); [done|].
  by destruct (run (cr_db cr)).
Qed.

Lemma missing_one db st t :
  relations st = [t] ->
  missing db st = if decide (t ∈ tables db) then None else Some t.
Proof.
  intros E. unfold missing. rewrite E, filter_cons, filter_nil.
  by repeat case_decide.
Qed.

Lemma sql_update_twice {A} (where_ : A -> bool) (set : A -> A) rows :
  (∀ r, where_ (set r) = false) ->
  sql_update where_ set (sql_update where_ set rows)
  = sql_update where_ set rows.
Proof.
  intros Hset. apply sql_update_none. intros r Hr.
  by apply (sql_update_settles where_ where_ set rows r).
Qed.

Lemma sql_delete_twice {A} (where_ : A -> bool) (rows : list A) :
  sql_delete where_ (sql_delete where_ rows) = sql_delete where_ rows.
Proof.
  apply sql_delete_none. intros r Hr.
  by apply elem_of_sql_delete in Hr as [Hr _].
Qed.

Lemma fatturapa_cron_deactivated r :
  fatturapa_cron (mk_cron (cron_id r) (cron_name r) (Some false)) = false.
Proof. unfold fatturapa_cron. cbn. by rewrite andb_false_r. Qed.

(** X12: the first step.  With the relation [ir_cron] it deactivates the
    cron jobs its WHERE clause selects and returns: ids, names and the
    number of cron jobs are as before, a job that is not selected is as
    before, no job is selected afterwards, and no other relation is
    touched.  Without [ir_cron] the statement fails, and [migrate] ends
    there with [UndefinedTable]: no later step is run. *)
Theorem fatturapa_cron_deactivates cr :
  ("ir_cron" ∈ tables (cr_db cr) ->
   ∃ crons,
     _fix_fatturapa_cron cr
     = (Ok (), mk_cursor (with_ir_cron (cr_db cr) crons)
                 (cr_log cr ++ [update_fatturapa_cron]))
     ∧ Forall2 (fun r r' =>
                  cron_id r' = cron_id r
                  ∧ cron_name r' = cron_name r
                  ∧ (fatturapa_cron r = true -> cron_active r' = Some false)
                  ∧ (fatturapa_cron r = false -> r' = r))
         (ir_cron (cr_db cr)) crons
     ∧ ∀ r', r' ∈ crons -> fatturapa_cron r' = false)
  ∧ ("ir_cron" ∉ tables (cr_db cr) ->
     ∀ limit version, falsy version = false ->
       migrate limit version cr
       = (Raise (UndefinedTable "ir_cron"),
          mk_cursor (cr_db cr) (cr_log cr ++ [update_fatturapa_cron]))).
Proof.
  split.
  - intros Hin. eexists. split_and!.
    + unfold _fix_fatturapa_cron, disable_fatturapa_cron, mbind, M_bind.
      rewrite execute_unfold.
      rewrite (missing_one _ _ "ir_cron"), decide_True by done.
      reflexivity.
    + unfold sql_update.
      apply Forall2_fmap_r, Forall_Forall2_diag, Forall_forall.
      intros r _. cbn. by destruct (fatturapa_cron r).
    + intros r' Hr'.
      apply (sql_update_settles fatturapa_cron fatturapa_cron _ _ r') in Hr';
        [done | apply fatturapa_cron_deactivated | done].
  - intros Hout limit version Hv. unfold migrate. rewrite Hv.
    unfold _fix_fatturapa_cron, disable_fatturapa_cron, mbind, M_bind.
    rewrite execute_unfold.
    by rewrite (missing_one _ _ "ir_cron"), decide_False by done.
Qed.

Lemma fatturapa_cron_deactivates_witness :
  (∃ crons,
     _fix_fatturapa_cron (mk_cursor legacy [])
     = (Ok (), mk_cursor (with_ir_cron legacy crons) [update_fatturapa_cron])
     ∧ ∀ r', r' ∈ crons -> fatturapa_cron r' = false)
  ∧ migrate 3 (Some "16.0.1.3") (mk_cursor mutual [])
    = (Raise (UndefinedTable "ir_cron"),
       mk_cursor mutual [update_fatturapa_cron]).
Proof.
  split.
  - destruct (proj1 (fatturapa_cron_deactivates (mk_cursor legacy [])))
      as (crons & Hrun & _ & Hnone).
    + apply (bool_decide_unpack _). vm_compute. exact I.
    + by exists crons.
  - refine (proj2 (fatturapa_cron_deactivates (mk_cursor mutual []))
              _ 3 (Some "16.0.1.3") _).
    + apply (bool_decide_unpack _). vm_compute. exact I.
    + vm_compute. reflexivity.
Defined.

Lemma missing_noupdate_edi_formats db :
  "ir_model_data" ∈ tables db -> "account_edi_document" ∈ tables db ->
  missing db update_noupdate_edi_formats = None.
Proof. intros Hd He. relations_exist. Qed.

Lemma sql_update_or {A} (where1 where2 : A -> bool) (set : A -> A) rows :
  (∀ r, where2 (set r) = false) ->
  sql_update where2 set (sql_update where1 set rows)
  = sql_update (fun r => where1 r || where2 r) set rows.
Proof.
  intros Hset. unfold sql_update. rewrite <-list_fmap_compose.
  apply list_fmap_ext. intros _ r _. cbn.
  destruct (where1 r); cbn; [by rewrite Hset | done].
Qed.

(** X13: the second step, when there is a relation
    [account_edi_document].  Its two UPDATE statements do what one UPDATE
    with the two WHERE clauses joined by OR does: a metadata row gets
    [noupdate = true] when one of the two selects it, and is as before
    otherwise, so a row whose [noupdate] is NULL or true is never
    changed.  When [ir_model_data] is not there, the step raises at the
    first UPDATE. *)
Theorem edi_format_noupdate_one_update cr :
  "account_edi_document" ∈ tables (cr_db cr) ->
  ("ir_model_data" ∈ tables (cr_db cr) ->
   _fix_edi_format_noupdate cr
   = (Ok (),
      mk_cursor
        (with_ir_model_data (cr_db cr)
           (sql_update
              (fun r =>
                 edi_fatturapa_data r
                 || linked_edi_format_data
                      (account_edi_document (cr_db cr)) r)
              set_noupdate (ir_model_data (cr_db cr))))
        (cr_log cr ++ [select_exists_account_edi_document;
                       update_noupdate_edi_fatturapa;
                       update_noupdate_edi_formats]))
   ∧ Forall2 (fun r r' =>
                data_noupdate r ≠ Some false -> r' = r)
       (ir_model_data (cr_db cr))
       (ir_model_data (cr_db (_fix_edi_format_noupdate cr).2)))
  ∧ ("ir_model_data" ∉ tables (cr_db cr) ->
     _fix_edi_format_noupdate cr
     = (Raise (UndefinedTable "ir_model_data"),
        mk_cursor (cr_db cr)
          (cr_log cr ++ [select_exists_account_edi_document;
                         update_noupdate_edi_fatturapa]))).
Proof.
  intros He.
  assert (∀ A (f : bool -> M A),
            (exists_account_edi_document ≫= f) cr
            = f true (mk_cursor (cr_db cr)
                        (cr_log cr ++ [select_exists_account_edi_document])))
    as Hexists.
  { intros A f. unfold exists_account_edi_document, mbind, M_bind.
    rewrite execute_unfold.
    change (missing (cr_db cr) select_exists_account_edi_document) with
      (@None string).
    cbn [fst snd].
    by rewrite bool_decide_eq_true_2
      by by apply information_schema_tables_elem. }
  unfold _fix_edi_format_noupdate. rewrite Hexists. cbn [negb].
  unfold noupdate_edi_fatturapa, noupdate_edi_formats, mbind, M_bind.
  rewrite execute_unfold. cbn [cr_db cr_log].
  rewrite (missing_one _ _ "ir_model_data") by done.
  split.
  - intros Hd. rewrite decide_True by done. cbn [fst snd].
    rewrite execute_unfold. cbn [cr_db cr_log fst snd].
    rewrite missing_noupdate_edi_formats by done.
    cbn [fst snd account_edi_document ir_model_data with_ir_model_data].
    rewrite sql_update_or by apply linked_edi_format_data_set_noupdate.
    rewrite <-!(assoc_L (++)). split; [done|].
    cbn [cr_db ir_model_data with_ir_model_data]. unfold sql_update.
    apply Forall2_fmap_r, Forall_Forall2_diag, Forall_forall.
    intros r _ Hn. cbn.
    destruct (edi_fatturapa_data r) eqn:E1.
    { unfold edi_fatturapa_data in E1.
      apply andb_true_iff in E1 as [_ E1].
      by apply bool_decide_eq_true in E1. }
    destruct (linked_edi_format_data _ r) eqn:E2; [|done].
    unfold linked_edi_format_data in E2.
    apply andb_true_iff in E2 as [E2 _].
    apply andb_true_iff in E2 as [_ E2].
    by apply bool_decide_eq_true in E2.
  - intros Hd. rewrite decide_False by done.
    by rewrite <-!(assoc_L (++)).
Qed.

Lemma edi_format_noupdate_one_update_witness :
  ir_model_data (cr_db (_fix_edi_format_noupdate (mk_cursor legacy [])).2)
  = sql_update
      (fun r =>
         edi_fatturapa_data r
         || linked_edi_format_data (account_edi_document legacy) r)
      set_noupdate (ir_model_data legacy).
Proof.
  assert ("account_edi_document" ∈ tables legacy) as He
    by (apply (bool_decide_unpack _); vm_compute; exact I).
  assert ("ir_model_data" ∈ tables legacy) as Hd
    by (apply (bool_decide_unpack _); vm_compute; exact I).
  destruct (proj1 (edi_format_noupdate_one_update (mk_cursor legacy []) He)
              Hd) as [-> _].
  reflexivity.
Defined.

Lemma missing_delete_access db :
  "ir_model_access" ∈ tables db -> "ir_model" ∈ tables db ->
  missing db delete_access_project_delete_wizard = None.
Proof. intros Ha Hm. relations_exist. Qed.

(** X14: the third step, with the three relations it names.  When
    [ir_model] has a row of the model [project.delete.wizard], the
    access rules of such a row are deleted, and so is every metadata row
    whose name is LIKE the pattern, whatever its module and its model;
    all other rows stay, in their order, and no other relation is
    touched.  When [ir_model] has no such row, nothing is deleted, also
    no metadata row with such a name. *)
Theorem project_delete_wizard_removes cr :
  "ir_model" ∈ tables (cr_db cr) ->
  "ir_model_access" ∈ tables (cr_db cr) ->
  "ir_model_data" ∈ tables (cr_db cr) ->
  let db := cr_db cr in
  ((∃ m, m ∈ ir_model db ∧ model_model m = "project.delete.wizard") ->
   ∃ access data,
     _fix_project_delete_wizard cr
     = (Ok (),
        mk_cursor (with_ir_model_data (with_ir_model_access db access) data)
          (cr_log cr ++ [select_project_delete_wizard;
                         delete_access_project_delete_wizard;
                         delete_data_project_delete_wizard]))
     ∧ access `sublist_of` ir_model_access db
     ∧ data `sublist_of` ir_model_data db
     ∧ (∀ a, a ∈ access
             <-> a ∈ ir_model_access db
                 ∧ ¬ ∃ m, m ∈ ir_model db
                          ∧ model_model m = "project.delete.wizard"
                          ∧ access_model_id a = model_id m)
     ∧ (∀ d, d ∈ data
             <-> d ∈ ir_model_data db
                 ∧ ¬ contains_fitting "project_delete_wizard" (data_name d)))
  ∧ ((∀ m, m ∈ ir_model db -> model_model m ≠ "project.delete.wizard") ->
     _fix_project_delete_wizard cr
     = (Ok (), mk_cursor db (cr_log cr ++ [select_project_delete_wizard]))).
Proof.
  intros Hm Ha Hd db. split.
  - intros (m & Hin & Hmodel).
    exists (sql_delete (project_delete_wizard_access (ir_model db))
              (ir_model_access db)),
           (sql_delete project_delete_wizard_data (ir_model_data db)).
    split_and!.
    + unfold _fix_project_delete_wizard, find_project_delete_wizard,
        mbind, M_bind.
      rewrite execute_unfold.
      rewrite (missing_one _ _ "ir_model"), decide_True by done.
      cbn [fst snd].
      assert (m ∈ sql_select project_delete_wizard (ir_model (cr_db cr)))
        as Hsel.
      { apply elem_of_sql_select. split; [|done].
        by apply bool_decide_eq_true. }
      destruct (sql_select project_delete_wizard (ir_model (cr_db cr)))
        as [|m0 ms]; [by apply elem_of_nil in Hsel|].
      cbn [fmap list_fmap].
      unfold delete_project_delete_wizard_access,
        delete_project_delete_wizard_data.
      rewrite execute_unfold. cbn [cr_db cr_log].
      rewrite missing_delete_access by done. cbn [fst snd].
      rewrite execute_unfold. cbn [cr_db cr_log].
      rewrite (missing_one _ _ "ir_model_data"), decide_True by done.
      cbn [fst snd]. by rewrite <-!(assoc_L (++)).
    + apply sql_delete_sublist.
    + apply sql_delete_sublist.
    + intros a. rewrite elem_of_sql_delete.
      unfold project_delete_wizard_access.
      rewrite bool_decide_eq_false, list_elem_of_fmap. split.
      * intros [Hn Hin']. split; [done|].
        intros (m' & Hm' & Hmod & Hid). apply Hn. exists m'.
        split; [done|]. apply elem_of_sql_select.
        split; [by apply bool_decide_eq_true | done].
      * intros [Hin' Hn]. split; [|done].
        intros (m' & Hid & Hm'). apply Hn. exists m'.
        apply elem_of_sql_select in Hm' as [Hmod Hm'].
        by apply bool_decide_eq_true in Hmod.
    + intros d. rewrite elem_of_sql_delete.
      unfold project_delete_wizard_data.
      change "%%project_delete_wizard%%"
        with ("%%" +:+ "project_delete_wizard" +:+ "%%").
      rewrite like_double_percent by done.
      rewrite <-like_contains_fitting by done.
      rewrite not_true_iff_false. by split; intros [? ?].
  - intros Hnone. apply project_delete_wizard_nothing; [done|].
    intros m Hin. apply bool_decide_eq_false. by apply Hnone.
Qed.

Lemma project_delete_wizard_removes_witness :
  ∃ access data,
    _fix_project_delete_wizard (mk_cursor legacy [])
    = (Ok (),
       mk_cursor (with_ir_model_data (with_ir_model_access legacy access) data)
         [select_project_delete_wizard;
          delete_access_project_delete_wizard;
          delete_data_project_delete_wizard])
    ∧ access `sublist_of` ir_model_access legacy
    ∧ data `sublist_of` ir_model_data legacy.
Proof.
  destruct (proj1 (project_delete_wizard_removes (mk_cursor legacy [])
                     ltac:(apply (bool_decide_unpack _); vm_compute; exact I)
                     ltac:(apply (bool_decide_unpack _); vm_compute; exact I)
                     ltac:(apply (bool_decide_unpack _); vm_compute; exact I)))
    as (access & data & Hrun & Ha & Hd & _).
  - exists (mk_model 20 "project.delete.wizard"). split; [|done].
    apply list_elem_of_here.
  - by exists access, data.
Defined.

(** The database each of the first three steps leaves. *)

Lemma fatturapa_cron_db cr :
  cr_db (_fix_fatturapa_cron cr).2
  = match missing (cr_db cr) update_fatturapa_cron with
    | Some _ => cr_db cr
    | None =>
        with_ir_cron (cr_db cr)
          (sql_update fatturapa_cron
             (fun r => mk_cron (cron_id r) (cron_name r) (Some false))
             (ir_cron (cr_db cr)))
    end.
Proof.
  unfold _fix_fatturapa_cron, disable_fatturapa_cron, mbind, M_bind.
  rewrite execute_unfold.
  by destruct (missing (cr_db cr) update_fatturapa_cron).
Qed.

Lemma edi_format_noupdate_db cr :
  cr_db (_fix_edi_format_noupdate cr).2
  = if bool_decide ("account_edi_document"
                     ∈ information_schema_tables (cr_db cr)) then
      match missing (cr_db cr) update_noupdate_edi_fatturapa with
      | Some _ => cr_db cr
      | None =>
          match missing (cr_db cr) update_noupdate_edi_formats with
          | Some _ =>
              with_ir_model_data (cr_db cr)
                (sql_update edi_fatturapa_data set_noupdate
                   (ir_model_data (cr_db cr)))
          | None =>
              with_ir_model_data (cr_db cr)
                (sql_update
                   (linked_edi_format_data (account_edi_document (cr_db cr)))
                   set_noupdate
                   (sql_update edi_fatturapa_data set_noupdate
                      (ir_model_data (cr_db cr))))
          end
      end
    else cr_db cr.
Proof.
  unfold _fix_edi_format_noupdate, exists_account_edi_document,
    noupdate_edi_fatturapa, noupdate_edi_formats, mbind, M_bind.
  rewrite execute_unfold.
  change (missing (cr_db cr) select_exists_account_edi_document) with
    (@None string).
  cbn [fst snd].
  destruct (bool_decide ("account_edi_document"
                     ∈ information_schema_tables (cr_db cr)));
    cbn [negb]; [|done].
  rewrite execute_unfold. cbn [cr_db cr_log].
  destruct (missing (cr_db cr) update_noupdate_edi_fatturapa); [done|].
  cbn [fst snd]. rewrite execute_unfold. cbn [cr_db cr_log].
  erewrite (missing_tables (cr_db cr)) by done.
  by destruct (missing (cr_db cr) update_noupdate_edi_formats).
Qed.

Lemma project_delete_wizard_db cr :
  cr_db (_fix_project_delete_wizard cr).2
  = match missing (cr_db cr) select_project_delete_wizard with
    | Some _ => cr_db cr
    | None =>
        match sql_select project_delete_wizard (ir_model (cr_db cr)) with
        | [] => cr_db cr
        | _ :: _ =>
            match missing (cr_db cr) delete_access_project_delete_wizard with
            | Some _ => cr_db cr
            | None =>
                let db1 :=
                  with_ir_model_access (cr_db cr)
                    (sql_delete
                       (project_delete_wizard_access (ir_model (cr_db cr)))
                       (ir_model_access (cr_db cr))) in
                match missing (cr_db cr) delete_data_project_delete_wizard with
                | Some _ => db1
                | None =>
                    with_ir_model_data db1
                      (sql_delete project_delete_wizard_data
                         (ir_model_data (cr_db cr)))
                end
            end
        end
    end.
Proof.
  unfold _fix_project_delete_wizard, find_project_delete_wizard,
    delete_project_delete_wizard_access,
    delete_project_delete_wizard_data, mbind, M_bind.
  rewrite execute_unfold.
  destruct (missing (cr_db cr) select_project_delete_wizard); [done|].
  cbn [fst snd].
  destruct (sql_select project_delete_wizard (ir_model (cr_db cr)))
    as [|m ms]; [done|].
  cbn [fmap list_fmap]. rewrite execute_unfold. cbn [cr_db cr_log].
  destruct (missing (cr_db cr) delete_access_project_delete_wizard);
    [done|].
  cbn [fst snd]. rewrite execute_unfold. cbn [cr_db cr_log].
  erewrite (missing_tables (cr_db cr)) by done.
  by destruct (missing (cr_db cr) delete_data_project_delete_wizard).
Qed.

(** X15: each of the first three steps can be run twice.  However the
    first run ends, a second run on the database it leaves changes
    nothing: what the UPDATE statements select has been updated, what
    the DELETE statements select is gone, and a statement that failed
    for a relation that is not there fails again. *)
Theorem steps_idempotent cr :
  cr_db (_fix_fatturapa_cron (_fix_fatturapa_cron cr).2).2
  = cr_db (_fix_fatturapa_cron cr).2
  ∧ cr_db (_fix_edi_format_noupdate (_fix_edi_format_noupdate cr).2).2
    = cr_db (_fix_edi_format_noupdate cr).2
  ∧ cr_db (_fix_project_delete_wizard (_fix_project_delete_wizard cr).2).2
    = cr_db (_fix_project_delete_wizard cr).2.
Proof.
  split_and!.
  - rewrite (fatturapa_cron_db (_fix_fatturapa_cron cr).2).
    rewrite (fatturapa_cron_db cr).
    destruct (missing (cr_db cr) update_fatturapa_cron) eqn:E;
      cbv beta iota.
    + by rewrite E.
    + erewrite (missing_tables (cr_db cr)), E by done.
      unfold with_ir_cron. cbn. f_equal.
      apply sql_update_twice, fatturapa_cron_deactivated.
  - rewrite (edi_format_noupdate_db (_fix_edi_format_noupdate cr).2).
    rewrite (edi_format_noupdate_db cr).
    destruct (bool_decide ("account_edi_document"
                     ∈ information_schema_tables (cr_db cr)))
      eqn:Ee; cbv beta iota; [|by rewrite Ee].
    destruct (missing (cr_db cr) update_noupdate_edi_fatturapa) eqn:E1;
      cbv beta iota.
    { by rewrite Ee, E1. }
    destruct (missing (cr_db cr) update_noupdate_edi_formats) eqn:E2;
      cbv beta iota.
    { erewrite (information_schema_tables_same (cr_db cr)) by done.
      rewrite Ee.
      erewrite (missing_tables (cr_db cr)), E1 by done.
      erewrite (missing_tables (cr_db cr)), E2 by done.
      unfold with_ir_model_data. cbn. f_equal.
      apply sql_update_twice, edi_fatturapa_data_set_noupdate. }
    erewrite (information_schema_tables_same (cr_db cr)) by done.
      rewrite Ee.
    erewrite (missing_tables (cr_db cr)), E1 by done.
    erewrite (missing_tables (cr_db cr)), E2 by done.
    unfold with_ir_model_data. cbn. f_equal.
    set (docs := account_edi_document (cr_db cr)).
    set (rows := sql_update (linked_edi_format_data docs) set_noupdate
                   (sql_update edi_fatturapa_data set_noupdate
                      (ir_model_data (cr_db cr)))).
    assert (∀ r, r ∈ rows -> edi_fatturapa_data r = false) as H1.
    { intros r Hr.
      apply (sql_update_settles (linked_edi_format_data docs)
               edi_fatturapa_data) in Hr;
        [done | apply edi_fatturapa_data_set_noupdate |].
      intros r0 Hr0 _.
      by apply (sql_update_settles edi_fatturapa_data edi_fatturapa_data)
        in Hr0; [|apply edi_fatturapa_data_set_noupdate|]. }
    assert (∀ r, r ∈ rows -> linked_edi_format_data docs r = false) as H2.
    { intros r Hr.
      by apply (sql_update_settles (linked_edi_format_data docs)
                  (linked_edi_format_data docs)) in Hr;
        [|apply linked_edi_format_data_set_noupdate|]. }
    change (sql_update (linked_edi_format_data docs) set_noupdate
              (sql_update edi_fatturapa_data set_noupdate rows) = rows).
    rewrite (sql_update_none edi_fatturapa_data) by done.
    by rewrite sql_update_none.
  - rewrite (project_delete_wizard_db (_fix_project_delete_wizard cr).2).
    rewrite (project_delete_wizard_db cr).
    destruct (missing (cr_db cr) select_project_delete_wizard) eqn:E0;
      cbv beta iota.
    { by rewrite E0. }
    destruct (sql_select project_delete_wizard (ir_model (cr_db cr)))
      as [|m ms] eqn:Em; cbv beta iota.
    { by rewrite E0, Em. }
    destruct (missing (cr_db cr) delete_access_project_delete_wizard)
      eqn:E1; cbv beta iota.
    { by rewrite E0, Em, E1. }
    cbv zeta.
    destruct (missing (cr_db cr) delete_data_project_delete_wizard) eqn:E2;
      cbv beta iota.
    { erewrite (missing_tables (cr_db cr)), E0 by done.
      cbn [ir_model with_ir_model_access]. rewrite Em.
      erewrite (missing_tables (cr_db cr)), E1 by done.
      erewrite (missing_tables (cr_db cr)), E2 by done.
      unfold with_ir_model_access. cbn. f_equal.
      apply sql_delete_twice. }
    erewrite (missing_tables (cr_db cr)), E0 by done.
    cbn [ir_model with_ir_model_access with_ir_model_data]. rewrite Em.
    erewrite (missing_tables (cr_db cr)), E1 by done.
    erewrite (missing_tables (cr_db cr)), E2 by done.
    unfold with_ir_model_access, with_ir_model_data. cbn.
    f_equal; apply sql_delete_twice.
Qed.

(** *** Further properties: the recursion budget *)

(** Two bodies that agree wherever the first does not run out of
    recursion make the same loop. *)
Lemma for_in_agree {A B} (xs : list A) (body body' : A -> B -> M B) acc cr :
  (∀ x acc cr, (body x acc cr).1 ≠ Raise RecursionError ->
     body' x acc cr = body x acc cr) ->
  (for_in xs body acc cr).1 ≠ Raise RecursionError ->
  for_in xs body' acc cr = for_in xs body acc cr.
Proof.
  intros Hbody. revert acc cr.
  induction xs as [|x xs IH]; intros acc cr; [done|].
  cbn [for_in]. unfold mbind, M_bind.
  destruct (body x acc cr) as [[acc'|e] cr'] eqn:E.
  - intros Hrun. rewrite (Hbody x acc cr) by by rewrite E.
    rewrite E. by apply IH.
  - intros Hrun. rewrite (Hbody x acc cr) by by rewrite E.
    by rewrite E.
Qed.

Lemma bind_agree {A B} (m m' : M A) (f : A -> M B) cr :
  ((m cr).1 ≠ Raise RecursionError -> m' cr = m cr) ->
  ((m ≫= f) cr).1 ≠ Raise RecursionError ->
  (m' ≫= f) cr = (m ≫= f) cr.
Proof.
  unfold mbind, M_bind. intros Hm Hrun.
  rewrite Hm; [done|]. destruct (m cr) as [[a|e] cr']; cbn in *; [done|].
  intros [= ->]. by apply Hrun.
Qed.

Lemma bind_agree_r {A B} (m : M A) (f f' : A -> M B) cr :
  (∀ a cr', ((f a) cr').1 ≠ Raise RecursionError -> f' a cr' = f a cr') ->
  ((m ≫= f) cr).1 ≠ Raise RecursionError ->
  (m ≫= f') cr = (m ≫= f) cr.
Proof.
  unfold mbind, M_bind. intros Hf.
  destruct (m cr) as [[a|e] cr']; [|done]. apply Hf.
Qed.

Lemma cascade_limit limit limit' v name module cr :
  limit ≤ limit' ->
  (_delete_view_cascade limit v name module cr).1 ≠ Raise RecursionError ->
  _delete_view_cascade limit' v name module cr
  = _delete_view_cascade limit v name module cr.
Proof.
  revert limit' v name module cr.
  induction limit as [|limit IH]; intros limit' v name module cr Hle;
    [done|].
  destruct limit' as [|limit']; [lia|].
  rewrite !cascade_S. unfold cascade_body.
  apply bind_agree_r. intros children cr1.
  apply bind_agree. apply for_in_agree.
  intros [c cn] acc cr2. apply bind_agree. apply IH. lia.
Qed.

(** X16: the recursion budget decides only whether a run ends in
    [RecursionError].  A cascade, and a migration, that end otherwise
    with some budget end the same with every larger one: same result,
    same database, same statements. *)
Theorem recursion_limit_irrelevant limit limit' :
  limit ≤ limit' ->
  (∀ v name module cr,
     (_delete_view_cascade limit v name module cr).1 ≠ Raise RecursionError ->
     _delete_view_cascade limit' v name module cr
     = _delete_view_cascade limit v name module cr)
  ∧ (∀ version cr,
       (migrate limit version cr).1 ≠ Raise RecursionError ->
       migrate limit' version cr = migrate limit version cr).
Proof.
  intros Hle. split.
  - intros v name module cr. by apply cascade_limit.
  - intros version cr. unfold migrate.
    destruct (falsy version); [done|].
    apply bind_agree_r. intros _ cr1.
    apply bind_agree_r. intros _ cr2.
    apply bind_agree_r. intros _ cr3.
    apply bind_agree. unfold _fix_incompatible_settings_views.
    apply for_in_agree. intros pattern total cr4.
    apply bind_agree_r. intros found cr5.
    apply for_in_agree. intros [[v name] module] acc cr6.
    apply bind_agree. by apply cascade_limit.
Qed.

Lemma recursion_limit_irrelevant_witness :
  _delete_view_cascade 1000 1 "parent" (Some "base") (mk_cursor family [])
  = _delete_view_cascade 3 1 "parent" (Some "base") (mk_cursor family [])
  ∧ migrate 1000 (Some "16.0.1.3") (mk_cursor legacy [])
    = migrate 2 (Some "16.0.1.3") (mk_cursor legacy []).
Proof.
  split.
  - apply (proj1 (recursion_limit_irrelevant 3 1000 ltac:(lia))).
    vm_compute. discriminate.
  - apply (proj2 (recursion_limit_irrelevant 2 1000 ltac:(lia))).
    vm_compute. discriminate.
Defined.

(** *** Further properties: a view without children *)

(** X17: a cascade from an id no view inherits from, with a budget of
    one call.  It runs the SELECT and the two DELETE statements and
    returns 1 when a view has the id and 0 when none has; in both cases
    the metadata rows of views with that id are deleted, so also those
    left behind by a view that is gone. *)
Theorem cascade_without_children limit v name module cr :
  "ir_ui_view" ∈ tables (cr_db cr) ->
  "ir_model_data" ∈ tables (cr_db cr) ->
  (∀ r, r ∈ ir_ui_view (cr_db cr) -> view_inherit_id r ≠ Some v) ->
  _delete_view_cascade (S limit) v name module cr
  = (Ok (if bool_decide (v ∈ view_id <$> ir_ui_view (cr_db cr))
         then 1 else 0),
     mk_cursor (without_view v (cr_db cr))
       (cr_log cr ++ [select_child_views v; delete_view_data v;
                      delete_view v])).
Proof.
  intros Hv Hd Hnone. rewrite cascade_S.
  unfold cascade_body, find_child_views, delete_data_of_view,
    delete_view_row, mbind, M_bind.
  rewrite execute_unfold.
  rewrite (proj2 (select_child_views_exists _ _)) by done. cbn [fst snd].
  rewrite (proj1 (sql_select_none (child_of v) _)).
  2:{ intros r Hr. apply bool_decide_eq_false. by apply Hnone. }
  cbn [fmap list_fmap for_in mret M_ret].
  rewrite execute_unfold. cbn [cr_db cr_log].
  rewrite (proj2 (delete_view_data_exists _ _)) by done. cbn [fst snd].
  rewrite execute_unfold. cbn [cr_db cr_log].
  rewrite (proj2 (delete_view_exists _ _)) by done.
  cbn [fst snd ir_ui_view with_ir_model_data].
  rewrite <-!(assoc_L (++)). cbn [app].
  destruct (sql_select (has_id v) (ir_ui_view (cr_db cr))) as [|r rs] eqn:E.
  - cbn [fmap list_fmap head]. rewrite bool_decide_eq_false_2; [done|].
    intros (r & Hid & Hr)%list_elem_of_fmap.
    pose proof (proj2 (sql_select_none _ _) E r Hr) as Hn.
    by apply bool_decide_eq_false in Hn.
  - cbn [fmap list_fmap head]. rewrite bool_decide_eq_true_2; [done|].
    assert (r ∈ sql_select (has_id v) (ir_ui_view (cr_db cr))) as Hr
      by (rewrite E; by left).
    apply elem_of_sql_select in Hr as [Hid Hr].
    apply bool_decide_eq_true in Hid. apply list_elem_of_fmap. by exists r.
Qed.

Lemma cascade_without_children_witness :
  _delete_view_cascade 1 9 "gone" None (mk_cursor stale [])
  = (Ok 0,
     mk_cursor
       (with_ir_model_data stale
          [mk_model_data 2 "sale" "view_leaf" "ir.ui.view" (Some 7%Z)
             (Some false)])
       [select_child_views 9; delete_view_data 9; delete_view 9]).
Proof.
  refine (cascade_without_children 0 9 "gone" None (mk_cursor stale [])
            _ _ _).
  - apply (bool_decide_unpack _). vm_compute. exact I.
  - apply (bool_decide_unpack _). vm_compute. exact I.
  - intros r Hr. cbn in Hr. apply list_elem_of_singleton in Hr as ->. done.
Defined.

(** *** Further properties: all the views that are condemned *)

Lemma settings_views_loop_closed limit patterns total cr :
  ends (settings_views_loop limit patterns total) cr (fun r cr' =>
    match r with
    | Ok n =>
        closed (cr_db cr) (cr_db cr')
        ∧ (NoDup (view_id <$> ir_ui_view (cr_db cr)) ->
           n + length (ir_ui_view (cr_db cr'))
           = total + length (ir_ui_view (cr_db cr)))
    | Raise _ => True
    end).
Proof.
  unfold settings_views_loop. set (db := cr_db cr).
  apply (ends_for_in (fun _ acc cr1 =>
           shrinks db (cr_db cr1)
           ∧ closed db (cr_db cr1)
           ∧ (NoDup (view_id <$> ir_ui_view db) ->
              acc + length (ir_ui_view (cr_db cr1))
              = total + length (ir_ui_view db)))).
  - split_and!; [reflexivity | apply closed_refl | done].
  - intros pattern rest acc cr1 (Hs1 & Hc1 & Hn1).
    apply ends_bind, ends_execute.
    destruct (missing (cr_db cr1) (select_settings_views pattern)); [done|].
    cbn [fst snd].
    apply (ends_for_in (fun _ acc cr2 =>
             shrinks db (cr_db cr2)
             ∧ closed db (cr_db cr2)
             ∧ (NoDup (view_id <$> ir_ui_view db) ->
                acc + length (ir_ui_view (cr_db cr2))
                = total + length (ir_ui_view db)))).
    + done.
    + intros [[id name] module] views acc' cr2 (Hs2 & Hc2 & Hn2).
      apply ends_bind. eapply ends_mono.
      { apply ends_and; [apply cascade_cascaded|apply cascade_shrinks_ends]. }
      intros [n|e] cr3 [Hk Hs3]; cbn; [|done].
      destruct Hk as (_ & _ & _ & Hc3 & Hn3).
      split_and!.
      * by etrans.
      * by eapply closed_trans.
      * intros Hnd. specialize (Hn2 Hnd).
        pose proof (NoDup_view_ids_shrinks _ _ Hs2 Hnd) as Hnd2.
        specialize (Hn3 Hnd2). lia.
    + by intros acc' cr2 ?.
  - by intros acc cr1 (_ & ? & ?).
Qed.

(** Along views that inherit from one another, what is left of a
    database that is [closed] has the ancestors of the views it has. *)
Lemma closed_ancestor db db' x y :
  NoDup (view_id <$> ir_ui_view db) ->
  shrinks db db' -> closed db db' ->
  x ∈ view_id <$> ir_ui_view db ->
  rtc (inherits (ir_ui_view db)) x y ->
  y ∈ view_id <$> ir_ui_view db' -> x ∈ view_id <$> ir_ui_view db'.
Proof.
  intros Hnd Hs [Hclosed _] Hx Hrtc. revert y Hrtc.
  apply (rtc_ind_r (fun y => y ∈ view_id <$> ir_ui_view db'
                             -> x ∈ view_id <$> ir_ui_view db')); [done|].
  intros p c Hxp (rc & Hrc & Hc & Hp) IH.
  intros (r' & E & Hr')%list_elem_of_fmap.
  assert (r' ∈ ir_ui_view db) as Hr'0.
  { eapply elem_of_sublist; [done|]. apply Hs. }
  assert (r' = rc) as -> by (apply (NoDup_view_ids_eq (ir_ui_view db));
                              [done..|congruence]).
  apply IH. apply (Hclosed rc p); [done..|].
  destruct (rtc_inherits_row _ _ _ Hxp) as [->|Hrow]; done.
Qed.

(** X18: the fourth step, when it returns, on views with distinct ids.
    It deletes exactly the condemned views: those one of the four
    patterns selects, and those that inherit from one of them through
    any number of views.  With them go exactly their metadata rows, and
    the number the step counts is the number of views deleted. *)
Theorem settings_views_exact limit cr n cr' :
  NoDup (view_id <$> ir_ui_view (cr_db cr)) ->
  _fix_incompatible_settings_views limit cr = (Ok n, cr') ->
  let db := cr_db cr in
  let db' := cr_db cr' in
  (∀ r, r ∈ ir_ui_view db ->
     r ∈ ir_ui_view db' <-> ¬ condemned (ir_ui_view db) (view_id r))
  ∧ (∀ d, d ∈ ir_model_data db ->
       d ∈ ir_model_data db'
       <-> ¬ (data_model d = "ir.ui.view"
              ∧ ∃ id, data_res_id d = Some id
                      ∧ condemned (ir_ui_view db) id))
  ∧ n + length (ir_ui_view db') = length (ir_ui_view db).
Proof.
  intros Hnd Hrun db db'.
  pose proof (settings_views_loop_closed limit problematic_patterns 0 cr)
    as Hc.
  pose proof (settings_views_loop_ends limit problematic_patterns 0 cr)
    as He.
  pose proof (settings_views_loop_deleted_within limit problematic_patterns
                0 db cr (fun _ H => H) (deleted_within_refl _ _)) as Hw.
  unfold ends in Hc, He.
  change (settings_views_loop limit problematic_patterns 0)
    with (_fix_incompatible_settings_views limit) in Hc, He, Hw.
  rewrite Hrun in Hc, He, Hw. cbn [fst snd] in Hc, He, Hw.
  fold db db' in Hc, He, Hw.
  destruct Hc as [Hclosed Hcount].
  destruct He as [Hs Hnone]; [by exists n|].
  destruct Hw as (_ & Hviews & Hdata).
  assert (∀ id, condemned (ir_ui_view db) id
                -> id ∉ view_id <$> ir_ui_view db') as Hgone.
  { intros id (r0 & Hr0 & (pattern & Hp & Hsel) & Hrtc) Hid.
    assert (view_id r0 ∈ view_id <$> ir_ui_view db') as Hin0.
    { eapply (closed_ancestor db db'); try done.
      apply list_elem_of_fmap. by exists r0. }
    apply list_elem_of_fmap in Hin0 as (r' & E & Hr').
    assert (r' ∈ ir_ui_view db) as Hr'0.
    { eapply elem_of_sublist; [done|]. apply Hs. }
    assert (r' = r0) as -> by (apply (NoDup_view_ids_eq (ir_ui_view db));
                                [done..|congruence]).
    destruct (Hnone pattern Hp) as (_ & _ & Hnot).
    specialize (Hnot r0 Hr'). congruence. }
  split_and!.
  - intros r Hr. split.
    + intros Hr' Hcond. apply (Hgone _ Hcond).
      apply list_elem_of_fmap. by exists r.
    + intros Hn. destruct (decide (r ∈ ir_ui_view db')) as [|Hout]; [done|].
      destruct Hn. by apply Hviews.
  - intros d Hd. split.
    + intros Hd' (Hm & id & Hid & Hcond).
      apply (Hgone _ Hcond). apply (proj2 Hclosed d); [done..|].
      by apply condemned_has_row.
    + intros Hn.
      destruct (decide (d ∈ ir_model_data db')) as [|Hout]; [done|].
      destruct Hn. destruct (Hdata d Hd Hout) as (Hm & id & Hid & HG & _).
      eauto.
  - by rewrite Hcount.
Qed.

Lemma settings_views_exact_witness :
  3 + length [mk_view 40 "partner.form" (Some "res.partner") None
                (Some "<form/>")]
  = length (ir_ui_view legacy).
Proof.
  refine (proj2 (proj2
    (settings_views_exact 2 (mk_cursor legacy []) 3
       (_fix_incompatible_settings_views 2 (mk_cursor legacy [])).2 _ _))).
  - apply (bool_decide_unpack _). vm_compute. exact I.
  - vm_compute. reflexivity.
Defined.

(** *** Further properties: the whole migration *)

(** X19: a database on which the migration goes through.  With the
    five relations of the framework on the search path, with
    [account_edi_document] on the search path too if the database has a
    table of that name in any schema, and with no view that inherits
    from itself through other views, there is a recursion budget from
    which on [migrate] returns, whatever version it is called with; and
    the database it leaves has nothing for any of the four steps: no
    cron job, metadata row, access rule or view that their WHERE clauses
    select. *)
Theorem migrate_succeeds db :
  core_relations db ->
  edi_document_on_path db ->
  (∀ x, ¬ tc (inherits (ir_ui_view db)) x x) ->
  ∃ bound, ∀ limit version log,
    bound ≤ limit ->
    ∃ cr', migrate limit version (mk_cursor db log) = (Ok (), cr')
           ∧ (falsy version = false -> settled (cr_db cr')).
Proof.
  intros Hcore Hpath Hacyclic.
  destruct (migrate_returns db Hcore Hpath Hacyclic) as [bound Hbound].
  exists bound. intros limit version log Hle.
  destruct (Hbound limit version log Hle) as [cr' Hrun].
  exists cr'. split; [done|]. intros Hversion.
  pose proof (migrate_settles limit version (mk_cursor db log) Hversion)
    as Hsettled.
  unfold ends in Hsettled. rewrite Hrun in Hsettled. by apply Hsettled.
Qed.

Lemma migrate_succeeds_witness :
  ∃ bound, ∀ limit version log,
    bound ≤ limit ->
    ∃ cr', migrate limit version (mk_cursor legacy log) = (Ok (), cr')
           ∧ (falsy version = false -> settled (cr_db cr')).
Proof.
  apply (migrate_succeeds legacy).
  - split_and!; by apply (bool_decide_unpack _).
  - intros _. by apply (bool_decide_unpack _).
  - apply increasing_ids_acyclic. intros r p Hr. revert p.
    apply (proj1 (Forall_forall
             (fun r => ∀ p, view_inherit_id r = Some p -> (p < view_id r)%Z)
             (ir_ui_view legacy))); [|done].
    repeat constructor; intros p [= <-]; reflexivity.
Defined.

Lemma bind_split {A B} (m : M A) (f : A -> M B) cr :
  (m ≫= f) cr
  = match m cr with
    | (Ok a, cr') => f a cr'
    | (Raise e, cr') => (Raise e, cr')
    end.
Proof. reflexivity. Qed.

Lemma fatturapa_cron_run cr :
  _fix_fatturapa_cron cr
  = match missing (cr_db cr) update_fatturapa_cron with
    | Some t =>
        (Raise (UndefinedTable t),
         mk_cursor (cr_db cr) (cr_log cr ++ [update_fatturapa_cron]))
    | None =>
        (Ok (),
         mk_cursor
           (with_ir_cron (cr_db cr)
              (sql_update fatturapa_cron
                 (fun r => mk_cron (cron_id r) (cron_name r) (Some false))
                 (ir_cron (cr_db cr))))
           (cr_log cr ++ [update_fatturapa_cron]))
    end.
Proof.
  unfold _fix_fatturapa_cron, disable_fatturapa_cron, mbind, M_bind.
  rewrite execute_unfold.
  by destruct (missing (cr_db cr) update_fatturapa_cron).
Qed.

(** The rules of [executes]. *)

Lemma executes_weaken {A} k some (m : M A) :
  executes k some m -> executes k false m.
Proof.
  intros Hm cr. destruct (Hm cr) as (more & ? & ? & _).
  exists more. by split_and!.
Qed.

Lemma executes_ret {A} k (a : A) : executes k false (mret a).
Proof.
  intros cr. exists []. split_and!; [by rewrite app_nil_r | done..].
Qed.

Lemma executes_raise {A} k e : executes k false (@raise A e).
Proof.
  intros cr. exists []. split_and!; [by rewrite app_nil_r | done..].
Qed.

Lemma executes_execute {A} k st (run : database -> A * database) :
  step_of st = k -> executes k true (execute st run).
Proof.
  intros Hk cr. exists [st]. rewrite execute_unfold.
  split_and!; [by destruct (missing _ _) | by repeat constructor | done].
Qed.

Lemma executes_bind {A B} k some (m : M A) (f : A -> M B) :
  executes k some m -> (∀ a, executes k false (f a)) ->
  executes k some (m ≫= f).
Proof.
  intros Hm Hf cr. unfold mbind, M_bind.
  destruct (Hm cr) as (more & Hlog & Hall & Hsome).
  destruct (m cr) as [[a|e] cr1]; cbn [fst snd] in *.
  - destruct (Hf a cr1) as (more' & Hlog' & Hall' & _).
    exists (more ++ more'). split_and!.
    + by rewrite Hlog', Hlog, (assoc_L (++)).
    + by apply Forall_app.
    + intros Hs _ [Hnil _]%app_eq_nil. apply Hsome; [done| |done].
      by exists a.
  - exists more. split_and!; [done..|]. by intros _ [? [=]].
Qed.

Lemma executes_for_in {A B} k (xs : list A) (body : A -> B -> M B) acc :
  (∀ x acc, executes k false (body x acc)) ->
  executes k false (for_in xs body acc).
Proof.
  intros Hbody. revert acc.
  induction xs as [|x xs IH]; intros acc; cbn [for_in].
  - apply executes_ret.
  - apply executes_bind; [apply Hbody | apply IH].
Qed.

Lemma cascade_executes limit v name module :
  executes 4 false (_delete_view_cascade limit v name module).
Proof.
  revert v name module.
  induction limit as [|limit IH]; intros v name module.
  - apply executes_raise.
  - rewrite cascade_S. unfold cascade_body.
    apply executes_bind; [by eapply executes_weaken, executes_execute|].
    intros children. apply executes_bind.
    { apply executes_for_in. intros [c cn] acc.
      apply executes_bind; [apply IH|]. intros n. apply executes_ret. }
    intros count.
    apply executes_bind; [by eapply executes_weaken, executes_execute|].
    intros _.
    apply executes_bind; [by eapply executes_weaken, executes_execute|].
    intros [deleted|]; apply executes_ret.
Qed.

Lemma settings_views_patterns_executes limit pattern total :
  executes 4 true
    (views_to_delete ← find_settings_views pattern;
     for_in views_to_delete (fun '(view_id, view_name, module) total_deleted =>
       n ← _delete_view_cascade limit view_id view_name module;
       mret (total_deleted + n)) total).
Proof.
  apply executes_bind; [by apply executes_execute|].
  intros found. apply executes_for_in. intros [[v name] module] acc.
  apply executes_bind; [apply cascade_executes|].
  intros n. apply executes_ret.
Qed.

Lemma settings_views_loop_executes limit pattern patterns total :
  executes 4 true (settings_views_loop limit (pattern :: patterns) total).
Proof.
  unfold settings_views_loop. cbn [for_in].
  apply executes_bind; [apply settings_views_patterns_executes|].
  intros total'. apply executes_for_in. intros pattern' acc.
  eapply executes_weaken, settings_views_patterns_executes.
Qed.

(** X20: the statements of a run of [migrate], in their order.  The
    steps run one after the other: the statements executed are those of
    the first step, then those of the second, of the third and of the
    fourth, and nothing else is executed.  The first step has one
    statement, its UPDATE.  A run that returns has executed at least
    one statement of every step: no step is left out. *)
Theorem migrate_in_order limit version cr :
  falsy version = false ->
  ∃ l2 l3 l4,
    cr_log (migrate limit version cr).2
    = cr_log cr ++ [update_fatturapa_cron] ++ l2 ++ l3 ++ l4
    ∧ Forall (fun st => step_of st = 2) l2
    ∧ Forall (fun st => step_of st = 3) l3
    ∧ Forall (fun st => step_of st = 4) l4
    ∧ ((migrate limit version cr).1 = Ok () ->
       l2 ≠ [] ∧ l3 ≠ [] ∧ l4 ≠ []).
Proof.
  intros Hversion. unfold migrate. rewrite Hversion.
  assert (executes 2 true _fix_edi_format_noupdate) as H2.
  { apply executes_bind; [by apply executes_execute|].
    intros [|]; cbn [negb]; [|apply executes_ret].
    apply executes_bind; [by eapply executes_weaken, executes_execute|].
    intros _.
    apply executes_bind; [by eapply executes_weaken, executes_execute|].
    intros _. apply executes_ret. }
  assert (executes 3 true _fix_project_delete_wizard) as H3.
  { apply executes_bind; [by apply executes_execute|].
    intros [|m ms]; [apply executes_ret|].
    apply executes_bind; [by eapply executes_weaken, executes_execute|].
    intros _.
    apply executes_bind; [by eapply executes_weaken, executes_execute|].
    intros _. apply executes_ret. }
  assert (executes 4 true (_fix_incompatible_settings_views limit)) as H4.
  { apply (settings_views_loop_executes limit _ _ 0). }
  rewrite (bind_split _fix_fatturapa_cron), fatturapa_cron_run.
  destruct (missing (cr_db cr) update_fatturapa_cron).
  { exists [], [], []. split_and!; [done..|]. by intros [=]. }
  set (cr1 := mk_cursor _ (cr_log cr ++ [update_fatturapa_cron])).
  rewrite (bind_split _fix_edi_format_noupdate).
  destruct (H2 cr1) as (l2 & Hl2 & Hall2 & Hsome2).
  destruct (_fix_edi_format_noupdate cr1) as [[[]|e] cr2];
    cbn [fst snd] in *.
  2:{ exists l2, [], []. rewrite !app_nil_r.
      split_and!; [by rewrite Hl2; unfold cr1; cbn [cr_log];
          rewrite <-?(assoc_L (++)) | done..|].
      by intros [=]. }
  rewrite (bind_split _fix_project_delete_wizard).
  destruct (H3 cr2) as (l3 & Hl3 & Hall3 & Hsome3).
  destruct (_fix_project_delete_wizard cr2) as [[[]|e] cr3];
    cbn [fst snd] in *.
  2:{ exists l2, l3, []. rewrite !app_nil_r.
      split_and!; [by rewrite Hl3, Hl2; unfold cr1; cbn [cr_log];
          rewrite <-?(assoc_L (++)) | done..|].
      by intros [=]. }
  rewrite (bind_split (_fix_incompatible_settings_views limit)).
  destruct (H4 cr3) as (l4 & Hl4 & Hall4 & Hsome4).
  destruct (_fix_incompatible_settings_views limit cr3) as [[n|e] cr4];
    cbn [fst snd mret M_ret] in *.
  2:{ exists l2, l3, l4.
      split_and!; [by rewrite Hl4, Hl3, Hl2; unfold cr1; cbn [cr_log];
          rewrite <-?(assoc_L (++)) | done..|].
      by intros [=]. }
  exists l2, l3, l4.
  split_and!; [by rewrite Hl4, Hl3, Hl2; unfold cr1; cbn [cr_log];
          rewrite <-?(assoc_L (++)) | done..|].
  intros _. split_and!; [apply Hsome2 | apply Hsome3 | apply Hsome4];
    eauto.
Qed.

Lemma migrate_in_order_witness :
  ∃ l2 l3 l4,
    cr_log (migrate 3 (Some "16.0.1.3") (mk_cursor legacy [])).2
    = [] ++ [update_fatturapa_cron] ++ l2 ++ l3 ++ l4
    ∧ Forall (fun st => step_of st = 2) l2
    ∧ Forall (fun st => step_of st = 3) l3
    ∧ Forall (fun st => step_of st = 4) l4
    ∧ ((migrate 3 (Some "16.0.1.3") (mk_cursor legacy [])).1 = Ok () ->
       l2 ≠ [] ∧ l3 ≠ [] ∧ l4 ≠ []).
Proof.
  apply (migrate_in_order 3 (Some "16.0.1.3") (mk_cursor legacy [])).
  reflexivity.
Defined.

End PreMigrationProofs.
